(** * Noise timeline of the HDF tools (utils/HDFTools.py)

    A shallow embedding of [get_strain_from_hdf_file] and of the class
    [NoiseTimeline]: the catalog of HDF files, the run-spanning timeline
    of data-quality and injection masks, the validity test [is_valid] and
    the rejection sampler [sample].

    Integers are [Z]; numpy [int32] arrays are [list Z] (only comparisons,
    [&] and shifts by 0..4 are applied to them, so no wrap-around is
    involved); Python exceptions are an explicit error result. *)

From Stdlib Require Import String.
From Stdlib Require Import ZArith List Bool Lia Permutation Sorted.
Import ListNotations.
Local Open Scope Z_scope.

(* ===================================================================== *)
(** ** Exceptions and results *)
(* ===================================================================== *)

(** The exceptions the modelled code raises: failed [assert]s, indexing an
    empty list, numpy shape errors (and zero slice steps, negative
    dimensions, empty [randint] ranges), and [%] by zero. *)
Inductive exception : Set :=
| AssertionError
| IndexError
| ValueError
| ZeroDivisionError.

Definition exception_name (e : exception) : string :=
  match e with
  | AssertionError => "AssertionError"%string
  | IndexError => "IndexError"%string
  | ValueError => "ValueError"%string
  | ZeroDivisionError => "ZeroDivisionError"%string
  end.

Inductive result (A : Type) : Type :=
| Return (a : A)
| Raise (e : exception).
Arguments Return {A} a.
Arguments Raise {A} e.

Definition bind {A B : Type} (c : result A) (k : A -> result B) : result B :=
  match c with
  | Return a => k a
  | Raise e => Raise e
  end.

Notation "x <- c ;; k" := (bind c (fun x => k))
  (at level 61, c at next level, right associativity).

(** [assert cond] *)
Definition assert (cond : bool) : result unit :=
  if cond then Return tt else Raise AssertionError.

(* ===================================================================== *)
(** ** Python and numpy primitives *)
(* ===================================================================== *)

Definition len {A : Type} (l : list A) : Z := Z.of_nat (length l).

(** How Python adjusts one bound of [a[i:j]] (step 1) for a sequence of
    length [n]: a negative bound counts from the end and is clamped at 0,
    a bound past the end is clamped at [n]. *)
Definition slice_index (n x : Z) : Z :=
  if x <? 0 then Z.max (x + n) 0 else Z.min x n.

(** Number of elements [a[i:j]] selects. *)
Definition slice_length (n i j : Z) : nat :=
  Z.to_nat (slice_index n j - slice_index n i).

(** [a[i:j]] *)
Definition py_slice {A : Type} (a : list A) (i j : Z) : list A :=
  let n := len a in
  firstn (slice_length n i j) (skipn (Z.to_nat (slice_index n i)) a).

(** [a[::step]]: every [step]-th element from the first one for a positive
    step, from the last one backwards for a negative step; a zero step
    raises [ValueError]. *)
Fixpoint take_every {A : Type} (fuel : nat) (k : nat) (a : list A) : list A :=
  match fuel with
  | O => []
  | S fuel' =>
      match a with
      | [] => []
      | x :: _ => x :: take_every fuel' k (skipn k a)
      end
  end.

Definition py_stride {A : Type} (a : list A) (step : Z) : result (list A) :=
  if step =? 0 then Raise ValueError
  else if 0 <? step then Return (take_every (length a) (Z.to_nat step) a)
  else Return (take_every (length a) (Z.to_nat (- step)) (rev a)).

(** [l[0]] and [l[-1]] on a Python list. *)
Definition py_first {A : Type} (l : list A) : result A :=
  match l with
  | [] => Raise IndexError
  | x :: _ => Return x
  end.

Definition py_last {A : Type} (l : list A) : result A :=
  match rev l with
  | [] => Raise IndexError
  | x :: _ => Return x
  end.

(** [np.zeros(n, dtype=np.int32)] *)
Definition np_zeros (n : Z) : result (list Z) :=
  if n <? 0 then Raise ValueError else Return (repeat 0 (Z.to_nat n)).

(** [np.ones(n, dtype=np.int32)] *)
Definition np_ones (n : Z) : result (list Z) :=
  if n <? 0 then Raise ValueError else Return (repeat 1 (Z.to_nat n)).

(** [a[i:j] = v] on a numpy array: the array keeps its length; [v] must
    have the length of the selected slice, or exactly one element, which
    numpy broadcasts over the slice (also over an empty one); any other
    length raises [ValueError] (could not broadcast input array). *)
Definition np_setslice (a : list Z) (i j : Z) (v : list Z) : result (list Z) :=
  let n := len a in
  let lo := Z.to_nat (slice_index n i) in
  let k := slice_length n i j in
  if Nat.eqb (length v) k then
    Return (firstn lo a ++ v ++ skipn (lo + k) a)
  else if Nat.eqb (length v) 1 then
    Return (firstn lo a ++ repeat (hd 0 v) k ++ skipn (lo + k) a)
  else Raise ValueError.

(** Element-wise [np.bitwise_and(x, y)] of two one-dimensional arrays with
    numpy's broadcasting: equal lengths, or one operand of length one
    stretched to the other; otherwise [ValueError] (operands could not be
    broadcast together). *)
Fixpoint zip_land (x y : list Z) : list Z :=
  match x, y with
  | a :: x', b :: y' => Z.land a b :: zip_land x' y'
  | _, _ => []
  end.

Definition np_bitwise_and (x y : list Z) : result (list Z) :=
  if Nat.eqb (length x) (length y) then Return (zip_land x y)
  else if Nat.eqb (length x) 1 then Return (map (Z.land (hd 0 x)) y)
  else if Nat.eqb (length y) 1 then Return (map (fun a => Z.land a (hd 0 y)) x)
  else Raise ValueError.

(** [np.left_shift(a, i)] *)
Definition np_left_shift (a : list Z) (i : Z) : list Z :=
  map (fun x => Z.shiftl x i) a.

(** [np.all(a)] on an integer array: every element is non-zero. *)
Definition np_all (a : list Z) : bool :=
  forallb (fun x => negb (x =? 0)) a.

(** [np.all(a > m)] *)
Definition np_all_gt (a : list Z) (m : Z) : bool :=
  forallb (fun x => m <? x) a.

(** [sum([2**i for i in bits])] *)
Definition sum_pow2 (bits : list Z) : Z :=
  fold_right Z.add 0 (map (fun i => 2 ^ i) bits).

(** [set(bits).issubset(set(range(n)))] *)
Definition issubset_range (bits : list Z) (n : Z) : bool :=
  forallb (fun b => (0 <=? b) && (b <? n)) bits.

(* ===================================================================== *)
(** ** get_strain_from_hdf_file *)
(* ===================================================================== *)

Inductive detector_id : Set := H1 | L1.

Section Strain.

(** A strain sample; only moved around, never computed with. *)
Variable sample_t : Type.

(** What [get_strain_from_hdf_file] reads of an HDF file:
    [meta/GPSstart] and [strain/Strain]. *)
Record strain_file : Type := {
  meta_GPSstart : Z;
  strain_Strain : list sample_t
}.

(** The body of the loop over the detectors, for one detector. *)
Definition select_strain (hdf_file : strain_file)
           (gps_time delta_t original_sampling_rate sampling_factor : Z)
  : result (list sample_t) :=
  let start_time := meta_GPSstart hdf_file in
  let start_idx := (gps_time - start_time - delta_t) * original_sampling_rate in
  let end_idx := (gps_time - start_time + delta_t) * original_sampling_rate in
  let strain := strain_Strain hdf_file in
  py_stride (py_slice strain start_idx end_idx) sampling_factor.

(** [get_strain_from_hdf_file] with [as_pycbc_timeseries=False]; the
    dictionary [hdf_file_paths] is a function of the detector, and so is
    the returned dictionary. [original_sampling_rate %
    target_sampling_rate] raises [ZeroDivisionError] for a zero target
    rate; once the assertion holds, [int(original / target)] is the
    exact quotient. *)
Definition get_strain_from_hdf_file
           (hdf_file_paths : detector_id -> strain_file)
           (gps_time delta_t original_sampling_rate target_sampling_rate : Z)
  : result (detector_id -> list sample_t) :=
  r <- (if target_sampling_rate =? 0 then Raise ZeroDivisionError
        else Return (original_sampling_rate mod target_sampling_rate)) ;;
  _ <- assert (r =? 0) ;;
  let sampling_factor := original_sampling_rate / target_sampling_rate in
  h1 <- select_strain (hdf_file_paths H1) gps_time delta_t
          original_sampling_rate sampling_factor ;;
  l1 <- select_strain (hdf_file_paths L1) gps_time delta_t
          original_sampling_rate sampling_factor ;;
  Return (fun detector => match detector with H1 => h1 | L1 => l1 end).

End Strain.

Arguments meta_GPSstart {sample_t} s.
Arguments strain_Strain {sample_t} s.
Arguments select_strain {sample_t}.
Arguments get_strain_from_hdf_file {sample_t}.

(* ===================================================================== *)
(** ** The catalog of HDF files *)
(* ===================================================================== *)

(** What [_get_hdf_files] reads of one HDF file (the files found by
    [get_file_paths], in the order of [self.hdf_file_paths]). *)
Record hdf_content : Type := {
  content_path : string;
  meta_start : Z;                 (* f['meta']['GPSstart'] *)
  meta_Detector : string;         (* f['meta']['Detector'] *)
  meta_Duration : Z;              (* f['meta']['Duration'] *)
  quality_Injmask : list Z;       (* f['quality']['injections']['Injmask'] *)
  quality_DQmask : list Z         (* f['quality']['simple']['DQmask'] *)
}.

(** An entry of [self.hdf_files]. *)
Record hdf_file : Type := {
  file_path : string;
  start_time : Z;
  detector : string;
  duration : Z;
  inj_mask : list Z;
  dq_mask : list Z
}.

(** The four arrays of [self.timeline]; the [environment] of [is_valid]
    has the same keys. *)
Record timeline_t : Type := {
  h1_inj_mask : list Z;
  l1_inj_mask : list Z;
  h1_dq_mask : list Z;
  l1_dq_mask : list Z
}.

(** A [for] loop whose body may raise. *)
Fixpoint for_each {A S : Type} (body : S -> A -> result S) (l : list A) (s : S)
  : result S :=
  match l with
  | [] => Return s
  | x :: l' => s' <- body s x ;; for_each body l' s'
  end.

(** [sorted(hdf_files, key=lambda _: _['start_time'])]: Python's sort is
    stable; so is this insertion sort (an entry goes before the first
    later entry whose start time is not smaller). *)
Fixpoint insert_by_start_time (x : hdf_file) (l : list hdf_file) : list hdf_file :=
  match l with
  | [] => [x]
  | y :: l' =>
      if start_time x <=? start_time y then x :: y :: l'
      else y :: insert_by_start_time x l'
  end.

Definition sorted_by_start_time (l : list hdf_file) : list hdf_file :=
  fold_right insert_by_start_time [] l.

Module NoiseTimeline.

(** The object: [self.hdf_files] and [self.timeline]. *)
Record t : Type := {
  hdf_files : list hdf_file;
  timeline : timeline_t
}.

(** The body of the loop of [_get_hdf_files]. The masks stand for the
    arrays as read with [dtype=np.int32]: the values of the file when
    these are [int32] values. *)
Definition read_hdf_file (acc : list hdf_file) (f : hdf_content)
  : result (list hdf_file) :=
  let start_time := meta_start f in
  let detector := meta_Detector f in
  let duration := meta_Duration f in
  let inj_mask := quality_Injmask f in
  let dq_mask := quality_DQmask f in
  _ <- assert (String.eqb detector "H1" || String.eqb detector "L1") ;;
  _ <- assert ((duration =? len inj_mask) && (len inj_mask =? len dq_mask)) ;;
  Return (acc ++ [ {| file_path := content_path f;
                      start_time := start_time;
                      detector := detector;
                      duration := duration;
                      inj_mask := inj_mask;
                      dq_mask := dq_mask |} ]).

Definition _get_hdf_files (hdf_file_paths : list hdf_content)
  : result (list hdf_file) :=
  hdf_files <- for_each read_hdf_file hdf_file_paths [] ;;
  Return (sorted_by_start_time hdf_files).

(** The properties [gps_start_time] and [gps_end_time]. *)
Definition gps_start_time (hdf_files : list hdf_file) : result Z :=
  f <- py_first hdf_files ;;
  Return (start_time f).

Definition gps_end_time (hdf_files : list hdf_file) : result Z :=
  f <- py_last hdf_files ;;
  g <- py_last hdf_files ;;
  Return (start_time f + duration g).

(** The body of the loop of [_build_timeline]. *)
Definition add_hdf_file (hdf_files : list hdf_file)
           (timeline : timeline_t) (hdf_file : hdf_file) : result timeline_t :=
  let detector := detector hdf_file in
  let dq_mask := dq_mask hdf_file in
  let inj_mask := inj_mask hdf_file in
  s <- gps_start_time hdf_files ;;
  let idx_start := start_time hdf_file - s in
  let idx_end := idx_start + duration hdf_file in
  if String.eqb detector "H1" then
    a <- np_setslice (h1_inj_mask timeline) idx_start idx_end inj_mask ;;
    b <- np_setslice (h1_dq_mask timeline) idx_start idx_end dq_mask ;;
    Return {| h1_inj_mask := a;
              l1_inj_mask := l1_inj_mask timeline;
              h1_dq_mask := b;
              l1_dq_mask := l1_dq_mask timeline |}
  else
    a <- np_setslice (l1_inj_mask timeline) idx_start idx_end inj_mask ;;
    b <- np_setslice (l1_dq_mask timeline) idx_start idx_end dq_mask ;;
    Return {| h1_inj_mask := h1_inj_mask timeline;
              l1_inj_mask := a;
              h1_dq_mask := h1_dq_mask timeline;
              l1_dq_mask := b |}.

Definition _build_timeline (hdf_files : list hdf_file) : result timeline_t :=
  e <- gps_end_time hdf_files ;;
  s <- gps_start_time hdf_files ;;
  let n_entries := e - s in
  a <- np_zeros n_entries ;;
  b <- np_zeros n_entries ;;
  c <- np_zeros n_entries ;;
  d <- np_zeros n_entries ;;
  for_each (add_hdf_file hdf_files) hdf_files
           {| h1_inj_mask := a; l1_inj_mask := b;
              h1_dq_mask := c; l1_dq_mask := d |}.

(** [__init__], from the contents of the HDF files of the directory. *)
Definition __init__ (hdf_file_paths : list hdf_content) : result t :=
  hdf_files <- _get_hdf_files hdf_file_paths ;;
  timeline <- _build_timeline hdf_files ;;
  Return {| hdf_files := hdf_files; timeline := timeline |}.

(** [idx2gps] and [gps2idx]. The start time is a numpy [int64]: [+] and
    [-] are those of the integers as long as the operands and the result
    are [int64] values. *)
Definition idx2gps (self : t) (idx : Z) : result Z :=
  s <- gps_start_time (hdf_files self) ;;
  Return (idx + s).

Definition gps2idx (self : t) (gps : Z) : result Z :=
  s <- gps_start_time (hdf_files self) ;;
  Return (gps - s).

(** How the loop over the HDF files of [is_valid] ends: with
    [return False], with [break], or at the end of the list. *)
Inductive edge_outcome : Set :=
| TooCloseToEdge
| FarFromEdge
| NoContainingFile.

Fixpoint edge_check (hdf_files : list hdf_file) (gps_time delta_t : Z)
  : edge_outcome :=
  match hdf_files with
  | [] => NoContainingFile
  | hdf_file :: rest =>
      let start_time := start_time hdf_file in
      let end_time := start_time + duration hdf_file in
      if (start_time <? gps_time) && (gps_time <? end_time) then
        if negb ((start_time + delta_t <? gps_time)
                 && (gps_time <? end_time - delta_t))
        then TooCloseToEdge
        else FarFromEdge
      else edge_check rest gps_time delta_t
  end.

(** The mask intervals [environment] selected by [is_valid]. *)
Definition select_environment (self : t) (gps_time delta_t : Z)
  : result timeline_t :=
  i <- gps2idx self gps_time ;;
  let idx_start := i - delta_t in
  j <- gps2idx self gps_time ;;
  let idx_end := j + delta_t in
  let timeline := timeline self in
  Return {| h1_inj_mask := py_slice (h1_inj_mask timeline) idx_start idx_end;
            l1_inj_mask := py_slice (l1_inj_mask timeline) idx_start idx_end;
            h1_dq_mask := py_slice (h1_dq_mask timeline) idx_start idx_end;
            l1_dq_mask := py_slice (l1_dq_mask timeline) idx_start idx_end |}.

(** The data quality check: [False] is returned when it is [false]. *)
Definition dq_check (environment : timeline_t) (dq_bits : list Z) : bool :=
  let min_dq := sum_pow2 dq_bits in
  np_all_gt (h1_dq_mask environment) min_dq
  && np_all_gt (l1_dq_mask environment) min_dq.

(** The loop over [inj_bits]; its result is the result of [is_valid]. *)
Fixpoint inj_check (environment : timeline_t) (ones : list Z)
         (inj_bits : list Z) : result bool :=
  match inj_bits with
  | [] => Return true
  | i :: rest =>
      h <- np_bitwise_and (h1_inj_mask environment) (np_left_shift ones i) ;;
      if negb (np_all h) then Return false
      else
        l <- np_bitwise_and (l1_inj_mask environment) (np_left_shift ones i) ;;
        if negb (np_all l) then Return false
        else inj_check environment ones rest
  end.

Section Queries.

(** The GPS times of the confirmed mergers, [catalog.mergers[_].time]
    of the PyCBC catalog, an external collaborator consumed as a list
    of integer times. *)
Variable real_event_times : list Z.

(** [is_valid] for a time that is a Python [int], from its second
    assertion on; the first one, [isinstance(gps_time, int)], is part of
    [is_valid_of_value] below. *)
Definition is_valid (self : t) (gps_time delta_t : Z)
           (dq_bits inj_bits : list Z) : result bool :=
  _ <- assert (0 <=? delta_t) ;;
  _ <- assert (issubset_range dq_bits 7) ;;
  _ <- assert (issubset_range inj_bits 5) ;;
  if existsb (fun e => Z.abs (gps_time - e) <=? delta_t) real_event_times
  then Return false
  else
    match edge_check (hdf_files self) gps_time delta_t with
    | TooCloseToEdge => Return false
    | _ =>
        environment <- select_environment self gps_time delta_t ;;
        if negb (dq_check environment dq_bits) then Return false
        else
          ones <- np_ones (2 * delta_t) ;;
          inj_check environment ones inj_bits
    end.

(** The generator behind [np.random.randint]: from a generator state
    and the bounds [low], [high], a draw and the next state. *)
Variable rng : Type.
Variable randint : rng -> Z -> Z -> Z * rng.

(** [sample] with [return_paths=False]. The [while True] loop runs for
    at most [fuel] draws: [None] says that it is still running. The
    state of the generator is returned with the time. *)
Fixpoint sample (fuel : nat) (self : t) (g : rng) (delta_t : Z)
         (dq_bits inj_bits : list Z) : option (result (Z * rng)) :=
  match fuel with
  | O => None
  | S fuel' =>
      match gps_start_time (hdf_files self), gps_end_time (hdf_files self) with
      | Raise e, _ => Some (Raise e)
      | Return _, Raise e => Some (Raise e)
      | Return s, Return e =>
          let low := s + delta_t in
          let high := e - delta_t in
          if high <=? low then Some (Raise ValueError)
          else
            let (gps_time, g') := randint g low high in
            match is_valid self gps_time delta_t dq_bits inj_bits with
            | Raise e => Some (Raise e)
            | Return true => Some (Return (gps_time, g'))
            | Return false => sample fuel' self g' delta_t dq_bits inj_bits
            end
      end
  end.

End Queries.

(** [get_file_paths_for_time]: the loop keeps the path found for each
    detector and returns as soon as it has both. *)
Fixpoint file_paths_loop (hdf_files : list hdf_file) (gps_time : Z)
         (h1 l1 : option string) : option (string * string) :=
  match hdf_files with
  | [] => None
  | hdf_file :: rest =>
      let start_time := start_time hdf_file in
      let end_time := start_time + duration hdf_file in
      let inside := (start_time <? gps_time) && (gps_time <? end_time) in
      let h1' := if inside && String.eqb (detector hdf_file) "H1"
                 then Some (file_path hdf_file) else h1 in
      let l1' := if inside && String.eqb (detector hdf_file) "L1"
                 then Some (file_path hdf_file) else l1 in
      match h1', l1' with
      | Some a, Some b => Some (a, b)
      | _, _ => file_paths_loop rest gps_time h1' l1'
      end
  end.

Definition get_file_paths_for_time (self : t) (gps_time : Z)
  : option (string * string) :=
  file_paths_loop (hdf_files self) gps_time None None.

End NoiseTimeline.

(* ===================================================================== *)
(** ** Vocabulary of the statements *)
(* ===================================================================== *)

(** The four arrays of a timeline, the mask of a catalog entry that
    [_build_timeline] copies into each, and whether an entry is copied
    into it (the [if detector == 'H1'] of the loop). *)
Inductive channel : Set := H1_inj | L1_inj | H1_dq | L1_dq.

Definition array_of (c : channel) (timeline : timeline_t) : list Z :=
  match c with
  | H1_inj => h1_inj_mask timeline
  | L1_inj => l1_inj_mask timeline
  | H1_dq => h1_dq_mask timeline
  | L1_dq => l1_dq_mask timeline
  end.

Definition mask_of (c : channel) (f : hdf_file) : list Z :=
  match c with
  | H1_inj | L1_inj => inj_mask f
  | H1_dq | L1_dq => dq_mask f
  end.

Definition writes (c : channel) (f : hdf_file) : bool :=
  match c with
  | H1_inj | H1_dq => String.eqb (detector f) "H1"
  | L1_inj | L1_dq => negb (String.eqb (detector f) "H1")
  end.

(** The second [t] lies in the recording [start_time, start_time + duration). *)
Definition covers (f : hdf_file) (t : Z) : Prop :=
  start_time f <= t < start_time f + duration f.

(** The open-interval test of [is_valid] and [get_file_paths_for_time]. *)
Definition strictly_contains (f : hdf_file) (t : Z) : Prop :=
  start_time f < t < start_time f + duration f.

(** No two entries of the same detector overlap in time. *)
Definition non_overlapping (hdf_files : list hdf_file) : Prop :=
  forall (i j : nat) (f g : hdf_file),
    i <> j ->
    nth_error hdf_files i = Some f ->
    nth_error hdf_files j = Some g ->
    detector f = detector g ->
    start_time f + duration f <= start_time g
    \/ start_time g + duration g <= start_time f.

(** What [_get_hdf_files] asserts of every entry. *)
Definition well_formed (f : hdf_file) : Prop :=
  (detector f = "H1"%string \/ detector f = "L1"%string)
  /\ duration f = len (inj_mask f)
  /\ len (inj_mask f) = len (dq_mask f).

(** The preconditions of [is_valid] hold, no known event is within
    [delta_t] of the time, and the loop over the files did not return
    [False]: the mask checks are reached. *)
Definition reaches_mask_checks (real_event_times : list Z)
           (self : NoiseTimeline.t) (gps_time delta_t : Z)
           (dq_bits inj_bits : list Z) : Prop :=
  0 <= delta_t
  /\ issubset_range dq_bits 7 = true
  /\ issubset_range inj_bits 5 = true
  /\ existsb (fun e => Z.abs (gps_time - e) <=? delta_t) real_event_times = false
  /\ NoiseTimeline.edge_check (NoiseTimeline.hdf_files self) gps_time delta_t
     <> NoiseTimeline.TooCloseToEdge.

(** The window [a[gps2idx(gps_time) - delta_t : gps2idx(gps_time) + delta_t]]
    of a timeline array, for a run that starts at [s]. *)
Definition window (s gps_time delta_t : Z) (a : list Z) : list Z :=
  py_slice a (gps_time - s - delta_t) (gps_time - s + delta_t).

(** Bit [k] of a mask value is set: [x & (1 << k) != 0]. *)
Definition bit_set (k x : Z) : Prop := Z.land x (Z.shiftl 1 k) <> 0.

Definition bit_setb (k x : Z) : bool := negb (Z.land x (Z.shiftl 1 k) =? 0).

(** The order of the catalog. *)
Definition le_start (f g : hdf_file) : Prop := start_time f <= start_time g.

(** The four arrays all have [n] elements. *)
Definition all_len (n : Z) (timeline : timeline_t) : Prop :=
  forall c, len (array_of c timeline) = n.

(** The entry is well formed and lies within the [n] seconds of a run that
    starts at [s]. *)
Definition in_span (s n : Z) (f : hdf_file) : Prop :=
  well_formed f
  /\ 0 <= start_time f - s
  /\ start_time f - s + duration f <= n.

(** The timeline before the loop of [_build_timeline]: [n] zeros in each
    array. *)
Definition zeros (n : Z) : timeline_t :=
  {| h1_inj_mask := repeat 0 (Z.to_nat n); l1_inj_mask := repeat 0 (Z.to_nat n);
     h1_dq_mask := repeat 0 (Z.to_nat n); l1_dq_mask := repeat 0 (Z.to_nat n) |}.

(** The state of the generator before draw number [k] of [sample], and
    that draw. *)
Fixpoint rng_state {rng : Type} (randint : rng -> Z -> Z -> Z * rng)
         (low high : Z) (g : rng) (k : nat) : rng :=
  match k with
  | O => g
  | S k' => snd (randint (rng_state randint low high g k') low high)
  end.

Definition draw {rng : Type} (randint : rng -> Z -> Z -> Z * rng)
           (low high : Z) (g : rng) (k : nat) : Z :=
  fst (randint (rng_state randint low high g k) low high).

(* ===================================================================== *)
(** ** Example catalogs *)
(* ===================================================================== *)

(** An HDF file whose masks are constant. *)
Definition constant_file (path : string) (start duration : Z)
           (detector : string) (dq inj : Z) : hdf_content :=
  {| content_path := path;
     meta_start := start;
     meta_Detector := detector;
     meta_Duration := duration;
     quality_Injmask := repeat inj (Z.to_nat duration);
     quality_DQmask := repeat dq (Z.to_nat duration) |}.

(** One recording [1000, 1500) per detector, every quality bit and every
    injection bit set. *)
Definition one_segment_files : list hdf_content :=
  [ constant_file "H-1000.hdf" 1000 500 "H1" 127 31;
    constant_file "L-1000.hdf" 1000 500 "L1" 127 31 ].

(** Two adjacent recordings [1000, 1500) and [1500, 2000) per detector. *)
Definition two_segment_files : list hdf_content :=
  [ constant_file "H-1000.hdf" 1000 500 "H1" 127 31;
    constant_file "L-1000.hdf" 1000 500 "L1" 127 31;
    constant_file "H-1500.hdf" 1500 500 "H1" 127 31;
    constant_file "L-1500.hdf" 1500 500 "L1" 127 31 ].

(** A one-second recording next to an empty one that starts at the same
    time and comes last in the catalog. *)
Definition one_second_files : list hdf_content :=
  [ constant_file "H-0.hdf" 0 1 "H1" 127 31;
    constant_file "L-0.hdf" 0 0 "L1" 127 31 ].

(** A two-second recording next to the same empty one. *)
Definition two_second_files : list hdf_content :=
  [ constant_file "H-0.hdf" 0 2 "H1" 127 31;
    constant_file "L-0.hdf" 0 0 "L1" 127 31 ].

Definition example_entry (start duration : Z) (path detector : string)
  : hdf_file :=
  {| file_path := path; start_time := start; detector := detector;
     duration := duration;
     inj_mask := repeat 31 (Z.to_nat duration);
     dq_mask := repeat 127 (Z.to_nat duration) |}.

Definition example_masks (n : nat) : timeline_t :=
  {| h1_inj_mask := repeat 31 n; l1_inj_mask := repeat 31 n;
     h1_dq_mask := repeat 127 n; l1_dq_mask := repeat 127 n |}.

(** What [__init__] builds from [one_segment_files] and from
    [two_segment_files]. *)
Definition one_segment : NoiseTimeline.t :=
  {| NoiseTimeline.hdf_files :=
       [ example_entry 1000 500 "H-1000.hdf" "H1";
         example_entry 1000 500 "L-1000.hdf" "L1" ];
     NoiseTimeline.timeline := example_masks 500 |}.

Definition two_segments : NoiseTimeline.t :=
  {| NoiseTimeline.hdf_files :=
       [ example_entry 1000 500 "H-1000.hdf" "H1";
         example_entry 1000 500 "L-1000.hdf" "L1";
         example_entry 1500 500 "H-1500.hdf" "H1";
         example_entry 1500 500 "L-1500.hdf" "L1" ];
     NoiseTimeline.timeline := example_masks 1000 |}.

(** A generator that counts: draw number [g] is [low + g mod (high - low)]. *)
Definition counting_randint (g : Z) (low high : Z) : Z * Z :=
  (low + g mod (high - low), g + 1).

(** A strain file of forty samples 0..39 that starts at GPS time 10. *)
Definition example_strain : strain_file Z :=
  {| meta_GPSstart := 10; strain_Strain := map Z.of_nat (seq 0 40) |}.

(* ===================================================================== *)
(** ** get_file_paths *)
(* ===================================================================== *)

(** [s.endswith(ext)]: some suffix of [s] is [ext]. *)
Fixpoint endswith (s ext : string) : bool :=
  String.eqb s ext
  || match s with
     | EmptyString => false
     | String _ s' => endswith s' ext
     end.

(** [get_file_paths], from what [os.walk(directory)] yields, the triples
    [(path, dirs, files)] in its order, and [os.path.join]; [extensions]
    is [None] or a list of extensions. *)
Definition get_file_paths (join : string -> string -> string)
           (walk : list (string * list string * list string))
           (extensions : option (list string)) : list string :=
  let file_paths :=
    flat_map (fun entry => let '(path, dirs, files) := entry in
                           map (join path) files) walk in
  match extensions with
  | None => file_paths
  | Some extensions =>
      filter (fun p => existsb (fun ext => endswith p ext) extensions) file_paths
  end.

(* ===================================================================== *)
(** ** read_json_config (utils/configfiles.py) *)
(* ===================================================================== *)

(** What [read_json_config] raises: its own [IOError] for a path that does
    not exist and its own [KeyError] with the missing keys; and what the
    calls it makes raise: [OpenError] stands for the error of
    [open(file_path, 'r')] (a directory, a file that may not be read),
    [JSONDecodeError] for the error of [json.load], [AttributeError] for
    [config.keys()] on a JSON value that is no dictionary. *)
Inductive config_exception : Type :=
| IOError
| OpenError
| JSONDecodeError
| AttributeError
| KeyError (missing_keys : list string).

Definition required_keys : list string :=
  [ "background_data_directory"%string; "dq_bits"%string; "inj_bits"%string;
    "waveform_params_file_name"%string; "max_runtime"%string;
    "n_injection_samples"%string; "n_noise_samples"%string;
    "n_processes"%string; "random_seed"%string; "output_file_name"%string ].

Section Config.

(** The values of a JSON object; they are only passed on. *)
Variable value : Type.

(** What a path gives: no such path ([os.path.exists] is false), a path
    that [open] rejects, a text that [json.load] rejects, a JSON object
    (the dictionary [json.load] returns, as its items), or another JSON
    value (a list, a number, a string, [null]). *)
Inductive json_file : Type :=
| NoSuchPath
| CannotOpen
| NotJSON
| JSONObject (config : list (string * value))
| JSONOther.

Variable load : string -> json_file.

(** [required_keys.difference(set(config.keys()))]; the set is listed in
    the order of [required_keys]. *)
Definition missing_keys (config : list (string * value)) : list string :=
  filter (fun k => negb (existsb (String.eqb k) (map fst config))) required_keys.

Definition read_json_config (file_path : string)
  : config_exception + list (string * value) :=
  match load file_path with
  | NoSuchPath => inl IOError
  | CannotOpen => inl OpenError
  | NotJSON => inl JSONDecodeError
  | JSONOther => inl AttributeError
  | JSONObject config =>
      if negb (Nat.eqb (length (missing_keys config)) 0)
      then inl (KeyError (missing_keys config))
      else inr config
  end.

End Config.

Arguments NoSuchPath {value}.
Arguments CannotOpen {value}.
Arguments NotJSON {value}.
Arguments JSONObject {value} config.
Arguments JSONOther {value}.
Arguments missing_keys {value} config.
Arguments read_json_config {value} load file_path.

(* ===================================================================== *)
(** ** More vocabulary *)
(* ===================================================================== *)

(** The catalog entry [_get_hdf_files] makes of a file. *)
Definition entry_of (f : hdf_content) : hdf_file :=
  {| file_path := content_path f;
     start_time := meta_start f;
     detector := meta_Detector f;
     duration := meta_Duration f;
     inj_mask := quality_Injmask f;
     dq_mask := quality_DQmask f |}.

(** The values of numpy's [int64] and [int32]. The start times and
    durations read from the HDF files are [int64] scalars, and so is what
    is computed from them with [+] and [-]: the integers of the model
    stand for them as long as they stay in this range. The masks are read
    with [dtype=np.int32], which leaves the values of that range as they
    are. *)
Definition int64_range (z : Z) : Prop :=
  -9223372036854775808 <= z < 9223372036854775808.

Definition int32_range (z : Z) : Prop :=
  -2147483648 <= z < 2147483648.

(** What is passed for [gps_time]: a Python [int], or any other value (a
    numpy integer, a float): [isinstance(gps_time, int)] tells them
    apart. *)
Inductive python_value : Set :=
| PythonInt (z : Z)
| OtherValue.

(** [is_valid] from its first assertion,
    [assert isinstance(gps_time, int)], on. *)
Definition is_valid_of_value (real_event_times : list Z)
           (self : NoiseTimeline.t) (gps_time : python_value) (delta_t : Z)
           (dq_bits inj_bits : list Z) : result bool :=
  match gps_time with
  | PythonInt z =>
      NoiseTimeline.is_valid real_event_times self z delta_t dq_bits inj_bits
  | OtherValue => Raise AssertionError
  end.

(** The arguments of [is_valid] pass its assertions. *)
Definition valid_arguments (delta_t : Z) (dq_bits inj_bits : list Z) : Prop :=
  0 <= delta_t
  /\ Forall (fun b => 0 <= b < 7) dq_bits
  /\ Forall (fun b => 0 <= b < 5) inj_bits.

(** The catalog has a file of the detector that strictly contains the
    time, under the given path. *)
Definition has_file (hdf_files : list hdf_file) (det : string)
           (gps_time : Z) (path : string) : Prop :=
  exists f, In f hdf_files
            /\ detector f = det
            /\ strictly_contains f gps_time
            /\ file_path f = path.

(** More example files. *)
Definition bad_detector_file : hdf_content :=
  constant_file "V-1000.hdf" 1000 500 "V1" 127 31.

Definition example_entry_with (start duration : Z) (path detector : string)
           (dq inj : Z) : hdf_file :=
  entry_of (constant_file path start duration detector dq inj).

(** Two recordings of H1 that overlap in [1200, 1500). *)
Definition overlapping_files : list hdf_content :=
  [ constant_file "H-1000.hdf" 1000 500 "H1" 127 31;
    constant_file "H-1200.hdf" 1200 500 "H1" 3 7 ].

Definition example_walk : list (string * list string * list string) :=
  [ ("data"%string, ["O1"%string], ["readme.txt"%string; "a.hdf"%string]);
    ("data/O1"%string, [], ["b.h5"%string; "c.hdf5"%string; "dhdf"%string]) ].

Definition slash_join (path file : string) : string :=
  (path ++ "/" ++ file)%string.

Definition example_load (file_path : string) : json_file Z :=
  if String.eqb file_path "config.json"
  then JSONObject (map (fun k => (k, 0)) required_keys ++ [("comment"%string, 1)])
  else if String.eqb file_path "partial.json"
  then JSONObject [("dq_bits"%string, 0)]
  else if String.eqb file_path "list.json"
  then JSONOther
  else if String.eqb file_path "data"
  then CannotOpen
  else NoSuchPath.

(** A strain file of 2000 samples (500 seconds at 4 Hz) that starts at GPS
    time 1000. *)
Definition long_strain : strain_file Z :=
  {| meta_GPSstart := 1000; strain_Strain := repeat 0 2000 |}.

(* ===================================================================== *)
(** ** Facts about the primitives *)
(* ===================================================================== *)

Section Slices.

Context {A : Type}.
Implicit Types a : list A.

Lemma slice_index_range (n x : Z) :
  0 <= n -> 0 <= slice_index n x <= n.
Proof. intros Hn. unfold slice_index. destruct (x <? 0) eqn:E; lia. Qed.

Lemma slice_index_inside (n x : Z) :
  0 <= x <= n -> slice_index n x = x.
Proof.
  intros H. unfold slice_index.
  destruct (x <? 0) eqn:E; [apply Z.ltb_lt in E|]; lia.
Qed.

Lemma slice_index_past (n x : Z) :
  0 <= n <= x -> slice_index n x = n.
Proof.
  intros H. unfold slice_index.
  destruct (x <? 0) eqn:E; [apply Z.ltb_lt in E|]; lia.
Qed.

Lemma len_nonneg a : 0 <= len a.
Proof. unfold len. lia. Qed.

Lemma py_slice_length a (i j : Z) :
  length (py_slice a i j) = slice_length (len a) i j.
Proof.
  unfold py_slice, slice_length.
  rewrite length_firstn, length_skipn.
  pose proof (slice_index_range (len a) i (len_nonneg a)).
  pose proof (slice_index_range (len a) j (len_nonneg a)).
  unfold len in *. lia.
Qed.

(** Inside the array a slice is the plain window. *)
Lemma py_slice_inside a (i j : Z) :
  0 <= i -> i <= j -> j <= len a ->
  py_slice a i j = firstn (Z.to_nat (j - i)) (skipn (Z.to_nat i) a).
Proof.
  intros Hi Hij Hj. unfold py_slice, slice_length.
  rewrite !slice_index_inside by lia. reflexivity.
Qed.

Lemma py_slice_inside_length a (i j : Z) :
  0 <= i -> i <= j -> j <= len a ->
  len (py_slice a i j) = j - i.
Proof.
  intros Hi Hij Hj. unfold len at 1. rewrite py_slice_length.
  unfold slice_length. rewrite !slice_index_inside by lia. lia.
Qed.

Lemma py_slice_inside_nth a (i j : Z) (k : nat) :
  0 <= i -> i <= j -> j <= len a -> (Z.of_nat k < j - i) ->
  nth_error (py_slice a i j) k = nth_error a (Z.to_nat i + k).
Proof.
  intros Hi Hij Hj Hk. rewrite py_slice_inside by assumption.
  rewrite nth_error_firstn.
  destruct (Nat.ltb_spec k (Z.to_nat (j - i))) as [_|Hge]; [|lia].
  apply nth_error_skipn.
Qed.

(** Elements a slice selects are elements of the array. *)
Lemma py_slice_incl a (i j : Z) (x : A) :
  In x (py_slice a i j) -> In x a.
Proof.
  unfold py_slice. intros H.
  set (k := slice_length (len a) i j) in *.
  set (lo := Z.to_nat (slice_index (len a) i)) in *.
  rewrite <- (firstn_skipn lo a). apply in_or_app. right.
  rewrite <- (firstn_skipn k (skipn lo a)). apply in_or_app. now left.
Qed.

Lemma take_every_nth (k : nat) :
  (0 < k)%nat ->
  forall (m fuel : nat) a,
    (length a <= fuel)%nat ->
    nth_error (take_every fuel k a) m = nth_error a (m * k).
Proof.
  intros Hk. induction m as [|m IH]; intros fuel a Hf.
  - destruct a as [|x a]; destruct fuel; simpl in *; try reflexivity; lia.
  - destruct a as [|x a].
    + destruct fuel; simpl; now rewrite ?nth_error_nil.
    + destruct fuel as [|fuel]; [simpl in Hf; lia|].
      cbn [take_every nth_error]. rewrite IH.
      * rewrite nth_error_skipn. f_equal; lia.
      * rewrite length_skipn. cbn [length] in *. lia.
Qed.

Lemma take_every_length (k : nat) :
  (0 < k)%nat ->
  forall (q fuel : nat) a,
    length a = (q * k)%nat -> (length a <= fuel)%nat ->
    length (take_every fuel k a) = q.
Proof.
  intros Hk. induction q as [|q IH]; intros fuel a Hl Hf.
  - destruct a; [|discriminate]. now destruct fuel.
  - destruct a as [|x a]; [simpl in Hl; lia|].
    destruct fuel as [|fuel]; [simpl in Hf; lia|].
    cbn [take_every length]. f_equal. apply IH.
    + rewrite length_skipn, Hl. simpl. lia.
    + rewrite length_skipn. cbn [length] in *. lia.
Qed.

Lemma take_every_one (fuel : nat) a :
  (length a <= fuel)%nat -> take_every fuel 1 a = a.
Proof.
  revert fuel. induction a as [|x a IH]; intros fuel Hf.
  - now destruct fuel.
  - destruct fuel as [|fuel]; [simpl in Hf; lia|].
    cbn [take_every skipn]. f_equal. apply IH. simpl in Hf. lia.
Qed.

End Slices.

Lemma np_setslice_length (a v a' : list Z) (i j : Z) :
  np_setslice a i j v = Return a' -> length a' = length a.
Proof.
  unfold np_setslice, slice_length.
  pose proof (slice_index_range (len a) i (len_nonneg a)) as Hi.
  pose proof (slice_index_range (len a) j (len_nonneg a)) as Hj.
  set (lo := slice_index (len a) i) in *.
  set (hi := slice_index (len a) j) in *.
  unfold len in Hi, Hj.
  destruct (Nat.eqb_spec (length v) (Z.to_nat (hi - lo))) as [E|_].
  - intros [= <-]. rewrite !length_app, length_firstn, length_skipn. lia.
  - destruct (Nat.eqb (length v) 1); [|discriminate].
    intros [= <-].
    rewrite !length_app, length_firstn, length_skipn, repeat_length. lia.
Qed.

Lemma np_setslice_raises (a v : list Z) (i j : Z) (e : exception) :
  np_setslice a i j v = Raise e -> e = ValueError.
Proof.
  unfold np_setslice.
  destruct (Nat.eqb _ _); [discriminate|].
  destruct (Nat.eqb _ _); [discriminate|].
  now intros [= <-].
Qed.

(** A mask written inside the array replaces exactly its window. *)
Lemma np_setslice_inside (a v : list Z) (i : Z) :
  0 <= i -> i + len v <= len a ->
  np_setslice a i (i + len v) v
  = Return (firstn (Z.to_nat i) a ++ v ++ skipn (Z.to_nat i + length v) a).
Proof.
  intros Hi Hj. unfold np_setslice, slice_length.
  pose proof (len_nonneg v).
  rewrite !slice_index_inside by lia.
  replace (Z.to_nat (i + len v - i)) with (length v) by (unfold len; lia).
  now rewrite Nat.eqb_refl.
Qed.

Lemma nth_error_splice (a v : list Z) (lo k : nat) :
  (lo + length v <= length a)%nat ->
  nth_error (firstn lo a ++ v ++ skipn (lo + length v) a) k
  = if (lo <=? k)%nat && (k <? lo + length v)%nat
    then nth_error v (k - lo)
    else nth_error a k.
Proof.
  intros Hle.
  assert (Hf : length (firstn lo a) = lo) by (rewrite length_firstn; lia).
  destruct (Nat.leb_spec lo k) as [H1|H1]; cbn [andb].
  - rewrite nth_error_app2 by lia. rewrite Hf.
    destruct (Nat.ltb_spec k (lo + length v)) as [H2|H2].
    + apply nth_error_app1. lia.
    + rewrite nth_error_app2 by lia. rewrite nth_error_skipn. f_equal. lia.
  - rewrite nth_error_app1 by lia. rewrite nth_error_firstn.
    destruct (Nat.ltb_spec k lo); [reflexivity|lia].
Qed.

(* ===================================================================== *)
(** ** The strain window extractor *)
(* ===================================================================== *)

Section StrainFacts.

Context {sample_t : Type}.

(** With a positive factor that divides the length of the slice, the
    strided slice has [length / factor] elements, element [k] being
    element [k * factor] of the slice. *)
Lemma py_stride_positive (raw : list sample_t) (step q : Z) :
  0 < step -> 0 <= q -> len raw = q * step ->
  exists out,
    py_stride raw step = Return out
    /\ len out = q
    /\ (forall k : nat, nth_error out k = nth_error raw (k * Z.to_nat step))
    /\ (step = 1 -> out = raw).
Proof.
  intros Hs Hq Hl. unfold py_stride.
  destruct (Z.eqb_spec step 0) as [->|_]; [lia|].
  destruct (Z.ltb_spec 0 step) as [_|]; [|lia].
  eexists. split; [reflexivity|]. repeat split.
  - assert (E : length raw = (Z.to_nat q * Z.to_nat step)%nat).
    { apply Nat2Z.inj. rewrite Nat2Z.inj_mul, !Z2Nat.id by lia. exact Hl. }
    unfold len.
    rewrite (take_every_length (Z.to_nat step) ltac:(lia) (Z.to_nat q)); lia.
  - intros k. apply take_every_nth; lia.
  - intros ->. apply take_every_one. lia.
Qed.

End StrainFacts.

(** C8. When the original rate is a positive multiple of the positive
    target rate and the strain array of each detector covers the index
    range [(gps_time - start_time - delta_t) * original_sampling_rate,
    (gps_time - start_time + delta_t) * original_sampling_rate), the
    function returns, for each detector, that raw slice decimated: element
    [k] of the result is element [k * (original / target)] of the slice,
    and the result has [2 * delta_t * target_sampling_rate] elements. With
    equal rates the result is the raw slice itself, of
    [2 * delta_t * original_sampling_rate] elements. *)
Theorem get_strain_decimates_raw_slice :
  forall (sample_t : Type)
         (hdf_file_paths : detector_id -> strain_file sample_t)
         (gps_time delta_t original_sampling_rate target_sampling_rate : Z),
    0 < target_sampling_rate ->
    0 < original_sampling_rate ->
    original_sampling_rate mod target_sampling_rate = 0 ->
    0 <= delta_t ->
    (forall detector,
        let hdf_file := hdf_file_paths detector in
        0 <= (gps_time - meta_GPSstart hdf_file - delta_t) * original_sampling_rate
        /\ (gps_time - meta_GPSstart hdf_file + delta_t) * original_sampling_rate
           <= len (strain_Strain hdf_file)) ->
    exists sample,
      get_strain_from_hdf_file hdf_file_paths gps_time delta_t
        original_sampling_rate target_sampling_rate = Return sample
      /\ forall detector,
          let hdf_file := hdf_file_paths detector in
          let start_idx :=
            (gps_time - meta_GPSstart hdf_file - delta_t) * original_sampling_rate in
          let end_idx :=
            (gps_time - meta_GPSstart hdf_file + delta_t) * original_sampling_rate in
          let raw :=
            firstn (Z.to_nat (end_idx - start_idx))
                   (skipn (Z.to_nat start_idx) (strain_Strain hdf_file)) in
          len (sample detector) = 2 * delta_t * target_sampling_rate
          /\ (forall k : nat,
                 nth_error (sample detector) k
                 = nth_error raw
                     (k * Z.to_nat (original_sampling_rate / target_sampling_rate)))
          /\ (original_sampling_rate = target_sampling_rate ->
              sample detector = raw
              /\ len (sample detector) = 2 * delta_t * original_sampling_rate).
Proof.
  intros sample_t paths gps dt orig target Ht Ho Hmod Hdt Hcover.
  set (factor := orig / target).
  assert (Hof : orig = factor * target).
  { unfold factor. pose proof (Z.div_mod orig target ltac:(lia)). lia. }
  assert (Hf : 0 < factor) by nia.
  assert (Hsel : forall d,
             exists out,
               select_strain (paths d) gps dt orig factor = Return out
               /\ len out = 2 * dt * target
               /\ (forall k : nat,
                      nth_error out k
                      = nth_error
                          (firstn (Z.to_nat ((gps - meta_GPSstart (paths d) + dt) * orig
                                             - (gps - meta_GPSstart (paths d) - dt) * orig))
                                  (skipn (Z.to_nat ((gps - meta_GPSstart (paths d) - dt) * orig))
                                         (strain_Strain (paths d))))
                          (k * Z.to_nat factor))
               /\ (factor = 1 ->
                   out = firstn (Z.to_nat ((gps - meta_GPSstart (paths d) + dt) * orig
                                           - (gps - meta_GPSstart (paths d) - dt) * orig))
                                (skipn (Z.to_nat ((gps - meta_GPSstart (paths d) - dt) * orig))
                                       (strain_Strain (paths d))))).
  { intros d. destruct (Hcover d) as [Hlo Hhi]. cbn zeta in Hlo, Hhi.
    unfold select_strain.
    rewrite <- py_slice_inside by nia.
    apply (py_stride_positive _ factor (2 * dt * target)); try nia.
    rewrite py_slice_inside_length by nia. nia. }
  destruct (Hsel H1) as (h1 & Eh & Lh & Nh & Ih).
  destruct (Hsel L1) as (l1 & El & Ll & Nl & Il).
  exists (fun d => match d with H1 => h1 | L1 => l1 end). split.
  - unfold get_strain_from_hdf_file.
    destruct (Z.eqb_spec target 0) as [->|_]; [lia|].
    cbn [bind]. rewrite Hmod. cbn [Z.eqb assert bind].
    fold factor. rewrite Eh, El. reflexivity.
  - assert (Hone : orig = target -> factor = 1) by nia.
    intros d. cbn zeta. destruct d.
    + split; [exact Lh|]. split; [exact Nh|].
      intros E. split; [now apply Ih, Hone | lia].
    + split; [exact Ll|]. split; [exact Nl|].
      intros E. split; [now apply Il, Hone | lia].
Qed.

(** The strain of [example_strain] around GPS time 12, one second to each
    side, from 4 Hz down to 2 Hz: four samples, every second one of the
    eight selected. *)
Lemma get_strain_decimates_raw_slice_witness :
  4 mod 2 = 0
  /\ exists sample,
      get_strain_from_hdf_file (fun _ => example_strain) 12 1 4 2 = Return sample
      /\ len (sample H1) = 2 * 1 * 2
      /\ len (sample L1) = 2 * 1 * 2.
Proof.
  split; [reflexivity|].
  destruct (get_strain_decimates_raw_slice Z (fun _ => example_strain) 12 1 4 2)
    as (sample & E & H).
  - lia.
  - lia.
  - reflexivity.
  - lia.
  - intros detector. vm_compute. split; discriminate.
  - exists sample. split; [exact E|].
    split; [apply (H H1) | apply (H L1)].
Defined.

(* ===================================================================== *)
(** ** The validity test *)
(* ===================================================================== *)

Import NoiseTimeline.

Lemma np_all_gt_Forall (a : list Z) (m : Z) :
  np_all_gt a m = true <-> Forall (fun x => m < x) a.
Proof.
  unfold np_all_gt. rewrite forallb_forall, Forall_forall.
  split; intros H x Hx; specialize (H x Hx); lia.
Qed.

Lemma select_environment_window (self : t) (s gps_time delta_t : Z) :
  gps_start_time (hdf_files self) = Return s ->
  select_environment self gps_time delta_t
  = Return {| h1_inj_mask := window s gps_time delta_t (h1_inj_mask (timeline self));
              l1_inj_mask := window s gps_time delta_t (l1_inj_mask (timeline self));
              h1_dq_mask := window s gps_time delta_t (h1_dq_mask (timeline self));
              l1_dq_mask := window s gps_time delta_t (l1_dq_mask (timeline self)) |}.
Proof.
  intros Hs. unfold select_environment, gps2idx. rewrite Hs. reflexivity.
Qed.

(** Once the mask checks are reached, [is_valid] is the data quality check
    followed by the injection check. *)
Lemma is_valid_mask_checks (events : list Z) (self : t)
      (gps_time delta_t : Z) (dq_bits inj_bits : list Z) :
  reaches_mask_checks events self gps_time delta_t dq_bits inj_bits ->
  is_valid events self gps_time delta_t dq_bits inj_bits
  = (environment <- select_environment self gps_time delta_t ;;
     if negb (dq_check environment dq_bits) then Return false
     else ones <- np_ones (2 * delta_t) ;;
          inj_check environment ones inj_bits).
Proof.
  intros (Hd & Hq & Hi & He & Hedge). unfold is_valid.
  apply Z.leb_le in Hd. rewrite Hd, Hq, Hi, He. cbn [assert bind].
  destruct (edge_check (hdf_files self) gps_time delta_t);
    [contradiction | reflexivity | reflexivity].
Qed.

(** C1, as the code has it. The data quality check compares magnitudes:
    it passes exactly when every element of the window of both detectors'
    quality arrays is strictly greater than [min_required], the sum of
    [2^k] over the required quality bits (written out below, not taken
    from the model). When it fails, [is_valid] returns [False]; when it
    passes, [is_valid] goes on to the injection check. A non-empty window
    whose elements all equal [min_required] fails; a window whose elements
    all equal [min_required + 1] passes. *)
Theorem quality_check_compares_magnitudes :
  forall (events : list Z) (self : t) (gps_time delta_t : Z)
         (dq_bits inj_bits : list Z) (s : Z),
    gps_start_time (hdf_files self) = Return s ->
    let min_required := fold_right Z.add 0 (map (fun k => 2 ^ k) dq_bits) in
    let h1 := window s gps_time delta_t (h1_dq_mask (timeline self)) in
    let l1 := window s gps_time delta_t (l1_dq_mask (timeline self)) in
    exists environment,
      select_environment self gps_time delta_t = Return environment
      /\ h1_dq_mask environment = h1
      /\ l1_dq_mask environment = l1
      /\ (dq_check environment dq_bits = true
          <-> Forall (fun x => min_required < x) h1
              /\ Forall (fun x => min_required < x) l1)
      /\ (reaches_mask_checks events self gps_time delta_t dq_bits inj_bits ->
          dq_check environment dq_bits = false ->
          is_valid events self gps_time delta_t dq_bits inj_bits = Return false)
      /\ (reaches_mask_checks events self gps_time delta_t dq_bits inj_bits ->
          dq_check environment dq_bits = true ->
          is_valid events self gps_time delta_t dq_bits inj_bits
          = (ones <- np_ones (2 * delta_t) ;;
             inj_check environment ones inj_bits))
      /\ (h1 ++ l1 <> [] ->
          Forall (fun x => x = min_required) h1 ->
          Forall (fun x => x = min_required) l1 ->
          dq_check environment dq_bits = false)
      /\ (Forall (fun x => x = min_required + 1) h1 ->
          Forall (fun x => x = min_required + 1) l1 ->
          dq_check environment dq_bits = true).
Proof.
  intros events self gps dt dq inj s Hs min_required h1 l1.
  eexists. split; [apply (select_environment_window _ _ _ _ Hs)|].
  cbn [h1_dq_mask l1_dq_mask]. fold h1 l1.
  assert (Hiff : forall env,
             dq_check env dq = true
             <-> Forall (fun x => min_required < x) (h1_dq_mask env)
                 /\ Forall (fun x => min_required < x) (l1_dq_mask env)).
  { intros env. unfold dq_check, sum_pow2. fold min_required.
    now rewrite andb_true_iff, !np_all_gt_Forall. }
  split; [reflexivity|]. split; [reflexivity|].
  split; [apply Hiff|].
  split; [|split; [|split]].
  - intros Hr Hf. rewrite (is_valid_mask_checks _ _ _ _ _ _ Hr).
    rewrite (select_environment_window _ _ _ _ Hs). cbn [bind].
    fold h1 l1. now rewrite Hf.
  - intros Hr Ht. rewrite (is_valid_mask_checks _ _ _ _ _ _ Hr).
    rewrite (select_environment_window _ _ _ _ Hs). cbn [bind].
    fold h1 l1. now rewrite Ht.
  - intros Hne H1 H2.
    apply not_true_is_false. intros Ht. apply Hiff in Ht.
    cbn [h1_dq_mask l1_dq_mask] in Ht. destruct Ht as [G1 G2].
    destruct h1 as [|x h1'].
    + destruct l1 as [|y l1']; [now apply Hne|].
      apply Forall_inv in H2, G2. lia.
    + apply Forall_inv in H1, G1. lia.
  - intros H1 H2. apply Hiff. cbn [h1_dq_mask l1_dq_mask].
    split; [revert H1 | revert H2]; apply Forall_impl; intros; lia.
Qed.

Lemma quality_check_compares_magnitudes_witness :
  gps_start_time (hdf_files one_segment) = Return 1000
  /\ exists environment,
      select_environment one_segment 1300 50 = Return environment
      /\ (dq_check environment [0; 1; 2; 3] = true
          <-> Forall (fun x => 15 < x)
                     (window 1000 1300 50 (h1_dq_mask (timeline one_segment)))
              /\ Forall (fun x => 15 < x)
                        (window 1000 1300 50 (l1_dq_mask (timeline one_segment)))).
Proof.
  split; [reflexivity|].
  pose proof (quality_check_compares_magnitudes
                [] one_segment 1300 50 [0; 1; 2; 3] [0; 1; 2; 4] 1000 eq_refl) as H.
  cbv zeta in H. destruct H as (environment & E & _ & _ & Hiff & _).
  exists environment. split; [exact E | exact Hiff].
Defined.

(** C1, as stated, fails for an empty window: with a half-window of 0
    every element of the windows equals [min_required] = 15, there being
    none, and yet the check passes and [is_valid] returns [True]. *)
Lemma empty_window_passes_quality_check_counterexample :
  exists environment,
    select_environment one_segment 1300 0 = Return environment
    /\ h1_dq_mask environment
       = window 1000 1300 0 (h1_dq_mask (timeline one_segment))
    /\ l1_dq_mask environment
       = window 1000 1300 0 (l1_dq_mask (timeline one_segment))
    /\ Forall (fun x => x = 2 ^ 0 + 2 ^ 1 + 2 ^ 2 + 2 ^ 3) (h1_dq_mask environment)
    /\ Forall (fun x => x = 2 ^ 0 + 2 ^ 1 + 2 ^ 2 + 2 ^ 3) (l1_dq_mask environment)
    /\ dq_check environment [0; 1; 2; 3] = true
    /\ is_valid [] one_segment 1300 0 [0; 1; 2; 3] [0; 1; 2; 4] = Return true.
Proof.
  eexists. split; [reflexivity|].
  split; [reflexivity|]. split; [reflexivity|].
  split; [constructor|]. split; [constructor|].
  split; vm_compute; reflexivity.
Qed.

(** *** The check of the distance to the edges of the file *)

Lemma edge_check_first (pre post : list hdf_file) (f : hdf_file)
      (gps_time delta_t : Z) :
  Forall (fun g => ~ strictly_contains g gps_time) pre ->
  strictly_contains f gps_time ->
  edge_check (pre ++ f :: post) gps_time delta_t
  = if (start_time f + delta_t <? gps_time)
       && (gps_time <? start_time f + duration f - delta_t)
    then FarFromEdge else TooCloseToEdge.
Proof.
  intros Hpre Hf. induction Hpre as [|g pre Hg _ IH]; cbn [app edge_check].
  - destruct Hf as [H1 H2].
    apply Z.ltb_lt in H1, H2. rewrite H1, H2. cbn [andb].
    now destruct (_ && _).
  - unfold strictly_contains in Hg.
    destruct (Z.ltb_spec (start_time g) gps_time);
      destruct (Z.ltb_spec gps_time (start_time g + duration g));
      cbn [andb]; try exact IH.
    exfalso. apply Hg. lia.
Qed.

Lemma edge_check_no_file (l : list hdf_file) (gps_time delta_t : Z) :
  Forall (fun g => ~ strictly_contains g gps_time) l ->
  edge_check l gps_time delta_t = NoContainingFile.
Proof.
  induction 1 as [|g l Hg _ IH]; cbn [edge_check]; [reflexivity|].
  unfold strictly_contains in Hg.
  destruct (Z.ltb_spec (start_time g) gps_time);
    destruct (Z.ltb_spec gps_time (start_time g + duration g));
    cbn [andb]; try exact IH.
  exfalso. apply Hg. lia.
Qed.

(** C3, as the code has it. For the first entry [S, S+D) of the catalog
    whose open interval contains the time, and half-window [W]: a time
    with [gps_time <= S + W] or [S + D - W <= gps_time] fails the edge
    check, and [is_valid] returns [False] whatever the masks hold; a time
    in the open interval (S + W, S + D - W) passes the edge check. The
    bounds [S + W] and [S + D - W] themselves fail. *)
Theorem edge_check_strict_margins :
  forall (events : list Z) (self : t) (gps_time W : Z)
         (dq_bits inj_bits : list Z)
         (pre post : list hdf_file) (f : hdf_file),
    hdf_files self = pre ++ f :: post ->
    Forall (fun g => ~ strictly_contains g gps_time) pre ->
    strictly_contains f gps_time ->
    let S := start_time f in
    let D := duration f in
    (gps_time <= S + W \/ S + D - W <= gps_time ->
     edge_check (hdf_files self) gps_time W = TooCloseToEdge
     /\ (0 <= W ->
         issubset_range dq_bits 7 = true ->
         issubset_range inj_bits 5 = true ->
         is_valid events self gps_time W dq_bits inj_bits = Return false))
    /\ (S + W < gps_time < S + D - W ->
        edge_check (hdf_files self) gps_time W = FarFromEdge).
Proof.
  intros events self gps W dq inj pre post f Hfiles Hpre Hf S D.
  pose proof (edge_check_first pre post f gps W Hpre Hf) as E.
  rewrite <- Hfiles in E. fold S D in E. split.
  - intros Hclose.
    assert (Hedge : edge_check (hdf_files self) gps W = TooCloseToEdge).
    { rewrite E.
      destruct (Z.ltb_spec (S + W) gps);
        destruct (Z.ltb_spec gps (S + D - W)); cbn [andb]; try reflexivity.
      lia. }
    split; [exact Hedge|].
    intros HW Hq Hi. unfold is_valid.
    apply Z.leb_le in HW. rewrite HW, Hq, Hi, Hedge. cbn [assert bind].
    now destruct (existsb _ _).
  - intros [H1 H2]. rewrite E.
    apply Z.ltb_lt in H1, H2. now rewrite H1, H2.
Qed.

Lemma edge_check_strict_margins_witness :
  strictly_contains (example_entry 1000 500 "H-1000.hdf" "H1") 1020
  /\ edge_check (hdf_files one_segment) 1020 50 = TooCloseToEdge
  /\ is_valid [] one_segment 1020 50 [0; 1; 2; 3] [0; 1; 2; 4] = Return false.
Proof.
  assert (Hc : strictly_contains (example_entry 1000 500 "H-1000.hdf" "H1") 1020)
    by (unfold strictly_contains; cbn; lia).
  split; [exact Hc|].
  pose proof (edge_check_strict_margins
                [] one_segment 1020 50 [0; 1; 2; 3] [0; 1; 2; 4]
                [] [example_entry 1000 500 "L-1000.hdf" "L1"]
                (example_entry 1000 500 "H-1000.hdf" "H1")
                eq_refl (Forall_nil _) Hc) as H.
  cbv zeta in H. destruct H as [Hfail _].
  destruct Hfail as [He Hv]; [cbn; lia|].
  split; [exact He|]. apply Hv; [lia | reflexivity | reflexivity].
Defined.

(** C3, as stated, fails at the bounds of the closed interval: the time
    1050 lies in [S + W, S + D - W] = [1050, 1450] of the recording
    [1000, 1500), yet it fails the edge check. *)
Lemma edge_check_closed_interval_counterexample :
  let f := example_entry 1000 500 "H-1000.hdf" "H1" in
  In f (hdf_files one_segment)
  /\ strictly_contains f 1050
  /\ start_time f + 50 <= 1050 <= start_time f + duration f - 50
  /\ edge_check (hdf_files one_segment) 1050 50 = TooCloseToEdge
  /\ is_valid [] one_segment 1050 50 [0; 1; 2; 3] [0; 1; 2; 4] = Return false.
Proof.
  cbv zeta. split; [now left|].
  split; [unfold strictly_contains; cbn; lia|].
  split; [cbn; lia|].
  split; vm_compute; reflexivity.
Qed.

(** C4. On the boundary shared by two adjacent recordings no file
    strictly contains the time, so the loop over the files ends without a
    verdict and [is_valid] answers from the masks alone: it returns [True]
    at 1500, a time for which [get_file_paths_for_time] finds no file. *)
Theorem is_valid_accepts_file_boundary :
  __init__ two_segment_files = Return two_segments
  /\ Forall (fun f => ~ strictly_contains f 1500) (hdf_files two_segments)
  /\ edge_check (hdf_files two_segments) 1500 50 = NoContainingFile
  /\ is_valid [] two_segments 1500 50 [0; 1; 2; 3] [0; 1; 2; 4] = Return true
  /\ get_file_paths_for_time two_segments 1500 = None.
Proof.
  split; [vm_compute; reflexivity|].
  split.
  { repeat constructor; unfold strictly_contains; cbn; lia. }
  split; [vm_compute; reflexivity|].
  split; vm_compute; reflexivity.
Qed.

(** *** The injection check *)

Lemma bit_setb_spec (k x : Z) : bit_setb k x = true <-> bit_set k x.
Proof.
  unfold bit_setb, bit_set. rewrite negb_true_iff. apply Z.eqb_neq.
Qed.

Lemma window_inside_length (s gps_time delta_t : Z) (a : list Z) :
  0 <= delta_t ->
  0 <= gps_time - s - delta_t ->
  gps_time - s + delta_t <= len a ->
  length (window s gps_time delta_t a) = Z.to_nat (2 * delta_t).
Proof.
  intros Hd Hlo Hhi. unfold window.
  pose proof (py_slice_inside_length a (gps_time - s - delta_t)
                (gps_time - s + delta_t) Hlo ltac:(lia) Hhi) as H.
  unfold len in H. lia.
Qed.

Lemma np_ones_nonneg (n : Z) :
  0 <= n -> np_ones n = Return (repeat 1 (Z.to_nat n)).
Proof.
  intros H. unfold np_ones. destruct (Z.ltb_spec n 0); [lia | reflexivity].
Qed.

(** Against an array of ones shifted by [i], [&] keeps bit [i] of each
    element, when the lengths agree. *)
Lemma np_all_bitwise_and_ones (i : Z) :
  forall (a : list Z) (m : nat),
    length a = m ->
    np_bitwise_and a (np_left_shift (repeat 1 m) i)
    = Return (map (fun x => Z.land x (Z.shiftl 1 i)) a).
Proof.
  intros a m Hl. unfold np_bitwise_and, np_left_shift.
  rewrite length_map, repeat_length, Hl, Nat.eqb_refl. f_equal.
  subst m. induction a as [|x a IH]; [reflexivity|].
  cbn [length repeat map zip_land]. now rewrite IH.
Qed.

Lemma np_all_map_bit (i : Z) (a : list Z) :
  np_all (map (fun x => Z.land x (Z.shiftl 1 i)) a) = forallb (bit_setb i) a.
Proof.
  unfold np_all. induction a as [|x a IH]; [reflexivity|].
  cbn [map forallb]. now rewrite IH.
Qed.

(** With windows as long as the array of ones, the injection loop raises
    nothing and tests every required bit on every element. *)
Lemma inj_check_aligned (environment : timeline_t) (m : nat) (inj_bits : list Z) :
  length (h1_inj_mask environment) = m ->
  length (l1_inj_mask environment) = m ->
  inj_check environment (repeat 1 m) inj_bits
  = Return (forallb (fun k => forallb (bit_setb k) (h1_inj_mask environment)
                              && forallb (bit_setb k) (l1_inj_mask environment))
                    inj_bits).
Proof.
  intros Hh Hl. induction inj_bits as [|i rest IH]; [reflexivity|].
  cbn [inj_check forallb].
  rewrite (np_all_bitwise_and_ones i _ m Hh). cbn [bind].
  rewrite np_all_map_bit.
  destruct (forallb (bit_setb i) (h1_inj_mask environment)); [|reflexivity].
  cbn [negb andb].
  rewrite (np_all_bitwise_and_ones i _ m Hl). cbn [bind].
  rewrite np_all_map_bit.
  destruct (forallb (bit_setb i) (l1_inj_mask environment)); [|reflexivity].
  cbn [negb]. exact IH.
Qed.

Lemma forallb_bits_spec (h1 l1 inj_bits : list Z) :
  forallb (fun k => forallb (bit_setb k) h1 && forallb (bit_setb k) l1) inj_bits
  = true
  <-> forall k, In k inj_bits -> Forall (bit_set k) h1 /\ Forall (bit_set k) l1.
Proof.
  rewrite forallb_forall. split; intros H k Hk; specialize (H k Hk).
  - apply andb_true_iff in H. destruct H as [A B].
    rewrite forallb_forall in A, B. rewrite !Forall_forall.
    split; intros x Hx; apply bit_setb_spec; auto.
  - destruct H as [A B]. rewrite Forall_forall in A, B.
    apply andb_true_iff. rewrite !forallb_forall.
    split; intros x Hx; apply bit_setb_spec; auto.
Qed.

(** C6, as the code has it. For a window of [2 * delta_t] elements (as
    every window within the timeline is), the injection check passes
    exactly when, for every required bit [k] and for both detectors, every
    element of the window of the injection array has bit [k] set, and it
    raises nothing; so [is_valid], once its earlier checks have passed,
    returns [True] exactly then; and a single element with a required bit
    clear, on either detector, makes [is_valid] return [False]. *)
Theorem injection_check_requires_every_bit :
  forall (events : list Z) (self : t) (gps_time delta_t : Z)
         (dq_bits inj_bits : list Z) (s : Z),
    gps_start_time (hdf_files self) = Return s ->
    0 <= delta_t ->
    issubset_range dq_bits 7 = true ->
    issubset_range inj_bits 5 = true ->
    len (window s gps_time delta_t (h1_inj_mask (timeline self))) = 2 * delta_t ->
    len (window s gps_time delta_t (l1_inj_mask (timeline self))) = 2 * delta_t ->
    let h1 := window s gps_time delta_t (h1_inj_mask (timeline self)) in
    let l1 := window s gps_time delta_t (l1_inj_mask (timeline self)) in
    exists environment ones,
      select_environment self gps_time delta_t = Return environment
      /\ np_ones (2 * delta_t) = Return ones
      /\ h1_inj_mask environment = h1
      /\ l1_inj_mask environment = l1
      /\ (inj_check environment ones inj_bits = Return true
          <-> forall k, In k inj_bits ->
                        Forall (bit_set k) h1 /\ Forall (bit_set k) l1)
      /\ (inj_check environment ones inj_bits = Return true
          \/ inj_check environment ones inj_bits = Return false)
      /\ (reaches_mask_checks events self gps_time delta_t dq_bits inj_bits ->
          dq_check environment dq_bits = true ->
          (is_valid events self gps_time delta_t dq_bits inj_bits = Return true
           <-> forall k, In k inj_bits ->
                         Forall (bit_set k) h1 /\ Forall (bit_set k) l1))
      /\ ((exists k, In k inj_bits
                     /\ (Exists (fun x => ~ bit_set k x) h1
                         \/ Exists (fun x => ~ bit_set k x) l1)) ->
          is_valid events self gps_time delta_t dq_bits inj_bits = Return false).
Proof.
  intros events self gps dt dq inj s Hs Hd Hq Hi Hh Hl h1 l1.
  eexists. exists (repeat 1 (Z.to_nat (2 * dt))).
  split; [apply (select_environment_window _ _ _ _ Hs)|].
  split; [apply np_ones_nonneg; lia|].
  cbn [h1_inj_mask l1_inj_mask]. fold h1 l1.
  split; [reflexivity|]. split; [reflexivity|].
  set (environment := {| h1_inj_mask := h1; l1_inj_mask := l1;
                         h1_dq_mask := _; l1_dq_mask := _ |}).
  assert (E : inj_check environment (repeat 1 (Z.to_nat (2 * dt))) inj
              = Return (forallb (fun k => forallb (bit_setb k) h1
                                          && forallb (bit_setb k) l1) inj)).
  { apply (inj_check_aligned environment); cbn [h1_inj_mask l1_inj_mask environment];
      unfold len in Hh, Hl; fold h1 in Hh; fold l1 in Hl; lia. }
  assert (Hiff : inj_check environment (repeat 1 (Z.to_nat (2 * dt))) inj
                 = Return true
                 <-> forall k, In k inj ->
                               Forall (bit_set k) h1 /\ Forall (bit_set k) l1).
  { rewrite E, <- forallb_bits_spec.
    split; [now intros [= ->] | now intros ->]. }
  split; [exact Hiff|].
  split; [rewrite E; destruct (forallb _ inj); auto|].
  split.
  { intros Hr Hdq. rewrite (is_valid_mask_checks _ _ _ _ _ _ Hr).
    rewrite (select_environment_window _ _ _ _ Hs). cbn [bind].
    fold h1 l1. fold environment. rewrite Hdq. cbn [negb].
    rewrite np_ones_nonneg by lia. cbn [bind]. exact Hiff. }
  intros (k & Hk & Hclear).
  assert (Hno : inj_check environment (repeat 1 (Z.to_nat (2 * dt))) inj
                = Return false).
  { rewrite E. f_equal. apply not_true_is_false. intros Ht.
    assert (Hall := proj1 (forallb_bits_spec h1 l1 inj) Ht k Hk).
    destruct Hall as [A B]. rewrite Forall_forall in A, B.
    destruct Hclear as [Hx|Hx]; apply Exists_exists in Hx;
      destruct Hx as (x & Hin & Hn); apply Hn; auto. }
  unfold is_valid. apply Z.leb_le in Hd. rewrite Hd, Hq, Hi. cbn [assert bind].
  destruct (existsb _ events); [reflexivity|].
  destruct (edge_check (hdf_files self) gps dt); try reflexivity;
    rewrite (select_environment_window _ _ _ _ Hs); cbn [bind];
    fold h1 l1; fold environment;
    (destruct (dq_check environment dq); cbn [negb]; [|reflexivity]);
    rewrite np_ones_nonneg by lia; cbn [bind]; exact Hno.
Qed.

(** In the run [1000, 1500), whose injection masks are all 31, the window
    of 1300 with half-window 50 has every required bit set: [is_valid]
    returns [True]. *)
Lemma injection_check_requires_every_bit_witness :
  gps_start_time (hdf_files one_segment) = Return 1000
  /\ reaches_mask_checks [] one_segment 1300 50 [0; 1; 2; 3] [0; 1; 2; 4]
  /\ (forall k, In k [0; 1; 2; 4] ->
         Forall (bit_set k)
                (window 1000 1300 50 (h1_inj_mask (timeline one_segment)))
         /\ Forall (bit_set k)
                   (window 1000 1300 50 (l1_inj_mask (timeline one_segment))))
  /\ is_valid [] one_segment 1300 50 [0; 1; 2; 3] [0; 1; 2; 4] = Return true.
Proof.
  assert (Hr : reaches_mask_checks [] one_segment 1300 50 [0; 1; 2; 3] [0; 1; 2; 4]).
  { unfold reaches_mask_checks. repeat split; try reflexivity; try lia.
    vm_compute. discriminate. }
  assert (Hbits : forall k, In k [0; 1; 2; 4] ->
            Forall (bit_set k)
                   (window 1000 1300 50 (h1_inj_mask (timeline one_segment)))
            /\ Forall (bit_set k)
                      (window 1000 1300 50 (l1_inj_mask (timeline one_segment)))).
  { apply forallb_bits_spec. vm_compute. reflexivity. }
  split; [reflexivity|]. split; [exact Hr|]. split; [exact Hbits|].
  pose proof (injection_check_requires_every_bit
                [] one_segment 1300 50 [0; 1; 2; 3] [0; 1; 2; 4] 1000) as H.
  cbv zeta in H.
  destruct H as (environment & ones & E & _ & _ & _ & _ & _ & Hvalid & _).
  - reflexivity.
  - lia.
  - reflexivity.
  - reflexivity.
  - vm_compute. reflexivity.
  - vm_compute. reflexivity.
  - apply Hvalid; [exact Hr | | exact Hbits].
    vm_compute in E. injection E as <-. vm_compute. reflexivity.
Defined.

(** C6, as stated, fails for a window that the end of the timeline clips:
    40 seconds after the end of the run [1000, 1500) the window with
    half-window 50 keeps the ten slots 490..499, every one of them has
    every required bit set on both detectors, the checks before the
    injection check pass, and yet the check does not pass: [is_valid]
    raises [ValueError]. *)
Lemma clipped_window_raises_counterexample :
  reaches_mask_checks [] one_segment 1540 50 [0; 1; 2; 3] [0; 1; 2; 4]
  /\ length (window 1000 1540 50 (h1_inj_mask (timeline one_segment))) = 10%nat
  /\ (forall k, In k [0; 1; 2; 4] ->
         Forall (bit_set k)
                (window 1000 1540 50 (h1_inj_mask (timeline one_segment)))
         /\ Forall (bit_set k)
                   (window 1000 1540 50 (l1_inj_mask (timeline one_segment))))
  /\ Forall (fun x => 2 ^ 0 + 2 ^ 1 + 2 ^ 2 + 2 ^ 3 < x)
            (window 1000 1540 50 (h1_dq_mask (timeline one_segment)))
  /\ Forall (fun x => 2 ^ 0 + 2 ^ 1 + 2 ^ 2 + 2 ^ 3 < x)
            (window 1000 1540 50 (l1_dq_mask (timeline one_segment)))
  /\ is_valid [] one_segment 1540 50 [0; 1; 2; 3] [0; 1; 2; 4] = Raise ValueError.
Proof.
  split.
  { unfold reaches_mask_checks. repeat split; try reflexivity; try lia.
    vm_compute. discriminate. }
  split; [vm_compute; reflexivity|].
  split; [apply forallb_bits_spec; vm_compute; reflexivity|].
  split; [apply np_all_gt_Forall; vm_compute; reflexivity|].
  split; [apply np_all_gt_Forall; vm_compute; reflexivity|].
  vm_compute. reflexivity.
Qed.

(** *** Windows that leave the timeline *)

Lemma np_bitwise_and_mismatch (x y : list Z) :
  length x <> length y -> length x <> 1%nat -> length y <> 1%nat ->
  np_bitwise_and x y = Raise ValueError.
Proof.
  intros H1 H2 H3. unfold np_bitwise_and.
  destruct (Nat.eqb_spec (length x) (length y)); [contradiction|].
  destruct (Nat.eqb_spec (length x) 1); [contradiction|].
  destruct (Nat.eqb_spec (length y) 1); [contradiction|].
  reflexivity.
Qed.

Lemma slice_length_full (n lo W : Z) :
  0 <= n -> 0 < W ->
  Z.of_nat (slice_length n lo (lo + 2 * W)) = 2 * W
  <-> (0 <= lo /\ lo + 2 * W <= n) \/ (- n <= lo /\ lo + 2 * W < 0).
Proof.
  intros Hn HW. unfold slice_length, slice_index.
  destruct (Z.ltb_spec lo 0); destruct (Z.ltb_spec (lo + 2 * W) 0); lia.
Qed.

(** C9, as the code has it. [is_valid] does not check the window against
    the bounds of the timeline. For a half-window [W > 0], the selected
    slices have [2 * W] elements exactly when the index window lies within
    [0, n) or lies entirely below 0 without reaching below [-n] (it then
    selects [2 * W] slots counted from the end of the array). The data
    quality check passes on an empty slice. When the slices have neither
    [2 * W] elements nor exactly one, the data quality check passes and at
    least one injection bit is required, [is_valid] raises [ValueError]
    instead of returning a boolean. *)
Theorem window_is_not_bounds_checked :
  forall (events : list Z) (self : t) (gps_time W : Z)
         (dq_bits inj_bits : list Z) (s n : Z),
    gps_start_time (hdf_files self) = Return s ->
    (forall c, len (array_of c (timeline self)) = n) ->
    0 < W ->
    let lo := gps_time - s - W in
    let hi := gps_time - s + W in
    let L := slice_length n lo hi in
    exists environment,
      select_environment self gps_time W = Return environment
      /\ (forall c, length (array_of c environment) = L)
      /\ (Z.of_nat L = 2 * W
          <-> (0 <= lo /\ hi <= n) \/ (- n <= lo /\ hi < 0))
      /\ (L = 0%nat -> dq_check environment dq_bits = true)
      /\ (reaches_mask_checks events self gps_time W dq_bits inj_bits ->
          Z.of_nat L <> 2 * W ->
          L <> 1%nat ->
          dq_check environment dq_bits = true ->
          inj_bits <> [] ->
          is_valid events self gps_time W dq_bits inj_bits = Raise ValueError).
Proof.
  intros events self gps W dq inj s n Hs Hlen HW lo hi L.
  eexists. split; [apply (select_environment_window _ _ _ _ Hs)|].
  set (environment := {| h1_inj_mask := _ |}).
  assert (HL : forall c, length (array_of c environment) = L).
  { intros c. unfold L. rewrite <- (Hlen c).
    destruct c; cbn [array_of environment h1_inj_mask l1_inj_mask
                       h1_dq_mask l1_dq_mask];
      unfold window; apply py_slice_length. }
  split; [exact HL|].
  split.
  { unfold L, hi. replace (gps - s + W) with (lo + 2 * W) by (unfold lo; lia).
    replace (gps - s + W) with (lo + 2 * W) by (unfold lo; lia).
    apply slice_length_full; [|exact HW].
    rewrite <- (Hlen H1_inj). apply len_nonneg. }
  split.
  { intros H0. unfold dq_check.
    pose proof (HL H1_dq) as A. pose proof (HL L1_dq) as B.
    cbn [array_of] in A, B. rewrite H0 in A, B.
    apply length_zero_iff_nil in A, B. now rewrite A, B. }
  intros Hr Hne2 Hne1 Hdq Hinj.
  rewrite (is_valid_mask_checks _ _ _ _ _ _ Hr).
  rewrite (select_environment_window _ _ _ _ Hs). cbn [bind].
  fold environment. rewrite Hdq. cbn [negb].
  rewrite np_ones_nonneg by lia. cbn [bind].
  destruct inj as [|i rest]; [contradiction|].
  cbn [inj_check].
  rewrite np_bitwise_and_mismatch; [reflexivity| | |].
  - pose proof (HL H1_inj) as A. cbn [array_of] in A.
    unfold np_left_shift. rewrite A, length_map, repeat_length. lia.
  - pose proof (HL H1_inj) as A. cbn [array_of] in A. now rewrite A.
  - unfold np_left_shift. rewrite length_map, repeat_length. lia.
Qed.

(** Sixty seconds after the end of the run [1000, 1500) the window is
    empty and [is_valid] raises. *)
Lemma window_is_not_bounds_checked_witness :
  gps_start_time (hdf_files one_segment) = Return 1000
  /\ reaches_mask_checks [] one_segment 1600 50 [0; 1; 2; 3] [0; 1; 2; 4]
  /\ slice_length 500 (1600 - 1000 - 50) (1600 - 1000 + 50) = 0%nat
  /\ is_valid [] one_segment 1600 50 [0; 1; 2; 3] [0; 1; 2; 4] = Raise ValueError.
Proof.
  assert (Hr : reaches_mask_checks [] one_segment 1600 50 [0; 1; 2; 3] [0; 1; 2; 4]).
  { unfold reaches_mask_checks. repeat split; try reflexivity; try lia.
    vm_compute. discriminate. }
  split; [reflexivity|]. split; [exact Hr|]. split; [reflexivity|].
  pose proof (window_is_not_bounds_checked
                [] one_segment 1600 50 [0; 1; 2; 3] [0; 1; 2; 4] 1000 500
                eq_refl) as H.
  cbv zeta in H.
  destruct H as (environment & _ & _ & _ & Hdq & Hraise).
  - intros c. destruct c; reflexivity.
  - lia.
  - apply Hraise.
    + exact Hr.
    + vm_compute. discriminate.
    + vm_compute. discriminate.
    + apply Hdq. reflexivity.
    + discriminate.
Defined.

(** C9, as stated, fails for a window that lies entirely before the run:
    100 seconds before the start of the run [1000, 1500) the index window
    [-150, -50) is not within [0, 500), yet the slices have [2 * W] = 100
    elements (slots 350..449) and [is_valid] returns a boolean, with four
    injection bits required. It also fails for a slice of one element,
    which numpy broadcasts: at 1549 the slice is slot 499 alone and
    [is_valid] returns a boolean. *)
Lemma window_before_run_counterexample :
  gps_start_time (hdf_files one_segment) = Return 1000
  /\ len (h1_inj_mask (timeline one_segment)) = 500
  /\ ~ (0 <= 900 - 1000 - 50 /\ 900 - 1000 + 50 <= 500)
  /\ length (window 1000 900 50 (h1_inj_mask (timeline one_segment))) = 100%nat
  /\ length (window 1000 900 50 (h1_dq_mask (timeline one_segment))) = 100%nat
  /\ is_valid [] one_segment 900 50 [0; 1; 2; 3] [0; 1; 2; 4] = Return true
  /\ ~ (0 <= 1549 - 1000 - 50 /\ 1549 - 1000 + 50 <= 500)
  /\ length (window 1000 1549 50 (h1_inj_mask (timeline one_segment))) = 1%nat
  /\ is_valid [] one_segment 1549 50 [0; 1; 2; 3] [0; 1; 2; 4] = Return true.
Proof.
  split; [reflexivity|]. split; [reflexivity|].
  split; [lia|]. split; [vm_compute; reflexivity|].
  split; [vm_compute; reflexivity|]. split; [vm_compute; reflexivity|].
  split; [lia|]. split; vm_compute; reflexivity.
Qed.

(* ===================================================================== *)
(** ** The sampler *)
(* ===================================================================== *)

Section Sampler.

Variable events : list Z.
Variable rng : Type.
Variable randint : rng -> Z -> Z -> Z * rng.

Lemma rng_state_shift (low high : Z) (g : rng) (k : nat) :
  rng_state randint low high g (S k)
  = rng_state randint low high (snd (randint g low high)) k.
Proof.
  induction k as [|k IH]; [reflexivity|].
  cbn [rng_state] in *. now rewrite IH.
Qed.

Lemma draw_shift (low high : Z) (g : rng) (k : nat) :
  draw randint low high g (S k)
  = draw randint low high (snd (randint g low high)) k.
Proof. unfold draw. now rewrite rng_state_shift. Qed.

(** One turn of the loop, when the bounds exist and are in order. *)
Lemma sample_turn (fuel : nat) (self : t) (g : rng) (delta_t : Z)
      (dq_bits inj_bits : list Z) (s e : Z) :
  gps_start_time (hdf_files self) = Return s ->
  gps_end_time (hdf_files self) = Return e ->
  s + delta_t < e - delta_t ->
  sample events rng randint (S fuel) self g delta_t dq_bits inj_bits
  = match is_valid events self (fst (randint g (s + delta_t) (e - delta_t)))
                   delta_t dq_bits inj_bits with
    | Raise x => Some (Raise x)
    | Return true =>
        Some (Return (fst (randint g (s + delta_t) (e - delta_t)),
                      snd (randint g (s + delta_t) (e - delta_t))))
    | Return false =>
        sample events rng randint fuel self
               (snd (randint g (s + delta_t) (e - delta_t)))
               delta_t dq_bits inj_bits
    end.
Proof.
  intros Hs He Hlt. cbn [sample]. rewrite Hs, He.
  destruct (Z.leb_spec (e - delta_t) (s + delta_t)); [lia|].
  now destruct (randint g (s + delta_t) (e - delta_t)).
Qed.

Lemma sample_bounds (fuel : nat) (self : t) (g : rng) (delta_t : Z)
      (dq_bits inj_bits : list Z) (r : Z * rng) :
  sample events rng randint fuel self g delta_t dq_bits inj_bits
  = Some (Return r) ->
  exists s e,
    gps_start_time (hdf_files self) = Return s
    /\ gps_end_time (hdf_files self) = Return e
    /\ s + delta_t < e - delta_t.
Proof.
  destruct fuel as [|fuel]; [discriminate|]. cbn [sample].
  destruct (gps_start_time (hdf_files self)) as [s|]; [|discriminate].
  destruct (gps_end_time (hdf_files self)) as [e|]; [|discriminate].
  destruct (Z.leb_spec (e - delta_t) (s + delta_t)); [discriminate|].
  intros _. now exists s, e.
Qed.

Lemma sample_sound (self : t) (delta_t : Z) (dq_bits inj_bits : list Z)
      (s e : Z) :
  gps_start_time (hdf_files self) = Return s ->
  gps_end_time (hdf_files self) = Return e ->
  s + delta_t < e - delta_t ->
  forall (fuel : nat) (g : rng) (gps_time : Z) (g' : rng),
    sample events rng randint fuel self g delta_t dq_bits inj_bits
    = Some (Return (gps_time, g')) ->
    exists k : nat,
      (k < fuel)%nat
      /\ gps_time = draw randint (s + delta_t) (e - delta_t) g k
      /\ g' = rng_state randint (s + delta_t) (e - delta_t) g (S k)
      /\ (forall j, (j < k)%nat ->
            is_valid events self
                     (draw randint (s + delta_t) (e - delta_t) g j)
                     delta_t dq_bits inj_bits = Return false)
      /\ is_valid events self gps_time delta_t dq_bits inj_bits = Return true.
Proof.
  intros Hs He Hlt. induction fuel as [|fuel IH]; intros g t g' H.
  - discriminate.
  - rewrite (sample_turn _ _ _ _ _ _ _ _ Hs He Hlt) in H.
    destruct (is_valid events self (fst (randint g (s + delta_t) (e - delta_t)))
                       delta_t dq_bits inj_bits) as [[|]|x] eqn:Ev.
    + injection H as <- <-. exists 0%nat.
      split; [lia|]. split; [reflexivity|]. split; [reflexivity|].
      split; [intros j Hj; lia | exact Ev].
    + destruct (IH _ _ _ H) as (k & Hk & Ht & Hg & Hbefore & Hv).
      exists (S k). split; [lia|].
      split; [now rewrite draw_shift|].
      split; [now rewrite rng_state_shift|].
      split; [|exact Hv].
      intros [|j] Hj; [exact Ev|].
      rewrite draw_shift. apply Hbefore. lia.
    + discriminate.
Qed.

Lemma sample_complete (self : t) (delta_t : Z) (dq_bits inj_bits : list Z)
      (s e : Z) :
  gps_start_time (hdf_files self) = Return s ->
  gps_end_time (hdf_files self) = Return e ->
  s + delta_t < e - delta_t ->
  forall (k : nat) (g : rng),
    (forall j, (j < k)%nat ->
       is_valid events self (draw randint (s + delta_t) (e - delta_t) g j)
                delta_t dq_bits inj_bits = Return false) ->
    is_valid events self (draw randint (s + delta_t) (e - delta_t) g k)
             delta_t dq_bits inj_bits = Return true ->
    forall fuel : nat,
      (k < fuel)%nat ->
      sample events rng randint fuel self g delta_t dq_bits inj_bits
      = Some (Return (draw randint (s + delta_t) (e - delta_t) g k,
                      rng_state randint (s + delta_t) (e - delta_t) g (S k))).
Proof.
  intros Hs He Hlt. induction k as [|k IH]; intros g Hbefore Hv fuel Hf.
  - destruct fuel as [|fuel]; [lia|].
    rewrite (sample_turn _ _ _ _ _ _ _ _ Hs He Hlt).
    unfold draw in Hv. cbn [rng_state] in Hv. now rewrite Hv.
  - destruct fuel as [|fuel]; [lia|].
    rewrite (sample_turn _ _ _ _ _ _ _ _ Hs He Hlt).
    pose proof (Hbefore 0%nat ltac:(lia)) as H0.
    unfold draw in H0. cbn [rng_state] in H0. rewrite H0.
    rewrite draw_shift, rng_state_shift. apply IH; [| |lia].
    + intros j Hj. rewrite <- draw_shift. apply Hbefore. lia.
    + now rewrite <- draw_shift.
Qed.

End Sampler.

(** C5. Every candidate of [sample] is a draw of [randint] with the bounds
    [gps_start_time + delta_t] (inclusive) and [gps_end_time - delta_t]
    (exclusive), the interval from which numpy's [randint] draws
    uniformly. A returned time is the first draw for which [is_valid],
    with the same arguments, returns [True] (all draws before it were
    rejected), and lies in that interval; and when some draw is valid and
    the draws before it are rejected, [sample] does return it. *)
Theorem sample_returns_first_valid_draw :
  forall (events : list Z) (rng : Type) (randint : rng -> Z -> Z -> Z * rng)
         (self : t) (delta_t : Z) (dq_bits inj_bits : list Z),
    (forall low high g, low < high -> low <= fst (randint g low high) < high) ->
    (forall (fuel : nat) (g : rng) (gps_time : Z) (g' : rng),
        sample events rng randint fuel self g delta_t dq_bits inj_bits
        = Some (Return (gps_time, g')) ->
        exists (s e : Z) (k : nat),
          gps_start_time (hdf_files self) = Return s
          /\ gps_end_time (hdf_files self) = Return e
          /\ (k < fuel)%nat
          /\ gps_time = draw randint (s + delta_t) (e - delta_t) g k
          /\ s + delta_t <= gps_time < e - delta_t
          /\ (forall j, (j < k)%nat ->
                is_valid events self
                         (draw randint (s + delta_t) (e - delta_t) g j)
                         delta_t dq_bits inj_bits = Return false)
          /\ is_valid events self gps_time delta_t dq_bits inj_bits = Return true)
    /\ (forall (s e : Z) (k : nat) (g : rng),
           gps_start_time (hdf_files self) = Return s ->
           gps_end_time (hdf_files self) = Return e ->
           s + delta_t < e - delta_t ->
           (forall j, (j < k)%nat ->
              is_valid events self
                       (draw randint (s + delta_t) (e - delta_t) g j)
                       delta_t dq_bits inj_bits = Return false) ->
           is_valid events self (draw randint (s + delta_t) (e - delta_t) g k)
                    delta_t dq_bits inj_bits = Return true ->
           forall fuel : nat,
             (k < fuel)%nat ->
             exists g',
               sample events rng randint fuel self g delta_t dq_bits inj_bits
               = Some (Return (draw randint (s + delta_t) (e - delta_t) g k, g'))).
Proof.
  intros events rng randint self dt dq inj Hrange. split.
  - intros fuel g t g' H.
    destruct (sample_bounds _ _ _ _ _ _ _ _ _ _ H) as (s & e & Hs & He & Hlt).
    destruct (sample_sound events rng randint self dt dq inj s e Hs He Hlt
                           fuel g t g' H)
      as (k & Hk & Ht & _ & Hbefore & Hv).
    exists s, e, k. repeat split; try assumption.
    + rewrite Ht. unfold draw. apply Hrange. exact Hlt.
    + rewrite Ht. unfold draw. apply Hrange. exact Hlt.
  - intros s e k g Hs He Hlt Hbefore Hv fuel Hf.
    eexists. eapply sample_complete; eassumption.
Qed.

(** With the counting generator started at 0 and a half-window of 50 on
    the run [1000, 1500), the first draw 1050 is rejected (it is at the
    edge margin) and the second draw 1051 is returned. *)
Lemma sample_returns_first_valid_draw_witness :
  (forall low high g,
      low < high -> low <= fst (counting_randint g low high) < high)
  /\ sample [] Z counting_randint 2 one_segment 0 50 [0; 1; 2; 3] [0; 1; 2; 4]
     = Some (Return (1051, 2))
  /\ is_valid [] one_segment 1051 50 [0; 1; 2; 3] [0; 1; 2; 4] = Return true.
Proof.
  assert (Hrange : forall low high g,
             low < high -> low <= fst (counting_randint g low high) < high).
  { intros low high g H. cbn [counting_randint fst].
    pose proof (Z.mod_pos_bound g (high - low)). lia. }
  assert (Hs : sample [] Z counting_randint 2 one_segment 0 50
                      [0; 1; 2; 3] [0; 1; 2; 4]
               = Some (Return (1051, 2))) by (vm_compute; reflexivity).
  split; [exact Hrange|]. split; [exact Hs|].
  destruct (proj1 (sample_returns_first_valid_draw
                     [] Z counting_randint one_segment 50
                     [0; 1; 2; 3] [0; 1; 2; 4] Hrange)
                  2%nat 0 1051 2 Hs)
    as (s & e & k & _ & _ & _ & _ & _ & _ & Hv).
  exact Hv.
Defined.

(* ===================================================================== *)
(** ** Construction of the timeline *)
(* ===================================================================== *)

(** C7, as the code has it. With no HDF file the catalog is empty and the
    construction aborts: reading the end of the run indexes the empty
    list and raises [IndexError]; no object is returned. *)
Theorem empty_catalog_raises_index_error :
  _get_hdf_files [] = Return []
  /\ gps_end_time [] = Raise IndexError
  /\ _build_timeline [] = Raise IndexError
  /\ __init__ [] = Raise IndexError
  /\ forall self, __init__ [] <> Return self.
Proof.
  repeat split; try reflexivity. intros self. discriminate.
Qed.

(** C7, as stated, fails on the name of the condition: the exception that
    aborts the construction is not called [EmptyCatalogError]. *)
Lemma empty_catalog_error_name_counterexample :
  exists e,
    __init__ [] = Raise e
    /\ exception_name e <> "EmptyCatalogError"%string.
Proof.
  exists IndexError. split; [reflexivity | discriminate].
Qed.

(** *** The catalog is well formed and sorted *)

Lemma for_each_app {A S : Type} (body : S -> A -> result S)
      (l1 l2 : list A) (s : S) :
  for_each body (l1 ++ l2) s = (s' <- for_each body l1 s ;; for_each body l2 s').
Proof.
  revert s. induction l1 as [|x l1 IH]; intros s; cbn [app for_each bind].
  - reflexivity.
  - destruct (body s x); cbn [bind]; [apply IH | reflexivity].
Qed.

Lemma read_hdf_file_well_formed (acc acc' : list hdf_file) (f : hdf_content) :
  read_hdf_file acc f = Return acc' ->
  exists r, acc' = acc ++ [r] /\ well_formed r.
Proof.
  unfold read_hdf_file, assert.
  destruct (String.eqb (meta_Detector f) "H1" || String.eqb (meta_Detector f) "L1")
           eqn:Ed; [|discriminate].
  cbn [bind].
  destruct ((meta_Duration f =? len (quality_Injmask f))
            && (len (quality_Injmask f) =? len (quality_DQmask f)))
           eqn:El; [|discriminate].
  cbn [bind]. intros [= <-]. eexists. split; [reflexivity|].
  apply andb_true_iff in El. destruct El as [E1 E2].
  apply Z.eqb_eq in E1, E2.
  apply orb_true_iff in Ed.
  unfold well_formed. cbn [detector duration inj_mask dq_mask].
  split; [|split; assumption].
  destruct Ed as [E|E]; apply String.eqb_eq in E; auto.
Qed.

Lemma read_loop_well_formed (fs : list hdf_content) :
  forall acc l,
    for_each read_hdf_file fs acc = Return l ->
    Forall well_formed acc -> Forall well_formed l.
Proof.
  induction fs as [|f fs IH]; intros acc l H Hacc; cbn [for_each] in H.
  - now injection H as <-.
  - destruct (read_hdf_file acc f) as [acc'|] eqn:E; [|discriminate].
    cbn [bind] in H. apply (IH _ _ H).
    destruct (read_hdf_file_well_formed _ _ _ E) as (r & -> & Hr).
    apply Forall_app. split; [exact Hacc | now constructor].
Qed.

Lemma insert_by_start_time_In (x y : hdf_file) (l : list hdf_file) :
  In y (insert_by_start_time x l) <-> y = x \/ In y l.
Proof.
  induction l as [|z l IH]; cbn [insert_by_start_time].
  - cbn. intuition.
  - destruct (start_time x <=? start_time z); cbn [In] in *; intuition.
Qed.

Lemma sorted_by_start_time_In (y : hdf_file) (l : list hdf_file) :
  In y (sorted_by_start_time l) <-> In y l.
Proof.
  unfold sorted_by_start_time. induction l as [|x l IH]; cbn [fold_right].
  - reflexivity.
  - rewrite insert_by_start_time_In, IH. cbn. intuition.
Qed.

Lemma insert_by_start_time_sorted (x : hdf_file) (l : list hdf_file) :
  StronglySorted le_start l -> StronglySorted le_start (insert_by_start_time x l).
Proof.
  induction 1 as [|z l Hs IH Hz]; cbn [insert_by_start_time].
  - repeat constructor.
  - destruct (Z.leb_spec (start_time x) (start_time z)) as [Hle|Hgt].
    + constructor; [now constructor|].
      constructor; [exact Hle|].
      revert Hz. apply Forall_impl. unfold le_start. intros; lia.
    + constructor; [exact IH|].
      apply Forall_forall. intros y Hy.
      apply insert_by_start_time_In in Hy. destruct Hy as [->|Hy].
      * unfold le_start. lia.
      * rewrite Forall_forall in Hz. now apply Hz.
Qed.

Lemma sorted_by_start_time_sorted (l : list hdf_file) :
  StronglySorted le_start (sorted_by_start_time l).
Proof.
  unfold sorted_by_start_time. induction l as [|x l IH]; cbn [fold_right].
  - constructor.
  - now apply insert_by_start_time_sorted.
Qed.

(** What [_get_hdf_files] guarantees of the catalog. *)
Lemma get_hdf_files_catalog (files : list hdf_content) (catalog : list hdf_file) :
  _get_hdf_files files = Return catalog ->
  Forall well_formed catalog /\ StronglySorted le_start catalog.
Proof.
  unfold _get_hdf_files.
  destruct (for_each read_hdf_file files []) as [l|] eqn:E;
    cbn [bind]; [|discriminate].
  intros [= <-]. split.
  - apply Forall_forall. intros y Hy.
    apply (proj1 (sorted_by_start_time_In y l)) in Hy.
    pose proof (read_loop_well_formed _ _ _ E (Forall_nil _)) as Hl.
    rewrite Forall_forall in Hl. now apply Hl.
  - apply sorted_by_start_time_sorted.
Qed.

(** The first entry of a sorted catalog starts first, its last entry
    starts last. *)
Lemma sorted_first_least (catalog : list hdf_file) (a r : hdf_file) :
  StronglySorted le_start catalog ->
  py_first catalog = Return a -> In r catalog ->
  start_time a <= start_time r.
Proof.
  intros Hs Hf Hr. destruct catalog as [|x l]; [discriminate|].
  injection Hf as ->. apply StronglySorted_inv in Hs. destruct Hs as [_ Hall].
  destruct Hr as [<-|Hr]; [lia|].
  rewrite Forall_forall in Hall. now apply Hall.
Qed.

Lemma sorted_last_greatest (catalog : list hdf_file) (z r : hdf_file) :
  StronglySorted le_start catalog ->
  py_last catalog = Return z -> In r catalog ->
  start_time r <= start_time z.
Proof.
  unfold py_last. intros Hs. revert z r.
  induction Hs as [|a l Hs IH Ha]; intros z r Hz Hr; [contradiction|].
  cbn [rev] in Hz.
  destruct (rev l) as [|z' rest] eqn:El.
  - cbn in Hz. injection Hz as <-.
    assert (l = []) as -> by (now rewrite <- (rev_involutive l), El).
    destruct Hr as [<-|[]]. lia.
  - cbn in Hz. injection Hz as <-.
    assert (Hz' : In z' l).
    { apply in_rev. rewrite El. now left. }
    destruct Hr as [<-|Hr].
    + rewrite Forall_forall in Ha. now apply Ha.
    + now apply IH.
Qed.

Lemma py_last_In {A : Type} (l : list A) (z : A) :
  py_last l = Return z -> In z l.
Proof.
  unfold py_last. destruct (rev l) as [|x rest] eqn:E; [discriminate|].
  intros [= <-]. apply in_rev. rewrite E. now left.
Qed.

Lemma py_first_In {A : Type} (l : list A) (a : A) :
  py_first l = Return a -> In a l.
Proof. destruct l; [discriminate|]. intros [= <-]. now left. Qed.

(** *** The loop of [_build_timeline] *)

Lemma np_setslice_overrun (a v : list Z) (i : Z) :
  0 <= i <= len a -> len a < i + len v -> len v <> 1 ->
  np_setslice a i (i + len v) v = Raise ValueError.
Proof.
  intros Hi Hover Hone. unfold np_setslice, slice_length.
  rewrite (slice_index_inside (len a) i) by lia.
  rewrite (slice_index_past (len a) (i + len v)) by lia.
  unfold len in *.
  destruct (Nat.eqb_spec (length v) (Z.to_nat (Z.of_nat (length a) - i))); [lia|].
  destruct (Nat.eqb_spec (length v) 1); [lia | reflexivity].
Qed.

Lemma mask_of_length (c : channel) (f : hdf_file) :
  well_formed f -> len (mask_of c f) = duration f.
Proof. intros (_ & H1 & H2). destruct c; cbn [mask_of]; lia. Qed.

Section BuildLoop.

Variable catalog : list hdf_file.
Variable s : Z.
Hypothesis Hstart : gps_start_time catalog = Return s.

Lemma add_hdf_file_channel (tl tl' : timeline_t) (f : hdf_file) :
  add_hdf_file catalog tl f = Return tl' ->
  forall c,
    if writes c f
    then np_setslice (array_of c tl) (start_time f - s)
                     (start_time f - s + duration f) (mask_of c f)
         = Return (array_of c tl')
    else array_of c tl' = array_of c tl.
Proof.
  unfold add_hdf_file. rewrite Hstart. cbn [bind].
  destruct (String.eqb (detector f) "H1") eqn:Ed.
  - destruct (np_setslice (h1_inj_mask tl) _ _ _) as [a|] eqn:Ea;
      cbn [bind]; [|discriminate].
    destruct (np_setslice (h1_dq_mask tl) _ _ _) as [b|] eqn:Eb;
      cbn [bind]; [|discriminate].
    intros [= <-] c.
    destruct c; cbn [writes array_of mask_of h1_inj_mask l1_inj_mask
                       h1_dq_mask l1_dq_mask];
      rewrite Ed; cbn [negb]; auto.
  - destruct (np_setslice (l1_inj_mask tl) _ _ _) as [a|] eqn:Ea;
      cbn [bind]; [|discriminate].
    destruct (np_setslice (l1_dq_mask tl) _ _ _) as [b|] eqn:Eb;
      cbn [bind]; [|discriminate].
    intros [= <-] c.
    destruct c; cbn [writes array_of mask_of h1_inj_mask l1_inj_mask
                       h1_dq_mask l1_dq_mask];
      rewrite Ed; cbn [negb]; auto.
Qed.

Lemma add_hdf_file_raises (tl : timeline_t) (f : hdf_file) (e : exception) :
  add_hdf_file catalog tl f = Raise e -> e = ValueError.
Proof.
  unfold add_hdf_file. rewrite Hstart. cbn [bind].
  destruct (String.eqb (detector f) "H1").
  - destruct (np_setslice (h1_inj_mask tl) _ _ _) as [a|] eqn:Ea; cbn [bind].
    + destruct (np_setslice (h1_dq_mask tl) _ _ _) as [b|] eqn:Eb;
        cbn [bind]; [discriminate|].
      intros [= <-]. eapply np_setslice_raises; eassumption.
    + intros [= <-]. eapply np_setslice_raises; eassumption.
  - destruct (np_setslice (l1_inj_mask tl) _ _ _) as [a|] eqn:Ea; cbn [bind].
    + destruct (np_setslice (l1_dq_mask tl) _ _ _) as [b|] eqn:Eb;
        cbn [bind]; [discriminate|].
      intros [= <-]. eapply np_setslice_raises; eassumption.
    + intros [= <-]. eapply np_setslice_raises; eassumption.
Qed.

Lemma add_hdf_file_all_len (n : Z) (tl tl' : timeline_t) (f : hdf_file) :
  add_hdf_file catalog tl f = Return tl' -> all_len n tl -> all_len n tl'.
Proof.
  intros H Hn c. specialize (add_hdf_file_channel _ _ _ H c). intros Hc.
  rewrite <- (Hn c). destruct (writes c f).
  - apply np_setslice_length in Hc. unfold len. now rewrite Hc.
  - now rewrite Hc.
Qed.

(** An entry that runs past the end of the arrays, and does not last
    one second, makes the copy fail. *)
Lemma add_hdf_file_overrun (n : Z) (tl : timeline_t) (f : hdf_file) :
  all_len n tl -> well_formed f ->
  0 <= start_time f - s <= n ->
  n < start_time f - s + duration f ->
  duration f <> 1 ->
  add_hdf_file catalog tl f = Raise ValueError.
Proof.
  intros Hn Hwf Hlo Hover Hone.
  pose proof (mask_of_length H1_inj f Hwf) as Li.
  pose proof (mask_of_length L1_inj f Hwf) as Lj.
  cbn [mask_of] in Li, Lj.
  unfold add_hdf_file. rewrite Hstart. cbn [bind].
  destruct (String.eqb (detector f) "H1").
  - pose proof (Hn H1_inj) as L. cbn [array_of] in L.
    rewrite <- Li at 1. rewrite np_setslice_overrun; [reflexivity|lia|lia|lia].
  - pose proof (Hn L1_inj) as L. cbn [array_of] in L.
    rewrite <- Lj at 1. rewrite np_setslice_overrun; [reflexivity|lia|lia|lia].
Qed.

Lemma build_loop_overrun (n : Z) (recs : list hdf_file) :
  forall tl,
    all_len n tl ->
    Forall (fun r => well_formed r /\ 0 <= start_time r - s <= n) recs ->
    Exists (fun f => n < start_time f - s + duration f /\ duration f <> 1) recs ->
    for_each (add_hdf_file catalog) recs tl = Raise ValueError.
Proof.
  induction recs as [|r recs IH]; intros tl Hn Hall Hex.
  - inversion Hex.
  - apply Forall_cons_iff in Hall. destruct Hall as [[Hwf Hlo] Hall].
    cbn [for_each].
    destruct (add_hdf_file catalog tl r) as [tl1|e] eqn:E; cbn [bind].
    + apply Exists_cons in Hex. destruct Hex as [[Hover Hone]|Hex].
      * rewrite (add_hdf_file_overrun n tl r Hn Hwf Hlo Hover Hone) in E.
        discriminate.
      * apply IH; [|assumption|assumption].
        eapply add_hdf_file_all_len; eassumption.
    + f_equal. eapply add_hdf_file_raises; eassumption.
Qed.

(** An entry within the run replaces exactly its seconds. *)
Lemma add_hdf_file_inside (n : Z) (tl tl' : timeline_t) (f : hdf_file)
      (c : channel) (k : nat) :
  all_len n tl -> in_span s n f ->
  add_hdf_file catalog tl f = Return tl' ->
  nth_error (array_of c tl') k
  = if writes c f && (start_time f - s <=? Z.of_nat k)
       && (Z.of_nat k <? start_time f - s + duration f)
    then nth_error (mask_of c f) (k - Z.to_nat (start_time f - s))
    else nth_error (array_of c tl) k.
Proof.
  intros Hn (Hwf & Hlo & Hhi) H.
  specialize (add_hdf_file_channel _ _ _ H c). intros Hc.
  destruct (writes c f); cbn [andb]; [|now rewrite Hc].
  pose proof (mask_of_length c f Hwf) as Lm.
  pose proof (Hn c) as La.
  rewrite <- Lm in Hc at 1.
  rewrite np_setslice_inside in Hc by lia.
  injection Hc as <-.
  unfold len in *. rewrite nth_error_splice by lia.
  destruct (Nat.leb_spec (Z.to_nat (start_time f - s)) k);
    destruct (Z.leb_spec (start_time f - s) (Z.of_nat k)); try lia;
    cbn [andb]; [|reflexivity].
  destruct (Nat.ltb_spec k (Z.to_nat (start_time f - s) + length (mask_of c f)));
    destruct (Z.ltb_spec (Z.of_nat k) (start_time f - s + duration f));
    try lia; reflexivity.
Qed.

Lemma build_loop_unchanged (n : Z) (c : channel) (k : nat)
      (recs : list hdf_file) :
  forall tl tl',
    all_len n tl ->
    Forall (in_span s n) recs ->
    for_each (add_hdf_file catalog) recs tl = Return tl' ->
    (forall f, In f recs -> writes c f = true ->
               ~ covers f (s + Z.of_nat k)) ->
    nth_error (array_of c tl') k = nth_error (array_of c tl) k.
Proof.
  induction recs as [|r recs IH]; intros tl tl' Hn Hall H Hfree.
  - cbn in H. now injection H as <-.
  - apply Forall_cons_iff in Hall. destruct Hall as [Hr Hall].
    cbn [for_each] in H.
    destruct (add_hdf_file catalog tl r) as [tl1|] eqn:E; [|discriminate].
    cbn [bind] in H.
    rewrite (IH tl1 tl' (add_hdf_file_all_len _ _ _ _ E Hn) Hall H).
    + rewrite (add_hdf_file_inside n tl tl1 r c k Hn Hr E).
      destruct (writes c r) eqn:Ew; cbn [andb]; [|reflexivity].
      specialize (Hfree r (or_introl eq_refl) Ew). unfold covers in Hfree.
      destruct (Z.leb_spec (start_time r - s) (Z.of_nat k));
        destruct (Z.ltb_spec (Z.of_nat k) (start_time r - s + duration r));
        cbn [andb]; try reflexivity.
      exfalso. apply Hfree. lia.
    + intros f Hf. apply Hfree. now right.
Qed.

Lemma build_loop_written (n : Z) (c : channel)
      (pre post : list hdf_file) (f : hdf_file) (tl tl' : timeline_t) (t : Z) :
  all_len n tl ->
  Forall (in_span s n) (pre ++ f :: post) ->
  for_each (add_hdf_file catalog) (pre ++ f :: post) tl = Return tl' ->
  writes c f = true ->
  (forall g, In g post -> writes c g = true -> ~ covers g t) ->
  covers f t ->
  nth_error (array_of c tl') (Z.to_nat (t - s))
  = nth_error (mask_of c f) (Z.to_nat (t - start_time f)).
Proof.
  intros Hn Hall H Hw Hfree Hcov.
  apply Forall_app in Hall. destruct Hall as [Hpre Hrest].
  apply Forall_cons_iff in Hrest. destruct Hrest as [Hf Hpost].
  rewrite for_each_app in H.
  destruct (for_each (add_hdf_file catalog) pre tl) as [tl1|] eqn:E1;
    [|discriminate].
  cbn [bind for_each] in H.
  destruct (add_hdf_file catalog tl1 f) as [tl2|] eqn:E2; [|discriminate].
  cbn [bind] in H.
  assert (Hn1 : all_len n tl1).
  { clear - E1 Hn Hstart. revert tl tl1 E1 Hn.
    induction pre as [|r pre IH]; intros tl tl1 E1 Hn.
    - cbn in E1. now injection E1 as <-.
    - cbn [for_each] in E1.
      destruct (add_hdf_file catalog tl r) as [tl0|] eqn:E0; [|discriminate].
      cbn [bind] in E1. apply (IH _ _ E1).
      eapply add_hdf_file_all_len; eassumption. }
  destruct Hf as (Hwf & Hlo & Hhi). unfold covers in Hcov.
  rewrite (build_loop_unchanged n c (Z.to_nat (t - s)) post tl2 tl'
             (add_hdf_file_all_len _ _ _ _ E2 Hn1) Hpost H).
  - rewrite (add_hdf_file_inside n tl1 tl2 f c _ Hn1
               (conj Hwf (conj Hlo Hhi)) E2).
    rewrite Hw. cbn [andb].
    destruct (Z.leb_spec (start_time f - s) (Z.of_nat (Z.to_nat (t - s))));
      [|lia].
    destruct (Z.ltb_spec (Z.of_nat (Z.to_nat (t - s)))
                         (start_time f - s + duration f)); [|lia].
    cbn [andb]. f_equal. lia.
  - intros g Hg Hwg. replace (s + Z.of_nat (Z.to_nat (t - s))) with t by lia.
    now apply Hfree.
Qed.

End BuildLoop.

(** *** The whole construction *)

Lemma zeros_all_len (n : Z) : 0 <= n -> all_len n (zeros n).
Proof.
  intros Hn c. unfold len.
  destruct c; cbn [array_of zeros h1_inj_mask l1_inj_mask h1_dq_mask l1_dq_mask];
    rewrite repeat_length; lia.
Qed.

Lemma build_timeline_loop (catalog : list hdf_file) (s e : Z) :
  gps_start_time catalog = Return s ->
  gps_end_time catalog = Return e ->
  0 <= e - s ->
  _build_timeline catalog
  = for_each (add_hdf_file catalog) catalog (zeros (e - s)).
Proof.
  intros Hs He Hn. unfold _build_timeline. rewrite He, Hs. cbn [bind].
  unfold np_zeros. destruct (Z.ltb_spec (e - s) 0); [lia|]. reflexivity.
Qed.

Lemma gps_end_time_last (catalog : list hdf_file) (e : Z) :
  gps_end_time catalog = Return e ->
  exists last, py_last catalog = Return last
               /\ e = start_time last + duration last.
Proof.
  unfold gps_end_time. destruct (py_last catalog) as [last|]; [|discriminate].
  cbn [bind]. intros [= <-]. now exists last.
Qed.

(** In a well-formed, sorted, non-empty catalog every entry starts within
    the run, whose length is not negative. *)
Lemma catalog_starts_in_run (catalog : list hdf_file) (s e : Z) :
  Forall well_formed catalog ->
  StronglySorted le_start catalog ->
  gps_start_time catalog = Return s ->
  gps_end_time catalog = Return e ->
  0 <= e - s
  /\ Forall (fun r => well_formed r /\ 0 <= start_time r - s <= e - s) catalog.
Proof.
  intros Hwf Hsorted Hs He.
  destruct (gps_end_time_last _ _ He) as (last & Hlast & ->).
  unfold gps_start_time in Hs.
  destruct (py_first catalog) as [first|] eqn:Hfirst; [|discriminate].
  cbn [bind] in Hs. injection Hs as <-.
  rewrite Forall_forall in Hwf.
  pose proof (py_last_In _ _ Hlast) as Hin.
  assert (Hd : 0 <= duration last).
  { destruct (Hwf last Hin) as (_ & -> & _). apply len_nonneg. }
  pose proof (sorted_first_least _ _ _ Hsorted Hfirst Hin) as Hfl.
  split; [lia|].
  apply Forall_forall. intros r Hr. split; [now apply Hwf|].
  pose proof (sorted_first_least _ _ _ Hsorted Hfirst Hr).
  pose proof (sorted_last_greatest _ _ _ Hsorted Hlast Hr).
  lia.
Qed.

(** C10, as the code has it. The end of the run is the end of the last
    entry of the catalog, the one with the greatest start time. When some
    entry ends after it and does not last exactly one second, the slice
    that receives its mask is clipped to the length of the array, the copy
    raises [ValueError] and no timeline is built. *)
Theorem overlong_record_aborts_construction :
  forall (files : list hdf_content) (hdf_files : list hdf_file)
         (run_end : Z) (f : hdf_file),
    _get_hdf_files files = Return hdf_files ->
    gps_end_time hdf_files = Return run_end ->
    In f hdf_files ->
    run_end < start_time f + duration f ->
    duration f <> 1 ->
    (exists last,
        py_last hdf_files = Return last
        /\ run_end = start_time last + duration last
        /\ forall r, In r hdf_files -> start_time r <= start_time last)
    /\ _build_timeline hdf_files = Raise ValueError
    /\ __init__ files = Raise ValueError.
Proof.
  intros files catalog e f Hget He Hf Hover Hone.
  destruct (get_hdf_files_catalog _ _ Hget) as [Hwf Hsorted].
  destruct (gps_end_time_last _ _ He) as (last & Hlast & Hee).
  assert (Hs : exists s, gps_start_time catalog = Return s).
  { unfold gps_start_time. destruct catalog as [|x l]; [contradiction|].
    now eexists. }
  destruct Hs as [s Hs].
  destruct (catalog_starts_in_run _ _ _ Hwf Hsorted Hs He) as [Hn Hall].
  assert (Hbuild : _build_timeline catalog = Raise ValueError).
  { rewrite (build_timeline_loop _ _ _ Hs He Hn).
    apply (build_loop_overrun catalog s Hs (e - s)).
    - now apply zeros_all_len.
    - exact Hall.
    - apply Exists_exists. exists f. split; [exact Hf|]. split; [lia|exact Hone]. }
  split.
  - exists last. split; [exact Hlast|]. split; [exact Hee|].
    intros r Hr. eapply sorted_last_greatest; eassumption.
  - split; [exact Hbuild|].
    unfold __init__. rewrite Hget. cbn [bind]. now rewrite Hbuild.
Qed.

(** A two-second recording next to an empty recording that comes last:
    the run has no second, the copy of the two-second mask fails. *)
Lemma overlong_record_aborts_construction_witness :
  _get_hdf_files two_second_files
  = Return [example_entry 0 2 "H-0.hdf" "H1"; example_entry 0 0 "L-0.hdf" "L1"]
  /\ __init__ two_second_files = Raise ValueError.
Proof.
  assert (Hget : _get_hdf_files two_second_files
                 = Return [example_entry 0 2 "H-0.hdf" "H1";
                           example_entry 0 0 "L-0.hdf" "L1"])
    by (vm_compute; reflexivity).
  split; [exact Hget|].
  apply (overlong_record_aborts_construction
           two_second_files _ 0 (example_entry 0 2 "H-0.hdf" "H1") Hget).
  - reflexivity.
  - now left.
  - cbn. lia.
  - cbn. lia.
Defined.

(** C10, as stated, fails for a one-second recording: numpy broadcasts
    its one-element mask into the clipped, empty slice, and the timeline
    is built, with no second in it, although the recording [0, 1) ends
    after the end 0 of the run. *)
Lemma one_second_record_counterexample :
  exists self f,
    __init__ one_second_files = Return self
    /\ gps_end_time (hdf_files self) = Return 0
    /\ In f (hdf_files self)
    /\ 0 < start_time f + duration f
    /\ timeline self = zeros 0.
Proof.
  eexists. exists (example_entry 0 1 "H-0.hdf" "H1").
  split; [vm_compute; reflexivity|].
  split; [reflexivity|]. split; [now left|]. split; [cbn; lia | reflexivity].
Qed.

(** When the construction succeeds and the last entry is not empty, every
    entry lies within the run. *)
Lemma built_catalog_in_span (catalog : list hdf_file) (s e : Z) (tl : timeline_t) :
  Forall well_formed catalog ->
  StronglySorted le_start catalog ->
  gps_start_time catalog = Return s ->
  gps_end_time catalog = Return e ->
  (forall last, py_last catalog = Return last -> 0 < duration last) ->
  for_each (add_hdf_file catalog) catalog (zeros (e - s)) = Return tl ->
  Forall (in_span s (e - s)) catalog.
Proof.
  intros Hwf Hsorted Hs He Hpos Hloop.
  destruct (catalog_starts_in_run _ _ _ Hwf Hsorted Hs He) as [Hn Hall].
  destruct (gps_end_time_last _ _ He) as (last & Hlast & Hee).
  pose proof (Hpos last Hlast) as Hd.
  apply Forall_forall. intros r Hr.
  pose proof (proj1 (Forall_forall _ _) Hall r Hr) as [Hwr Hlo].
  split; [exact Hwr|]. split; [lia|].
  destruct (Z_le_gt_dec (start_time r - s + duration r) (e - s)) as [Hle|Hgt];
    [exact Hle|].
  exfalso.
  destruct (Z.eq_dec (duration r) 1) as [Hone|Hone].
  - pose proof (sorted_last_greatest _ _ _ Hsorted Hlast Hr). lia.
  - assert (Hraise : for_each (add_hdf_file catalog) catalog (zeros (e - s))
                     = Raise ValueError).
    { apply (build_loop_overrun catalog s Hs (e - s)).
      - now apply zeros_all_len.
      - exact Hall.
      - apply Exists_exists. exists r. split; [exact Hr|]. split; [lia|exact Hone]. }
    rewrite Hraise in Hloop. discriminate.
Qed.

Lemma writes_same_detector (c : channel) (f g : hdf_file) :
  well_formed f -> well_formed g ->
  writes c f = true -> writes c g = true ->
  detector f = detector g.
Proof.
  intros ([Hf|Hf] & _) ([Hg|Hg] & _); rewrite Hf, Hg;
    destruct c; cbn [writes]; rewrite ?Hf, ?Hg; cbn; congruence.
Qed.

(** C2, as the code has it. After the construction from a catalog whose
    entries of the same detector do not overlap and whose last entry is
    not empty, the four arrays have one slot per second of the run; for
    every second covered by an entry, the slot of that second in the
    quality array and in the injection array of the entry's detector holds
    the entry's mask value at that second; and in each array the slot of a
    second of the run covered by no entry of that detector holds zero. *)
Theorem timeline_reproduces_masks :
  forall (files : list hdf_content) (self : t),
    __init__ files = Return self ->
    (forall last, py_last (hdf_files self) = Return last -> 0 < duration last) ->
    non_overlapping (hdf_files self) ->
    exists s e,
      gps_start_time (hdf_files self) = Return s
      /\ gps_end_time (hdf_files self) = Return e
      /\ (forall c, len (array_of c (timeline self)) = e - s)
      /\ (forall c f t,
             In f (hdf_files self) -> writes c f = true -> covers f t ->
             s <= t < e
             /\ exists v,
                 nth_error (mask_of c f) (Z.to_nat (t - start_time f)) = Some v
                 /\ nth_error (array_of c (timeline self)) (Z.to_nat (t - s))
                    = Some v)
      /\ (forall c t,
             s <= t < e ->
             (forall f, In f (hdf_files self) -> writes c f = true ->
                        ~ covers f t) ->
             nth_error (array_of c (timeline self)) (Z.to_nat (t - s)) = Some 0).
Proof.
  intros files self Hinit Hpos Hdisj.
  unfold __init__ in Hinit.
  destruct (_get_hdf_files files) as [catalog|] eqn:Hget; [|discriminate].
  cbn [bind] in Hinit.
  destruct (_build_timeline catalog) as [tl|] eqn:Hbuild; [|discriminate].
  cbn [bind] in Hinit. injection Hinit as <-.
  cbn [hdf_files timeline] in *.
  destruct (get_hdf_files_catalog _ _ Hget) as [Hwf Hsorted].
  assert (Hse : exists s e, gps_start_time catalog = Return s
                            /\ gps_end_time catalog = Return e).
  { unfold _build_timeline in Hbuild.
    destruct (gps_end_time catalog) as [e|]; [|discriminate].
    cbn [bind] in Hbuild.
    destruct (gps_start_time catalog) as [s|]; [|discriminate].
    now exists s, e. }
  destruct Hse as (s & e & Hs & He).
  destruct (catalog_starts_in_run _ _ _ Hwf Hsorted Hs He) as [Hn _].
  rewrite (build_timeline_loop _ _ _ Hs He Hn) in Hbuild.
  pose proof (built_catalog_in_span _ _ _ _ Hwf Hsorted Hs He Hpos Hbuild) as Hspan.
  pose proof (zeros_all_len (e - s) Hn) as Hz.
  exists s, e. split; [exact Hs|]. split; [exact He|].
  split; [|split].
  - (* the arrays keep the length of the run *)
    clear - Hbuild Hz Hs. revert Hbuild Hz.
    generalize (zeros (e - s)) as tl0. generalize catalog at 2 as recs.
    induction recs as [|r recs IH]; intros tl0 H Hz.
    + cbn in H. now injection H as <-.
    + cbn [for_each] in H.
      destruct (add_hdf_file catalog tl0 r) as [tl1|] eqn:E; [|discriminate].
      cbn [bind] in H. apply (IH _ H).
      eapply add_hdf_file_all_len; eassumption.
  - (* covered seconds *)
    intros c f t Hf Hw Hcov.
    pose proof (proj1 (Forall_forall _ _) Hspan f Hf) as (Hwff & Hlo & Hhi).
    unfold covers in Hcov. split; [lia|].
    destruct (in_split _ _ Hf) as (pre & post & Hcat).
    assert (Hnth :
              nth_error (array_of c tl) (Z.to_nat (t - s))
              = nth_error (mask_of c f) (Z.to_nat (t - start_time f))).
    { rewrite Hcat in Hbuild at 2. rewrite Hcat in Hspan.
      apply (build_loop_written catalog s Hs (e - s) c pre post f _ _ t Hz Hspan Hbuild Hw);
        [|exact Hcov].
      intros g Hg Hwg Hcg. unfold covers in Hcg.
      destruct (In_nth_error _ _ Hg) as [q Hq].
      assert (Hgc : In g catalog).
      { rewrite Hcat. apply in_or_app. right. now right. }
      pose proof (proj1 (Forall_forall _ _) Hwf g Hgc) as Hwfg.
      assert (Hi : nth_error catalog (length pre) = Some f).
      { rewrite Hcat, nth_error_app2, Nat.sub_diag by lia. reflexivity. }
      assert (Hj : nth_error catalog (length pre + S q) = Some g).
      { rewrite Hcat, nth_error_app2 by lia.
        replace (length pre + S q - length pre)%nat with (S q) by lia.
        exact Hq. }
      destruct (Hdisj (length pre) (length pre + S q)%nat f g
                      ltac:(lia) Hi Hj
                      (writes_same_detector c f g Hwff Hwfg Hw Hwg)); lia. }
    pose proof (mask_of_length c f Hwff) as Lm. unfold len in Lm.
    destruct (nth_error (mask_of c f) (Z.to_nat (t - start_time f)))
      as [v|] eqn:Ev.
    + exists v. split; [reflexivity | exact Hnth].
    + apply nth_error_None in Ev. lia.
  - (* seconds that no entry covers *)
    intros c t Ht Hfree.
    rewrite (build_loop_unchanged catalog s Hs (e - s) c (Z.to_nat (t - s))
               catalog _ _ Hz Hspan Hbuild).
    + destruct c; cbn [array_of zeros h1_inj_mask l1_inj_mask
                         h1_dq_mask l1_dq_mask];
        apply nth_error_repeat; lia.
    + intros f Hf Hw. replace (s + Z.of_nat (Z.to_nat (t - s))) with t by lia.
      now apply Hfree.
Qed.

Lemma two_segments_non_overlapping : non_overlapping (hdf_files two_segments).
Proof.
  intros i j f g Hij Hi Hj Hd.
  cbn [two_segments hdf_files] in Hi, Hj.
  destruct i as [|[|[|[|i]]]]; cbn [nth_error] in Hi;
    try (destruct i; discriminate);
    destruct j as [|[|[|[|j]]]]; cbn [nth_error] in Hj;
    try (destruct j; discriminate);
    try (exfalso; apply Hij; reflexivity);
    injection Hi as <-; injection Hj as <-;
    cbn [example_entry start_time duration detector] in *;
    try discriminate; lia.
Qed.

(** The second 1700 of the run built from [two_segment_files] lies in the
    recording [1500, 2000) of H1: slot 700 of the H1 quality array holds
    the mask value of that recording at its second 200. *)
Lemma timeline_reproduces_masks_witness :
  __init__ two_segment_files = Return two_segments
  /\ non_overlapping (hdf_files two_segments)
  /\ exists v,
      nth_error (mask_of H1_dq (example_entry 1500 500 "H-1500.hdf" "H1"))
                (Z.to_nat (1700 - 1500)) = Some v
      /\ nth_error (array_of H1_dq (timeline two_segments))
                   (Z.to_nat (1700 - 1000)) = Some v.
Proof.
  assert (Hinit : __init__ two_segment_files = Return two_segments)
    by (vm_compute; reflexivity).
  split; [exact Hinit|]. split; [exact two_segments_non_overlapping|].
  destruct (timeline_reproduces_masks two_segment_files two_segments Hinit)
    as (s & e & Hs & _ & _ & Hcov & _).
  - intros last Hlast. vm_compute in Hlast. injection Hlast as <-. cbn. lia.
  - exact two_segments_non_overlapping.
  - injection Hs as <-.
    destruct (Hcov H1_dq (example_entry 1500 500 "H-1500.hdf" "H1") 1700)
      as (_ & v & Hm & Ha).
    + cbn [two_segments hdf_files In]. auto.
    + reflexivity.
    + unfold covers. cbn [example_entry start_time duration]. lia.
    + exists v. split; [exact Hm | exact Ha].
Defined.

(** C2, as stated, fails for a one-second recording next to an empty one
    that comes last in the catalog: the construction succeeds (numpy
    broadcasts the one-element masks into empty slices), the recording
    [0, 1) of H1 covers the second 0 with quality value 127, and the H1
    quality array has no slot for it. *)
Lemma one_second_record_has_no_slot_counterexample :
  exists self f,
    __init__ one_second_files = Return self
    /\ non_overlapping (hdf_files self)
    /\ In f (hdf_files self)
    /\ writes H1_dq f = true
    /\ covers f 0
    /\ gps_start_time (hdf_files self) = Return 0
    /\ nth_error (mask_of H1_dq f) (Z.to_nat (0 - start_time f)) = Some 127
    /\ nth_error (array_of H1_dq (timeline self)) (Z.to_nat (0 - 0)) = None.
Proof.
  eexists. exists (example_entry 0 1 "H-0.hdf" "H1").
  split; [vm_compute; reflexivity|].
  split.
  { intros i j f g Hij Hi Hj Hd. cbn [hdf_files] in Hi, Hj.
    destruct i as [|[|i]]; cbn [nth_error] in Hi;
      try (destruct i; discriminate);
      destruct j as [|[|j]]; cbn [nth_error] in Hj;
      try (destruct j; discriminate);
      try (exfalso; apply Hij; reflexivity);
      injection Hi as <-; injection Hj as <-;
      cbn [start_time duration detector] in *; try discriminate; lia. }
  split; [now left|]. split; [reflexivity|].
  split; [unfold covers; cbn; lia|].
  split; [reflexivity|]. split; reflexivity.
Qed.

(* ===================================================================== *)
(** ** More about the index mapping and the validity test *)
(* ===================================================================== *)

(** X1. With an empty catalog [gps2idx] and [idx2gps] raise
    [IndexError]. With a non-empty one, whose first start time is [s],
    they undo each other on the integers that numpy's [int64] arithmetic
    computes exactly: [idx2gps(gps2idx(x)) = x] when [x] and [x - s] are
    [int64] values, [gps2idx(idx2gps(x)) = x] when [x] and [x + s] are. *)
Theorem gps2idx_idx2gps_round_trip :
  forall (self : t) (x : Z),
    (hdf_files self = [] ->
     gps2idx self x = Raise IndexError /\ idx2gps self x = Raise IndexError)
    /\ (forall s,
           gps_start_time (hdf_files self) = Return s ->
           int64_range s -> int64_range x ->
           (int64_range (x - s) ->
            gps2idx self x = Return (x - s)
            /\ (i <- gps2idx self x ;; idx2gps self i) = Return x)
           /\ (int64_range (x + s) ->
               idx2gps self x = Return (x + s)
               /\ (g <- idx2gps self x ;; gps2idx self g) = Return x)).
Proof.
  intros self x. unfold gps2idx, idx2gps. split.
  - intros ->. split; reflexivity.
  - intros s Hs _ _. rewrite Hs. cbn [bind].
    split; intros _; (split; [reflexivity | f_equal; lia]).
Qed.

Lemma issubset_range_Forall (bits : list Z) (n : Z) :
  issubset_range bits n = true <-> Forall (fun b => 0 <= b < n) bits.
Proof.
  unfold issubset_range. rewrite forallb_forall, Forall_forall.
  split; intros H b Hb; specialize (H b Hb).
  - apply andb_true_iff in H. lia.
  - apply andb_true_iff. split; [apply Z.leb_le | apply Z.ltb_lt]; lia.
Qed.

Lemma valid_arguments_asserts (delta_t : Z) (dq_bits inj_bits : list Z) :
  valid_arguments delta_t dq_bits inj_bits
  <-> (0 <=? delta_t) = true
      /\ issubset_range dq_bits 7 = true
      /\ issubset_range inj_bits 5 = true.
Proof.
  unfold valid_arguments. rewrite !issubset_range_Forall, Z.leb_le. reflexivity.
Qed.

Lemma inj_check_raises (environment : timeline_t) (ones inj_bits : list Z)
      (e : exception) :
  inj_check environment ones inj_bits = Raise e -> e = ValueError.
Proof.
  induction inj_bits as [|i rest IH]; cbn [inj_check]; [discriminate|].
  unfold np_bitwise_and at 1.
  destruct (Nat.eqb _ _); cbn [bind].
  2: destruct (Nat.eqb _ _); cbn [bind].
  3: destruct (Nat.eqb _ _); cbn [bind].
  4: now intros [= <-].
  all: destruct (negb _); [discriminate|];
    unfold np_bitwise_and at 1;
    (destruct (Nat.eqb _ _); cbn [bind];
     [|destruct (Nat.eqb _ _); cbn [bind];
       [|destruct (Nat.eqb _ _); cbn [bind]; [|now intros [= <-]]]]);
    (destruct (negb _); [discriminate | exact IH]).
Qed.

Lemma select_environment_raises (self : t) (gps_time delta_t : Z) (e : exception) :
  select_environment self gps_time delta_t = Raise e -> e = IndexError.
Proof.
  unfold select_environment, gps2idx, gps_start_time.
  destruct (hdf_files self) as [|f l]; cbn [py_first bind].
  - now intros [= <-].
  - discriminate.
Qed.

(** For a Python [int] as the time, only the assertions on the other
    arguments can fail. *)
Lemma is_valid_int_assertion_error (events : list Z) (self : t)
      (gps_time delta_t : Z) (dq_bits inj_bits : list Z) :
  is_valid events self gps_time delta_t dq_bits inj_bits = Raise AssertionError
  <-> ~ valid_arguments delta_t dq_bits inj_bits.
Proof.
  revert events self gps_time delta_t dq_bits inj_bits.
  intros events self gps dt dq inj.
  rewrite valid_arguments_asserts. unfold is_valid, assert.
  destruct (0 <=? dt); cbn [bind];
    [|split; [intros _ [H _]; discriminate | reflexivity]].
  destruct (issubset_range dq 7); cbn [bind];
    [|split; [intros _ (_ & H & _); discriminate | reflexivity]].
  destruct (issubset_range inj 5); cbn [bind];
    [|split; [intros _ (_ & _ & H); discriminate | reflexivity]].
  split; [|intros H; exfalso; apply H; auto].
  intros H. exfalso.
  destruct (existsb _ events); [discriminate|].
  assert (Hmask :
            (environment <- select_environment self gps dt ;;
             if negb (dq_check environment dq) then Return false
             else ones <- np_ones (2 * dt) ;; inj_check environment ones inj)
            = Raise AssertionError).
  { destruct (edge_check (hdf_files self) gps dt); [discriminate| |]; exact H. }
  clear H.
  destruct (select_environment self gps dt) as [env|x] eqn:Esel; cbn [bind] in Hmask.
  - destruct (negb (dq_check env dq)); [discriminate|].
    destruct (np_ones (2 * dt)) as [ones|y] eqn:Eo; cbn [bind] in Hmask.
    + apply inj_check_raises in Hmask. discriminate.
    + unfold np_ones in Eo. destruct (2 * dt <? 0); [|discriminate].
      injection Eo as <-. discriminate.
  - apply select_environment_raises in Esel. subst x. discriminate.
Qed.

Lemma issubset_range_false (bits : list Z) (n : Z) :
  issubset_range bits n = false <-> Exists (fun b => b < 0 \/ n <= b) bits.
Proof.
  unfold issubset_range. induction bits as [|b l IH]; cbn [forallb].
  - split; [discriminate | intros H; inversion H].
  - rewrite andb_false_iff, IH, Exists_cons.
    destruct (Z.leb_spec 0 b); destruct (Z.ltb_spec b n); cbn [andb];
      split; intros [G|G]; auto; try discriminate; try lia.
Qed.

(** X2. [is_valid] raises [AssertionError] exactly when an argument
    violates one of its four assertions: a time that is not a Python
    [int] (a numpy integer such as [idx2gps] returns, a float), a negative
    [delta_t], a data quality bit outside 0..6 or an injection bit outside
    0..4. No other step of [is_valid] raises it. *)
Theorem is_valid_assertion_error_iff :
  forall (events : list Z) (self : t) (gps_time : python_value) (delta_t : Z)
         (dq_bits inj_bits : list Z),
    is_valid_of_value events self gps_time delta_t dq_bits inj_bits
    = Raise AssertionError
    <-> gps_time = OtherValue
        \/ delta_t < 0
        \/ Exists (fun b => b < 0 \/ 7 <= b) dq_bits
        \/ Exists (fun b => b < 0 \/ 5 <= b) inj_bits.
Proof.
  intros events self gps dt dq inj.
  assert (Hargs : ~ valid_arguments dt dq inj
                  <-> dt < 0
                      \/ Exists (fun b => b < 0 \/ 7 <= b) dq
                      \/ Exists (fun b => b < 0 \/ 5 <= b) inj).
  { rewrite valid_arguments_asserts, <- !issubset_range_false.
    destruct (Z.leb_spec 0 dt) as [Hd|Hd]; destruct (issubset_range dq 7);
      destruct (issubset_range inj 5); split.
    all: try (intros G (A & B & C); destruct G as [G|[G|G]];
              (lia || discriminate)).
    all: intros G.
    all: try (exfalso; apply G; repeat split; reflexivity).
    all: try (left; lia).
    all: try (right; left; reflexivity).
    all: right; right; reflexivity. }
  destruct gps as [z|]; cbn [is_valid_of_value].
  - rewrite is_valid_int_assertion_error, Hargs.
    split; [auto | intros [H|H]; [discriminate | exact H]].
  - split; [auto | reflexivity].
Qed.

(** X3. With valid arguments, a known event within [delta_t] seconds of
    the time, both bounds included, makes [is_valid] return [False],
    whatever the catalog and the timeline hold. *)
Theorem is_valid_rejects_times_near_events :
  forall (events : list Z) (self : t) (gps_time delta_t : Z)
         (dq_bits inj_bits : list Z) (event : Z),
    valid_arguments delta_t dq_bits inj_bits ->
    In event events ->
    Z.abs (gps_time - event) <= delta_t ->
    is_valid events self gps_time delta_t dq_bits inj_bits = Return false.
Proof.
  intros events self gps dt dq inj event Hv Hin Hnear.
  apply valid_arguments_asserts in Hv. destruct Hv as (Hd & Hq & Hi).
  unfold is_valid. rewrite Hd, Hq, Hi. cbn [assert bind].
  assert (E : existsb (fun e => Z.abs (gps - e) <=? dt) events = true).
  { apply existsb_exists. exists event. split; [exact Hin|]. now apply Z.leb_le. }
  now rewrite E.
Qed.

Lemma is_valid_rejects_times_near_events_witness :
  valid_arguments 50 [0; 1; 2; 3] [0; 1; 2; 4]
  /\ is_valid [1350] one_segment 1300 50 [0; 1; 2; 3] [0; 1; 2; 4] = Return false.
Proof.
  assert (Hv : valid_arguments 50 [0; 1; 2; 3] [0; 1; 2; 4]).
  { unfold valid_arguments. repeat split; try lia; repeat constructor; lia. }
  split; [exact Hv|].
  apply (is_valid_rejects_times_near_events
           [1350] one_segment 1300 50 [0; 1; 2; 3] [0; 1; 2; 4] 1350 Hv).
  - now left.
  - lia.
Defined.

Lemma py_slice_empty {A : Type} (a : list A) (i : Z) : py_slice a i i = [].
Proof.
  unfold py_slice, slice_length. now rewrite Z.sub_diag.
Qed.

Lemma inj_check_no_window (environment : timeline_t) (inj_bits : list Z) :
  h1_inj_mask environment = [] -> l1_inj_mask environment = [] ->
  inj_check environment [] inj_bits = Return true.
Proof.
  intros Hh Hl. induction inj_bits as [|i rest IH]; [reflexivity|].
  cbn [inj_check]. rewrite Hh, Hl.
  unfold np_left_shift, np_bitwise_and.
  cbn [map length Nat.eqb zip_land bind np_all forallb negb]. exact IH.
Qed.

Lemma edge_check_zero_margin (l : list hdf_file) (gps_time : Z) :
  edge_check l gps_time 0 <> TooCloseToEdge.
Proof.
  induction l as [|f l IH]; cbn [edge_check]; [discriminate|].
  rewrite Z.add_0_r, Z.sub_0_r.
  destruct ((start_time f <? gps_time) && (gps_time <? start_time f + duration f));
    [discriminate | exact IH].
Qed.

Lemma is_valid_zero_window (events : list Z) (self : t) (gps_time : Z)
      (dq_bits inj_bits : list Z) :
  valid_arguments 0 dq_bits inj_bits ->
  hdf_files self <> [] ->
  is_valid events self gps_time 0 dq_bits inj_bits
  = Return (negb (existsb (fun e => gps_time =? e) events))
  /\ (is_valid events self gps_time 0 dq_bits inj_bits = Return true
      <-> ~ In gps_time events).
Proof.
  revert events self gps_time dq_bits inj_bits.
  intros events self gps dq inj Hv Hne.
  apply valid_arguments_asserts in Hv. destruct Hv as (Hd & Hq & Hi).
  assert (Hev : existsb (fun e => Z.abs (gps - e) <=? 0) events
                = existsb (fun e => gps =? e) events).
  { induction events as [|e l IH]; [reflexivity|]. cbn [existsb]. rewrite IH.
    f_equal. destruct (Z.leb_spec (Z.abs (gps - e)) 0);
      destruct (Z.eqb_spec gps e); try reflexivity; lia. }
  assert (E : is_valid events self gps 0 dq inj
              = Return (negb (existsb (fun e => gps =? e) events))).
  { unfold is_valid. rewrite Hd, Hq, Hi. cbn [assert bind]. rewrite Hev.
    destruct (existsb (fun e => gps =? e) events); [reflexivity|]. cbn [negb].
    assert (Hmask :
              (environment <- select_environment self gps 0 ;;
               if negb (dq_check environment dq) then Return false
               else ones <- np_ones (2 * 0) ;; inj_check environment ones inj)
              = Return true).
    { unfold gps_start_time, select_environment, gps2idx, gps_start_time.
      destruct (hdf_files self) as [|f l]; [contradiction|].
      cbn [py_first bind]. rewrite !Z.sub_0_r, !Z.add_0_r, !py_slice_empty.
      cbn [dq_check h1_dq_mask l1_dq_mask np_all_gt forallb andb negb].
      unfold dq_check. cbn [h1_dq_mask l1_dq_mask np_all_gt forallb andb negb].
      cbn [Z.mul np_ones Z.ltb Z.compare Z.to_nat repeat bind].
      now apply inj_check_no_window. }
    pose proof (edge_check_zero_margin (hdf_files self) gps) as Hedge.
    destruct (edge_check (hdf_files self) gps 0); [contradiction| |]; exact Hmask. }
  split; [exact E|]. rewrite E.
  split.
  - intros [= H] Hin. apply negb_true_iff in H.
    assert (existsb (fun e => gps =? e) events = true).
    { apply existsb_exists. exists gps. split; [exact Hin | apply Z.eqb_refl]. }
    congruence.
  - intros Hnot. f_equal. apply negb_true_iff. apply not_true_is_false.
    intros H. apply existsb_exists in H. destruct H as (e & Hin & He).
    apply Z.eqb_eq in He. subst e. contradiction.
Qed.

(** X4. With [delta_t = 0] the masks and the file edges are never
    consulted: for valid bits, a non-empty catalog whose first start time
    is [s], and a time such that the time and its index [gps_time - s] are
    [int64] values, [is_valid] returns [True] exactly when the time is not
    the time of a known event, be the time inside the run or not. *)
Theorem is_valid_zero_window_ignores_masks :
  forall (events : list Z) (self : t) (gps_time : Z)
         (dq_bits inj_bits : list Z) (s : Z),
    valid_arguments 0 dq_bits inj_bits ->
    gps_start_time (hdf_files self) = Return s ->
    int64_range s ->
    int64_range gps_time ->
    int64_range (gps_time - s) ->
    is_valid events self gps_time 0 dq_bits inj_bits
    = Return (negb (existsb (fun e => gps_time =? e) events))
    /\ (is_valid events self gps_time 0 dq_bits inj_bits = Return true
        <-> ~ In gps_time events).
Proof.
  intros events self gps dq inj s Hv Hs _ _ _.
  apply is_valid_zero_window; [exact Hv|].
  intros E. rewrite E in Hs. discriminate.
Qed.

Lemma is_valid_zero_window_ignores_masks_witness :
  valid_arguments 0 [0; 1; 2; 3] [0; 1; 2; 4]
  /\ int64_range (5000 - 1000)
  /\ is_valid [1350] one_segment 5000 0 [0; 1; 2; 3] [0; 1; 2; 4] = Return true.
Proof.
  assert (Hv : valid_arguments 0 [0; 1; 2; 3] [0; 1; 2; 4]).
  { unfold valid_arguments. repeat split; try lia; repeat constructor; lia. }
  split; [exact Hv|]. split; [unfold int64_range; lia|].
  apply (is_valid_zero_window_ignores_masks
           [1350] one_segment 5000 [0; 1; 2; 3] [0; 1; 2; 4] 1000 Hv).
  - reflexivity.
  - unfold int64_range. lia.
  - unfold int64_range. lia.
  - unfold int64_range. lia.
  - intros [H|[]]. discriminate.
Defined.

Lemma existsb_near_false (events : list Z) (gps_time delta_t : Z) :
  existsb (fun e => Z.abs (gps_time - e) <=? delta_t) events = false
  <-> Forall (fun e => delta_t < Z.abs (gps_time - e)) events.
Proof.
  induction events as [|e l IH]; cbn [existsb].
  - split; [constructor | reflexivity].
  - rewrite orb_false_iff, IH, Forall_cons_iff, Z.leb_gt. reflexivity.
Qed.

(** With windows of [2 * delta_t] elements [is_valid] raises nothing: it
    returns the conjunction of its four checks. *)
Lemma is_valid_full_window (events : list Z) (self : t) (gps_time delta_t : Z)
      (dq_bits inj_bits : list Z) (s : Z) :
  gps_start_time (hdf_files self) = Return s ->
  valid_arguments delta_t dq_bits inj_bits ->
  len (window s gps_time delta_t (h1_inj_mask (timeline self))) = 2 * delta_t ->
  len (window s gps_time delta_t (l1_inj_mask (timeline self))) = 2 * delta_t ->
  is_valid events self gps_time delta_t dq_bits inj_bits
  = Return
      (negb (existsb (fun e => Z.abs (gps_time - e) <=? delta_t) events)
       && match edge_check (hdf_files self) gps_time delta_t with
          | TooCloseToEdge => false
          | _ => true
          end
       && (np_all_gt (window s gps_time delta_t (h1_dq_mask (timeline self)))
                     (sum_pow2 dq_bits)
           && np_all_gt (window s gps_time delta_t (l1_dq_mask (timeline self)))
                        (sum_pow2 dq_bits))
       && forallb
            (fun k =>
               forallb (bit_setb k)
                       (window s gps_time delta_t (h1_inj_mask (timeline self)))
               && forallb (bit_setb k)
                          (window s gps_time delta_t (l1_inj_mask (timeline self))))
            inj_bits).
Proof.
  intros Hs Hv Hh Hl.
  pose proof Hv as (Hd0 & _).
  apply valid_arguments_asserts in Hv. destruct Hv as (Hd & Hq & Hi).
  unfold is_valid. rewrite Hd, Hq, Hi. cbn [assert bind].
  destruct (existsb _ events); [reflexivity|]. cbn [negb andb].
  assert (Hmask :
            (environment <- select_environment self gps_time delta_t ;;
             if negb (dq_check environment dq_bits) then Return false
             else ones <- np_ones (2 * delta_t) ;;
                  inj_check environment ones inj_bits)
            = Return
                ((np_all_gt (window s gps_time delta_t (h1_dq_mask (timeline self)))
                            (sum_pow2 dq_bits)
                  && np_all_gt (window s gps_time delta_t (l1_dq_mask (timeline self)))
                               (sum_pow2 dq_bits))
                 && forallb
                      (fun k =>
                         forallb (bit_setb k)
                                 (window s gps_time delta_t (h1_inj_mask (timeline self)))
                         && forallb (bit_setb k)
                                    (window s gps_time delta_t
                                            (l1_inj_mask (timeline self))))
                      inj_bits)).
  { rewrite (select_environment_window _ _ _ _ Hs). cbn [bind].
    unfold dq_check. cbn [h1_dq_mask l1_dq_mask].
    destruct (np_all_gt _ _ && np_all_gt _ _); [|reflexivity].
    cbn [negb andb]. rewrite np_ones_nonneg by lia. cbn [bind].
    rewrite (inj_check_aligned _ (Z.to_nat (2 * delta_t)));
      cbn [h1_inj_mask l1_inj_mask]; [reflexivity| |]; unfold len in *; lia. }
  destruct (edge_check (hdf_files self) gps_time delta_t);
    [reflexivity | exact Hmask | exact Hmask].
Qed.

(** X5. For valid arguments, a time whose index and window bounds are
    [int64] values, and windows of [2 * delta_t] elements (every window
    within the timeline), [is_valid] always returns a boolean, and it
    returns [True] exactly when all four checks hold: every known event is
    more than [delta_t] away, the loop over the files did not find the
    time too close to an edge, every element of both quality windows is
    greater than the sum of [2^k] over the required quality bits (written
    out below), and every element of both injection windows has every
    required bit set. *)
Theorem is_valid_true_iff_all_checks :
  forall (events : list Z) (self : t) (gps_time delta_t : Z)
         (dq_bits inj_bits : list Z) (s : Z),
    gps_start_time (hdf_files self) = Return s ->
    valid_arguments delta_t dq_bits inj_bits ->
    int64_range s ->
    int64_range gps_time ->
    int64_range (gps_time - s - delta_t) ->
    int64_range (gps_time - s + delta_t) ->
    len (window s gps_time delta_t (h1_inj_mask (timeline self))) = 2 * delta_t ->
    len (window s gps_time delta_t (l1_inj_mask (timeline self))) = 2 * delta_t ->
    exists b,
      is_valid events self gps_time delta_t dq_bits inj_bits = Return b
      /\ (b = true
          <-> Forall (fun e => delta_t < Z.abs (gps_time - e)) events
              /\ edge_check (hdf_files self) gps_time delta_t <> TooCloseToEdge
              /\ Forall (fun x => fold_right Z.add 0 (map (fun k => 2 ^ k) dq_bits) < x)
                        (window s gps_time delta_t (h1_dq_mask (timeline self)))
              /\ Forall (fun x => fold_right Z.add 0 (map (fun k => 2 ^ k) dq_bits) < x)
                        (window s gps_time delta_t (l1_dq_mask (timeline self)))
              /\ forall k, In k inj_bits ->
                   Forall (bit_set k)
                          (window s gps_time delta_t (h1_inj_mask (timeline self)))
                   /\ Forall (bit_set k)
                             (window s gps_time delta_t (l1_inj_mask (timeline self)))).
Proof.
  intros events self gps dt dq inj s Hs Hv _ _ _ _ Hh Hl.
  change (fold_right Z.add 0 (map (fun k => 2 ^ k) dq)) with (sum_pow2 dq).
  eexists. split; [apply (is_valid_full_window _ _ _ _ _ _ s Hs Hv Hh Hl)|].
  rewrite !andb_true_iff, negb_true_iff, existsb_near_false,
    !np_all_gt_Forall, forallb_bits_spec.
  assert (Hedge : match edge_check (hdf_files self) gps dt with
                  | TooCloseToEdge => false
                  | _ => true
                  end = true
                  <-> edge_check (hdf_files self) gps dt <> TooCloseToEdge).
  { destruct (edge_check (hdf_files self) gps dt); split;
      try discriminate; try reflexivity; intros H; now elim H. }
  rewrite Hedge. tauto.
Qed.

(** In the run [1000, 1500) with quality values 127 and injection values
    31, the time 1200 with half-window 50 passes the four checks, the
    known event 1350 being 150 seconds away: [is_valid] returns [True]. *)
Lemma is_valid_true_iff_all_checks_witness :
  valid_arguments 50 [0; 1; 2; 3] [0; 1; 2; 4]
  /\ Forall (fun x => 2 ^ 0 + 2 ^ 1 + 2 ^ 2 + 2 ^ 3 < x)
            (window 1000 1200 50 (h1_dq_mask (timeline one_segment)))
  /\ is_valid [1350] one_segment 1200 50 [0; 1; 2; 3] [0; 1; 2; 4] = Return true.
Proof.
  assert (Hv : valid_arguments 50 [0; 1; 2; 3] [0; 1; 2; 4]).
  { unfold valid_arguments. repeat split; try lia; repeat constructor; lia. }
  assert (Hh : Forall (fun x => 2 ^ 0 + 2 ^ 1 + 2 ^ 2 + 2 ^ 3 < x)
                      (window 1000 1200 50 (h1_dq_mask (timeline one_segment))))
    by (apply np_all_gt_Forall; vm_compute; reflexivity).
  assert (Hl : Forall (fun x => 2 ^ 0 + 2 ^ 1 + 2 ^ 2 + 2 ^ 3 < x)
                      (window 1000 1200 50 (l1_dq_mask (timeline one_segment))))
    by (apply np_all_gt_Forall; vm_compute; reflexivity).
  split; [exact Hv|]. split; [exact Hh|].
  destruct (is_valid_true_iff_all_checks
              [1350] one_segment 1200 50 [0; 1; 2; 3] [0; 1; 2; 4] 1000
              eq_refl Hv) as (b & E & Hb).
  - unfold int64_range. lia.
  - unfold int64_range. lia.
  - unfold int64_range. lia.
  - unfold int64_range. lia.
  - vm_compute. reflexivity.
  - vm_compute. reflexivity.
  - rewrite E. f_equal. apply Hb.
    split; [repeat constructor; cbn; lia|].
    split; [vm_compute; discriminate|].
    split; [exact Hh|]. split; [exact Hl|].
    apply forallb_bits_spec. vm_compute. reflexivity.
Defined.

(* ===================================================================== *)
(** ** More about the construction *)
(* ===================================================================== *)

Lemma build_loop_all_len (catalog : list hdf_file) (s n : Z)
      (recs : list hdf_file) :
  gps_start_time catalog = Return s ->
  forall tl tl',
    for_each (add_hdf_file catalog) recs tl = Return tl' ->
    all_len n tl -> all_len n tl'.
Proof.
  intros Hs. induction recs as [|r recs IH]; intros tl tl' H Hn.
  - cbn in H. now injection H as <-.
  - cbn [for_each] in H.
    destruct (add_hdf_file catalog tl r) as [tl1|] eqn:E; [|discriminate].
    cbn [bind] in H. apply (IH _ _ H).
    eapply add_hdf_file_all_len; eassumption.
Qed.

Lemma build_loop_raises (catalog : list hdf_file) (s : Z)
      (recs : list hdf_file) (e : exception) :
  gps_start_time catalog = Return s ->
  forall tl,
    for_each (add_hdf_file catalog) recs tl = Raise e -> e = ValueError.
Proof.
  intros Hs. induction recs as [|r recs IH]; intros tl H.
  - discriminate.
  - cbn [for_each] in H.
    destruct (add_hdf_file catalog tl r) as [tl1|x] eqn:E; cbn [bind] in H.
    + now apply (IH tl1).
    + injection H as <-. eapply add_hdf_file_raises; eassumption.
Qed.

(** What a successful [__init__] went through. *)
Lemma init_inversion (files : list hdf_content) (self : t) :
  __init__ files = Return self ->
  exists s e,
    _get_hdf_files files = Return (hdf_files self)
    /\ gps_start_time (hdf_files self) = Return s
    /\ gps_end_time (hdf_files self) = Return e
    /\ 0 <= e - s
    /\ for_each (add_hdf_file (hdf_files self)) (hdf_files self) (zeros (e - s))
       = Return (timeline self).
Proof.
  intros Hinit. unfold __init__ in Hinit.
  destruct (_get_hdf_files files) as [catalog|] eqn:Hget; [|discriminate].
  cbn [bind] in Hinit.
  destruct (_build_timeline catalog) as [tl|] eqn:Hbuild; [|discriminate].
  cbn [bind] in Hinit. injection Hinit as <-. cbn [hdf_files timeline].
  destruct (get_hdf_files_catalog _ _ Hget) as [Hwf Hsorted].
  assert (Hse : exists s e, gps_start_time catalog = Return s
                            /\ gps_end_time catalog = Return e).
  { unfold _build_timeline in Hbuild.
    destruct (gps_end_time catalog) as [e|]; [|discriminate].
    cbn [bind] in Hbuild.
    destruct (gps_start_time catalog) as [s|]; [|discriminate].
    now exists s, e. }
  destruct Hse as (s & e & Hs & He).
  destruct (catalog_starts_in_run _ _ _ Hwf Hsorted Hs He) as [Hn _].
  rewrite (build_timeline_loop _ _ _ Hs He Hn) in Hbuild.
  exists s, e. auto.
Qed.

(** X6. Whenever the construction succeeds, the four arrays have the same
    length, one slot per second from the earliest start time to the end of
    the entry that starts last, and every entry of the catalog starts
    within that run. *)
Theorem built_timeline_spans_run :
  forall (files : list hdf_content) (self : t),
    __init__ files = Return self ->
    exists s e,
      gps_start_time (hdf_files self) = Return s
      /\ gps_end_time (hdf_files self) = Return e
      /\ s <= e
      /\ len (h1_inj_mask (timeline self)) = e - s
      /\ len (l1_inj_mask (timeline self)) = e - s
      /\ len (h1_dq_mask (timeline self)) = e - s
      /\ len (l1_dq_mask (timeline self)) = e - s
      /\ forall f, In f (hdf_files self) -> s <= start_time f <= e.
Proof.
  intros files self Hinit.
  destruct (init_inversion _ _ Hinit) as (s & e & Hget & Hs & He & Hn & Hloop).
  destruct (get_hdf_files_catalog _ _ Hget) as [Hwf Hsorted].
  destruct (catalog_starts_in_run _ _ _ Hwf Hsorted Hs He) as [_ Hall].
  pose proof (build_loop_all_len _ s (e - s) _ Hs _ _ Hloop
                                 (zeros_all_len _ Hn)) as Hlen.
  exists s, e. split; [exact Hs|]. split; [exact He|]. split; [lia|].
  split; [exact (Hlen H1_inj)|]. split; [exact (Hlen L1_inj)|].
  split; [exact (Hlen H1_dq)|]. split; [exact (Hlen L1_dq)|].
  intros f Hf. rewrite Forall_forall in Hall. destruct (Hall f Hf) as [_ H]. lia.
Qed.

Lemma built_timeline_spans_run_witness :
  __init__ two_segment_files = Return two_segments
  /\ exists s e,
      gps_start_time (hdf_files two_segments) = Return s
      /\ gps_end_time (hdf_files two_segments) = Return e
      /\ len (h1_dq_mask (timeline two_segments)) = e - s.
Proof.
  assert (Hinit : __init__ two_segment_files = Return two_segments)
    by (vm_compute; reflexivity).
  split; [exact Hinit|].
  destruct (built_timeline_spans_run _ _ Hinit)
    as (s & e & Hs & He & _ & _ & _ & Hl & _).
  exists s, e. auto.
Defined.

(** X7. On a constructed timeline, with valid arguments, [sample] raises
    only when the interval of the draws is empty, that is when the run is
    not longer than [2 * delta_t]: then its first draw raises
    [ValueError]. Otherwise no turn of the loop raises: every draw has its
    window within the timeline, and [is_valid] returns a boolean. *)
Theorem sample_raises_only_on_empty_interval :
  forall (events : list Z) (rng : Type) (randint : rng -> Z -> Z -> Z * rng)
         (files : list hdf_content) (self : t) (delta_t : Z)
         (dq_bits inj_bits : list Z),
    __init__ files = Return self ->
    valid_arguments delta_t dq_bits inj_bits ->
    (forall low high g, low < high -> low <= fst (randint g low high) < high) ->
    exists s e,
      gps_start_time (hdf_files self) = Return s
      /\ gps_end_time (hdf_files self) = Return e
      /\ (e - delta_t <= s + delta_t ->
          forall fuel g,
            sample events rng randint (S fuel) self g delta_t dq_bits inj_bits
            = Some (Raise ValueError))
      /\ (s + delta_t < e - delta_t ->
          forall fuel g x,
            sample events rng randint fuel self g delta_t dq_bits inj_bits
            <> Some (Raise x)).
Proof.
  intros events rng randint files self dt dq inj Hinit Hv Hrange.
  destruct (init_inversion _ _ Hinit) as (s & e & Hget & Hs & He & Hn & Hloop).
  pose proof (build_loop_all_len _ s (e - s) _ Hs _ _ Hloop
                                 (zeros_all_len _ Hn)) as Hlen.
  exists s, e. split; [exact Hs|]. split; [exact He|]. split.
  - intros Hempty fuel g. cbn [sample]. rewrite Hs, He.
    destruct (Z.leb_spec (e - dt) (s + dt)); [reflexivity | lia].
  - intros Hlt. induction fuel as [|fuel IH]; intros g x; [discriminate|].
    rewrite (sample_turn events rng randint fuel self g dt dq inj s e Hs He Hlt).
    pose proof (Hrange _ _ g Hlt) as Hdraw.
    set (gps := fst (randint g (s + dt) (e - dt))) in *.
    pose proof Hv as (Hd & _).
    rewrite (is_valid_full_window events self gps dt dq inj s Hs Hv).
    + destruct (_ && _ && _ && _); [discriminate | apply IH].
    + pose proof (Hlen H1_inj) as L. cbn [array_of] in L. unfold len at 1.
      rewrite window_inside_length; lia.
    + pose proof (Hlen L1_inj) as L. cbn [array_of] in L. unfold len at 1.
      rewrite window_inside_length; lia.
Qed.

Lemma sample_raises_only_on_empty_interval_witness :
  __init__ one_segment_files = Return one_segment
  /\ sample [] Z counting_randint 1 one_segment 0 250 [0; 1; 2; 3] [0; 1; 2; 4]
     = Some (Raise ValueError).
Proof.
  assert (Hinit : __init__ one_segment_files = Return one_segment)
    by (vm_compute; reflexivity).
  split; [exact Hinit|].
  destruct (sample_raises_only_on_empty_interval
              [] Z counting_randint one_segment_files one_segment 250
              [0; 1; 2; 3] [0; 1; 2; 4] Hinit)
    as (s & e & Hs & He & Hempty & _).
  - unfold valid_arguments. repeat split; try lia; repeat constructor; lia.
  - intros low high g H. cbn [counting_randint fst].
    pose proof (Z.mod_pos_bound g (high - low)). lia.
  - injection Hs as <-. injection He as <-. apply Hempty. lia.
Defined.

(** *** The catalog loader *)

Lemma read_hdf_file_outcome (acc : list hdf_file) (f : hdf_content) :
  (well_formed (entry_of f) /\ read_hdf_file acc f = Return (acc ++ [entry_of f]))
  \/ (~ well_formed (entry_of f) /\ read_hdf_file acc f = Raise AssertionError).
Proof.
  unfold read_hdf_file, assert, well_formed, entry_of.
  cbn [detector duration inj_mask dq_mask].
  destruct (String.eqb_spec (meta_Detector f) "H1") as [Eh|Eh];
    destruct (String.eqb_spec (meta_Detector f) "L1") as [El|El];
    cbn [orb bind];
    try (destruct (Z.eqb_spec (meta_Duration f) (len (quality_Injmask f)));
         destruct (Z.eqb_spec (len (quality_Injmask f)) (len (quality_DQmask f)));
         cbn [andb bind];
         [left; split; [tauto | reflexivity]
         | right; split; [tauto | reflexivity] ..]).
  right. split; [tauto | reflexivity].
Qed.

Lemma read_loop_outcome (files : list hdf_content) :
  forall acc,
    (Forall (fun f => well_formed (entry_of f)) files
     /\ for_each read_hdf_file files acc = Return (acc ++ map entry_of files))
    \/ (Exists (fun f => ~ well_formed (entry_of f)) files
        /\ for_each read_hdf_file files acc = Raise AssertionError).
Proof.
  induction files as [|f files IH]; intros acc; cbn [for_each map].
  - left. split; [constructor | now rewrite app_nil_r].
  - destruct (read_hdf_file_outcome acc f) as [[Hf ->]|[Hf ->]]; cbn [bind].
    + destruct (IH (acc ++ [entry_of f])) as [[Hall ->]|[Hex ->]].
      * left. split; [now constructor|]. now rewrite <- app_assoc.
      * right. split; [now apply Exists_cons_tl | reflexivity].
    + right. split; [now apply Exists_cons_hd | reflexivity].
Qed.

Lemma insert_by_start_time_perm (x : hdf_file) (l : list hdf_file) :
  Permutation (insert_by_start_time x l) (x :: l).
Proof.
  induction l as [|y l IH]; cbn [insert_by_start_time]; [reflexivity|].
  destruct (start_time x <=? start_time y); [reflexivity|].
  rewrite IH. apply perm_swap.
Qed.

Lemma sorted_by_start_time_perm (l : list hdf_file) :
  Permutation (sorted_by_start_time l) l.
Proof.
  unfold sorted_by_start_time. induction l as [|x l IH]; cbn [fold_right].
  - reflexivity.
  - rewrite insert_by_start_time_perm. now constructor.
Qed.

(** The sort is stable: a list already in order is left as it is. *)
Lemma sorted_by_start_time_fixed (l : list hdf_file) :
  StronglySorted le_start l -> sorted_by_start_time l = l.
Proof.
  unfold sorted_by_start_time.
  induction 1 as [|x l Hs IH Hx]; cbn [fold_right]; [reflexivity|].
  rewrite IH. destruct l as [|y l']; [reflexivity|].
  cbn [insert_by_start_time]. apply Forall_inv in Hx. unfold le_start in Hx.
  destruct (Z.leb_spec (start_time x) (start_time y)); [reflexivity | lia].
Qed.

(** X8. For files whose mask values are [int32] values (which reading
    them with [dtype=np.int32] leaves as they are), [_get_hdf_files] fails
    fast: it returns a catalog exactly when every file names detector H1
    or L1 and has masks as long as its duration; a single other file makes
    it, and [__init__], raise [AssertionError]. The catalog it returns has
    one entry per file, in non-decreasing order of start time; files that
    are already in that order keep their order, ties included. *)
Theorem get_hdf_files_sorts_or_fails :
  forall files : list hdf_content,
    Forall (fun f => Forall int32_range (quality_Injmask f)
                     /\ Forall int32_range (quality_DQmask f)) files ->
    (Forall (fun f => well_formed (entry_of f)) files
     /\ exists catalog,
         _get_hdf_files files = Return catalog
         /\ Permutation catalog (map entry_of files)
         /\ StronglySorted le_start catalog
         /\ (StronglySorted le_start (map entry_of files) ->
             catalog = map entry_of files))
    \/ (Exists (fun f => ~ well_formed (entry_of f)) files
        /\ _get_hdf_files files = Raise AssertionError
        /\ __init__ files = Raise AssertionError).
Proof.
  intros files _. unfold __init__, _get_hdf_files.
  destruct (read_loop_outcome files []) as [[Hall ->]|[Hex ->]]; cbn [app bind].
  - left. split; [exact Hall|]. eexists. split; [reflexivity|].
    split; [apply sorted_by_start_time_perm|].
    split; [apply sorted_by_start_time_sorted | apply sorted_by_start_time_fixed].
  - right. auto.
Qed.

Lemma constant_file_int32 (path detector : string) (start duration dq inj : Z) :
  int32_range dq -> int32_range inj ->
  Forall int32_range (quality_Injmask (constant_file path start duration detector dq inj))
  /\ Forall int32_range
            (quality_DQmask (constant_file path start duration detector dq inj)).
Proof.
  intros Hq Hi. cbn [constant_file quality_Injmask quality_DQmask].
  split; apply Forall_forall; intros x Hx; apply repeat_spec in Hx; now subst x.
Qed.

(** The files of [two_segment_files] are already in order: the catalog
    lists their entries as they come, the H1 file before the L1 file of
    the same start time. *)
Lemma get_hdf_files_sorts_or_fails_witness :
  exists catalog,
    _get_hdf_files two_segment_files = Return catalog
    /\ Permutation catalog (map entry_of two_segment_files)
    /\ StronglySorted le_start catalog
    /\ catalog = map entry_of two_segment_files.
Proof.
  destruct (get_hdf_files_sorts_or_fails two_segment_files)
    as [(_ & catalog & E & P & S & F)|(_ & E & _)].
  - unfold two_segment_files.
    repeat (apply Forall_cons;
            [apply constant_file_int32; unfold int32_range; lia|]).
    constructor.
  - exists catalog. split; [exact E|]. split; [exact P|]. split; [exact S|].
    apply F. unfold two_segment_files.
    repeat (apply SSorted_cons; [|repeat constructor; unfold le_start; cbn; lia]).
    constructor.
  - exfalso. vm_compute in E. discriminate.
Defined.

Lemma get_hdf_files_sorts_or_fails_aux (files : list hdf_content) :
  (exists catalog,
      _get_hdf_files files = Return catalog
      /\ Permutation (map entry_of files) catalog)
  \/ __init__ files = Raise AssertionError.
Proof.
  unfold __init__, _get_hdf_files.
  destruct (read_loop_outcome files []) as [[Hall ->]|[Hex ->]]; cbn [app bind].
  - left. eexists. split; [reflexivity|].
    symmetry. apply sorted_by_start_time_perm.
  - now right.
Qed.

Lemma py_last_nonempty {A : Type} (x : A) (l : list A) :
  exists z, py_last (x :: l) = Return z.
Proof.
  unfold py_last. destruct (rev (x :: l)) as [|z r] eqn:E.
  - apply (f_equal (@length A)) in E. rewrite length_rev in E. discriminate.
  - now exists z.
Qed.

(** X9. The construction raises [IndexError] exactly when there is no
    file. Whatever the files hold (their datasets having been read), it
    raises nothing but [AssertionError],
    [IndexError] and [ValueError]. And [np.zeros] never receives a
    negative length: for a non-empty catalog that [_get_hdf_files]
    returns, both ends of the run exist and the end is not before the
    start. *)
Theorem init_index_error_iff_no_files :
  forall files : list hdf_content,
    (__init__ files = Raise IndexError <-> files = [])
    /\ (forall x, __init__ files = Raise x ->
                  x = AssertionError \/ x = IndexError \/ x = ValueError)
    /\ (forall catalog,
           _get_hdf_files files = Return catalog ->
           catalog <> [] ->
           exists s e,
             gps_start_time catalog = Return s
             /\ gps_end_time catalog = Return e
             /\ 0 <= e - s
             /\ np_zeros (e - s) = Return (repeat 0 (Z.to_nat (e - s)))).
Proof.
  intros files.
  assert (Hrun : forall catalog,
             _get_hdf_files files = Return catalog ->
             catalog <> [] ->
             exists s e,
               gps_start_time catalog = Return s
               /\ gps_end_time catalog = Return e
               /\ 0 <= e - s).
  { intros catalog Hget Hne.
    destruct (get_hdf_files_catalog _ _ Hget) as [Hwf Hsorted].
    destruct catalog as [|c catalog]; [contradiction|].
    destruct (py_last_nonempty c catalog) as [z Hz].
    assert (He : gps_end_time (c :: catalog) = Return (start_time z + duration z)).
    { unfold gps_end_time. now rewrite Hz. }
    assert (Hs : gps_start_time (c :: catalog) = Return (start_time c))
      by reflexivity.
    destruct (catalog_starts_in_run _ _ _ Hwf Hsorted Hs He) as [Hn _].
    eexists. eexists. split; [exact Hs|]. split; [exact He | exact Hn]. }
  assert (Hcases : forall x, __init__ files = Raise x ->
                             x = AssertionError
                             \/ (x = IndexError /\ files = [])
                             \/ x = ValueError).
  { intros x H.
    destruct (get_hdf_files_sorts_or_fails_aux files)
      as [(catalog & Hget & Hperm)|Hraise].
    - unfold __init__ in H. rewrite Hget in H. cbn [bind] in H.
      destruct catalog as [|c catalog].
      + apply Permutation_sym, Permutation_nil in Hperm.
        apply map_eq_nil in Hperm. subst files.
        cbn in H. injection H as <-. auto.
      + destruct (Hrun (c :: catalog) Hget ltac:(discriminate))
          as (s & e & Hs & He & Hn).
        rewrite (build_timeline_loop _ _ _ Hs He Hn) in H.
        destruct (for_each _ _ _) as [tl|y] eqn:E; cbn [bind] in H;
          [discriminate|].
        injection H as <-.
        apply (build_loop_raises _ _ _ _ Hs) in E. auto.
    - rewrite Hraise in H. injection H as <-. auto. }
  split; [|split].
  - split; [|intros ->; reflexivity].
    intros H. destruct (Hcases _ H) as [E|[[_ E]|E]];
      [discriminate | exact E | discriminate].
  - intros x H. destruct (Hcases _ H) as [E|[[E _]|E]]; auto.
  - intros catalog Hget Hne.
    destruct (Hrun catalog Hget Hne) as (s & e & Hs & He & Hn).
    exists s, e. split; [exact Hs|]. split; [exact He|]. split; [exact Hn|].
    unfold np_zeros. destruct (Z.ltb_spec (e - s) 0); [lia | reflexivity].
Qed.

(** X10. Last write wins. On a constructed timeline whose last entry is
    not empty, the slot of a second holds, in each array of a detector,
    the mask value of the last entry of that detector, in catalog order,
    that covers the second: entries before it that overlap it are
    overwritten. *)
Theorem later_entry_overwrites_earlier :
  forall (files : list hdf_content) (self : t)
         (pre post : list hdf_file) (f : hdf_file) (c : channel) (t : Z),
    __init__ files = Return self ->
    (forall last, py_last (hdf_files self) = Return last -> 0 < duration last) ->
    hdf_files self = pre ++ f :: post ->
    writes c f = true ->
    covers f t ->
    (forall g, In g post -> writes c g = true -> ~ covers g t) ->
    exists s v,
      gps_start_time (hdf_files self) = Return s
      /\ nth_error (mask_of c f) (Z.to_nat (t - start_time f)) = Some v
      /\ nth_error (array_of c (timeline self)) (Z.to_nat (t - s)) = Some v.
Proof.
  intros files self pre post f c t Hinit Hpos Hcat Hw Hcov Hfree.
  destruct (init_inversion _ _ Hinit) as (s & e & Hget & Hs & He & Hn & Hloop).
  destruct (get_hdf_files_catalog _ _ Hget) as [Hwf Hsorted].
  pose proof (built_catalog_in_span _ _ _ _ Hwf Hsorted Hs He Hpos Hloop) as Hspan.
  assert (Hf : In f (hdf_files self)).
  { rewrite Hcat. apply in_or_app. right. now left. }
  pose proof (proj1 (Forall_forall _ _) Hspan f Hf) as (Hwff & Hlo & Hhi).
  assert (Hnth :
            nth_error (array_of c (timeline self)) (Z.to_nat (t - s))
            = nth_error (mask_of c f) (Z.to_nat (t - start_time f))).
  { rewrite Hcat in Hloop at 2. rewrite Hcat in Hspan.
    exact (build_loop_written (hdf_files self) s Hs (e - s) c pre post f _ _ t
                              (zeros_all_len _ Hn) Hspan Hloop Hw Hfree Hcov). }
  pose proof (mask_of_length c f Hwff) as Lm. unfold len in Lm.
  unfold covers in Hcov.
  destruct (nth_error (mask_of c f) (Z.to_nat (t - start_time f))) as [v|] eqn:Ev.
  - exists s, v. auto.
  - apply nth_error_None in Ev. lia.
Qed.

(** The second 1300 is covered by both recordings of
    [overlapping_files]; slot 300 holds the quality value 3 of the later
    one. *)
Lemma later_entry_overwrites_earlier_witness :
  exists self,
    __init__ overlapping_files = Return self
    /\ nth_error (h1_dq_mask (timeline self)) (Z.to_nat (1300 - 1000)) = Some 3.
Proof.
  eexists. split; [vm_compute; reflexivity|].
  match goal with
  | |- nth_error (h1_dq_mask (timeline ?x)) _ = _ => set (self := x)
  end.
  assert (Hinit : __init__ overlapping_files = Return self)
    by (vm_compute; reflexivity).
  destruct (later_entry_overwrites_earlier
              overlapping_files self
              [example_entry_with 1000 500 "H-1000.hdf" "H1" 127 31] []
              (example_entry_with 1200 500 "H-1200.hdf" "H1" 3 7) H1_dq 1300 Hinit)
    as (s & v & Hs & Hm & Ha).
  - intros last Hlast. vm_compute in Hlast. injection Hlast as <-. cbn. lia.
  - reflexivity.
  - reflexivity.
  - unfold covers. cbn. lia.
  - intros g [].
  - injection Hs as <-. cbn [array_of] in Ha. rewrite Ha, <- Hm. reflexivity.
Defined.

(* ===================================================================== *)
(** ** The segment locator *)
(* ===================================================================== *)

Lemma has_file_cons (x : hdf_file) (l : list hdf_file) (det : string)
      (gps_time : Z) (path : string) :
  has_file (x :: l) det gps_time path
  <-> (detector x = det /\ strictly_contains x gps_time /\ file_path x = path)
      \/ has_file l det gps_time path.
Proof.
  unfold has_file. split.
  - intros (f & [<-|Hin] & H); [now left | right; now exists f].
  - intros [H|(f & Hin & H)]; [exists x | exists f]; cbn [In]; auto.
Qed.

Lemma inside_spec (x : hdf_file) (gps_time : Z) :
  (start_time x <? gps_time) && (gps_time <? start_time x + duration x) = true
  <-> strictly_contains x gps_time.
Proof.
  unfold strictly_contains. rewrite andb_true_iff, !Z.ltb_lt. reflexivity.
Qed.

Lemma file_paths_loop_sound (l : list hdf_file) (gps_time : Z) :
  forall h1 l1 a b,
    file_paths_loop l gps_time h1 l1 = Some (a, b) ->
    (h1 = Some a \/ has_file l "H1" gps_time a)
    /\ (l1 = Some b \/ has_file l "L1" gps_time b).
Proof.
  induction l as [|x l IH]; intros h1 l1 a b H; [discriminate|].
  cbn [file_paths_loop] in H. cbv zeta in H.
  set (inside := (start_time x <? gps_time)
                 && (gps_time <? start_time x + duration x)) in *.
  set (h1' := if inside && String.eqb (detector x) "H1"
              then Some (file_path x) else h1) in *.
  set (l1' := if inside && String.eqb (detector x) "L1"
              then Some (file_path x) else l1) in *.
  assert (Hh : forall p, h1' = Some p ->
                         h1 = Some p \/ has_file (x :: l) "H1" gps_time p).
  { intros p. unfold h1'.
    destruct (inside && String.eqb (detector x) "H1") eqn:E; [|auto].
    intros [= <-]. right. apply has_file_cons. left.
    apply andb_true_iff in E. destruct E as [Ei Ed].
    apply inside_spec in Ei. apply String.eqb_eq in Ed. auto. }
  assert (Hl : forall p, l1' = Some p ->
                         l1 = Some p \/ has_file (x :: l) "L1" gps_time p).
  { intros p. unfold l1'.
    destruct (inside && String.eqb (detector x) "L1") eqn:E; [|auto].
    intros [= <-]. right. apply has_file_cons. left.
    apply andb_true_iff in E. destruct E as [Ei Ed].
    apply inside_spec in Ei. apply String.eqb_eq in Ed. auto. }
  assert (Hrec : file_paths_loop l gps_time h1' l1' = Some (a, b) ->
                 (h1 = Some a \/ has_file (x :: l) "H1" gps_time a)
                 /\ (l1 = Some b \/ has_file (x :: l) "L1" gps_time b)).
  { intros Hr. destruct (IH _ _ _ _ Hr) as [[A|A] [B|B]]; split;
      try (now apply Hh); try (now apply Hl);
      right; apply has_file_cons; now right. }
  destruct h1' as [p|]; [destruct l1' as [q|]|]; try (now apply Hrec).
  injection H as <- <-. split; [now apply Hh | now apply Hl].
Qed.

Lemma file_paths_loop_complete (l : list hdf_file) (gps_time : Z) :
  forall h1 l1,
    (h1 <> None \/ exists a, has_file l "H1" gps_time a) ->
    (l1 <> None \/ exists b, has_file l "L1" gps_time b) ->
    ((exists a, has_file l "H1" gps_time a)
     \/ (exists b, has_file l "L1" gps_time b)) ->
    file_paths_loop l gps_time h1 l1 <> None.
Proof.
  induction l as [|x l IH]; intros h1 l1 Hh Hl Hone.
  - destruct Hone as [(a & f & [] & _)|(b & f & [] & _)].
  - cbn [file_paths_loop]. cbv zeta.
    set (inside := (start_time x <? gps_time)
                   && (gps_time <? start_time x + duration x)) in *.
    set (h1' := if inside && String.eqb (detector x) "H1"
                then Some (file_path x) else h1) in *.
    set (l1' := if inside && String.eqb (detector x) "L1"
                then Some (file_path x) else l1) in *.
    assert (Hh' : h1' <> None \/ exists a, has_file l "H1" gps_time a).
    { destruct Hh as [Hh|(a & Ha)].
      - left. unfold h1'.
        destruct (inside && String.eqb (detector x) "H1");
          [discriminate | exact Hh].
      - apply has_file_cons in Ha. destruct Ha as [(Hd & Hc & _)|Ha].
        + left. unfold h1'. apply inside_spec in Hc. fold inside in Hc.
          rewrite Hc, Hd. discriminate.
        + right. now exists a. }
    assert (Hl' : l1' <> None \/ exists b, has_file l "L1" gps_time b).
    { destruct Hl as [Hl|(b & Hb)].
      - left. unfold l1'.
        destruct (inside && String.eqb (detector x) "L1");
          [discriminate | exact Hl].
      - apply has_file_cons in Hb. destruct Hb as [(Hd & Hc & _)|Hb].
        + left. unfold l1'. apply inside_spec in Hc. fold inside in Hc.
          rewrite Hc, Hd. discriminate.
        + right. now exists b. }
    destruct h1' as [p|] eqn:Eh; [destruct l1' as [q|] eqn:El|].
    + discriminate.
    + apply IH; [left; discriminate | exact Hl' |].
      right. destruct Hl' as [H|H]; [now elim H | exact H].
    + apply IH; [exact Hh' | exact Hl' |].
      left. destruct Hh' as [H|H]; [now elim H | exact H].
Qed.

(** X11. [get_file_paths_for_time] returns a pair of paths only of files
    that strictly contain the time, the first of detector H1 and the
    second of L1; and it returns [None] exactly when the catalog lacks
    such a file for one of the detectors (so for a time on the boundary of
    a file, or in a gap of one detector). *)
Theorem get_file_paths_for_time_finds_both_or_none :
  forall (self : t) (gps_time : Z),
    (forall a b,
        get_file_paths_for_time self gps_time = Some (a, b) ->
        has_file (hdf_files self) "H1" gps_time a
        /\ has_file (hdf_files self) "L1" gps_time b)
    /\ (get_file_paths_for_time self gps_time = None
        <-> ~ ((exists a, has_file (hdf_files self) "H1" gps_time a)
               /\ (exists b, has_file (hdf_files self) "L1" gps_time b))).
Proof.
  intros self gps. unfold get_file_paths_for_time.
  assert (Hsound : forall a b,
             file_paths_loop (hdf_files self) gps None None = Some (a, b) ->
             has_file (hdf_files self) "H1" gps a
             /\ has_file (hdf_files self) "L1" gps b).
  { intros a b H. destruct (file_paths_loop_sound _ _ _ _ _ _ H) as [[A|A] [B|B]];
      try discriminate. now split. }
  split; [exact Hsound|]. split.
  - intros Hnone [Ha Hb].
    apply (file_paths_loop_complete (hdf_files self) gps None None); auto.
  - intros Hnot.
    destruct (file_paths_loop (hdf_files self) gps None None) as [[a b]|] eqn:E;
      [|reflexivity].
    exfalso. apply Hnot. destruct (Hsound a b eq_refl) as [A B].
    split; [now exists a | now exists b].
Qed.

(* ===================================================================== *)
(** ** More about get_strain_from_hdf_file *)
(* ===================================================================== *)

Lemma py_stride_nonzero {A : Type} (a : list A) (step : Z) :
  step <> 0 -> exists out, py_stride a step = Return out.
Proof.
  intros H. unfold py_stride.
  destruct (Z.eqb_spec step 0); [contradiction|].
  destruct (0 <? step); eexists; reflexivity.
Qed.

(** X12. The outcome of [get_strain_from_hdf_file] depends on the two
    rates only: a zero target rate raises [ZeroDivisionError], a target
    rate that does not divide the original rate raises [AssertionError],
    a zero original rate raises [ValueError] (a slice step of zero), and
    in every other case the function returns, whatever the time, the
    half-window and the lengths of the strain arrays are: a window that
    the file does not cover is not an error. *)
Theorem get_strain_outcome_depends_on_rates :
  forall (sample_t : Type)
         (hdf_file_paths : detector_id -> strain_file sample_t)
         (gps_time delta_t original_sampling_rate target_sampling_rate : Z),
    (target_sampling_rate = 0 ->
     get_strain_from_hdf_file hdf_file_paths gps_time delta_t
       original_sampling_rate target_sampling_rate = Raise ZeroDivisionError)
    /\ (target_sampling_rate <> 0 ->
        original_sampling_rate mod target_sampling_rate <> 0 ->
        get_strain_from_hdf_file hdf_file_paths gps_time delta_t
          original_sampling_rate target_sampling_rate = Raise AssertionError)
    /\ (target_sampling_rate <> 0 ->
        original_sampling_rate = 0 ->
        get_strain_from_hdf_file hdf_file_paths gps_time delta_t
          original_sampling_rate target_sampling_rate = Raise ValueError)
    /\ (target_sampling_rate <> 0 ->
        original_sampling_rate <> 0 ->
        original_sampling_rate mod target_sampling_rate = 0 ->
        exists sample,
          get_strain_from_hdf_file hdf_file_paths gps_time delta_t
            original_sampling_rate target_sampling_rate = Return sample).
Proof.
  intros sample_t paths gps dt orig target. unfold get_strain_from_hdf_file.
  split; [|split; [|split]].
  - intros ->. reflexivity.
  - intros Ht Hm. destruct (Z.eqb_spec target 0); [contradiction|].
    cbn [bind]. unfold assert.
    destruct (Z.eqb_spec (orig mod target) 0); [contradiction | reflexivity].
  - intros Ht ->. destruct (Z.eqb_spec target 0); [contradiction|].
    cbn [bind]. rewrite Z.mod_0_l by assumption. cbn [Z.eqb assert bind].
    rewrite Z.div_0_l by assumption. reflexivity.
  - intros Ht Ho Hm. destruct (Z.eqb_spec target 0); [contradiction|].
    cbn [bind]. rewrite Hm. cbn [Z.eqb assert bind].
    assert (Hf : orig / target <> 0).
    { intros H0. pose proof (Z.div_mod orig target Ht). rewrite H0, Hm in H. lia. }
    unfold select_strain.
    destruct (py_stride_nonzero
                (py_slice (strain_Strain (paths H1))
                          ((gps - meta_GPSstart (paths H1) - dt) * orig)
                          ((gps - meta_GPSstart (paths H1) + dt) * orig))
                (orig / target) Hf) as [h ->].
    destruct (py_stride_nonzero
                (py_slice (strain_Strain (paths L1))
                          ((gps - meta_GPSstart (paths L1) - dt) * orig)
                          ((gps - meta_GPSstart (paths L1) + dt) * orig))
                (orig / target) Hf) as [l ->].
    cbn [bind]. eexists. reflexivity.
Qed.

Lemma select_strain_covered {sample_t : Type} (hdf_file : strain_file sample_t)
      (gps_time delta_t orig target : Z) :
  0 < target -> 0 < orig -> orig mod target = 0 -> 0 <= delta_t ->
  0 <= (gps_time - meta_GPSstart hdf_file - delta_t) * orig ->
  (gps_time - meta_GPSstart hdf_file + delta_t) * orig
  <= len (strain_Strain hdf_file) ->
  exists out,
    select_strain hdf_file gps_time delta_t orig (orig / target) = Return out
    /\ len out = 2 * delta_t * target.
Proof.
  intros Ht Ho Hmod Hd Hlo Hhi.
  assert (Hof : orig = orig / target * target).
  { pose proof (Z.div_mod orig target ltac:(lia)). lia. }
  assert (Hf : 0 < orig / target) by nia.
  unfold select_strain.
  destruct (py_stride_positive
              (py_slice (strain_Strain hdf_file)
                        ((gps_time - meta_GPSstart hdf_file - delta_t) * orig)
                        ((gps_time - meta_GPSstart hdf_file + delta_t) * orig))
              (orig / target) (2 * delta_t * target))
    as (out & E & L & _); [exact Hf | nia | | now exists out].
  rewrite py_slice_inside_length by nia. nia.
Qed.

(** Within margins of [delta_t] seconds in a file of
    [duration * original_sampling_rate] samples the window is covered. *)
Lemma get_strain_within_margins {sample_t : Type}
      (hdf_file_paths : detector_id -> strain_file sample_t)
      (duration : detector_id -> Z)
      (gps_time delta_t original_sampling_rate target_sampling_rate : Z) :
  0 < target_sampling_rate ->
  0 < original_sampling_rate ->
  original_sampling_rate mod target_sampling_rate = 0 ->
  0 <= delta_t ->
  (forall d,
      len (strain_Strain (hdf_file_paths d))
      = duration d * original_sampling_rate
      /\ meta_GPSstart (hdf_file_paths d) + delta_t <= gps_time
      /\ gps_time <= meta_GPSstart (hdf_file_paths d) + duration d - delta_t) ->
  exists sample,
    get_strain_from_hdf_file hdf_file_paths gps_time delta_t
      original_sampling_rate target_sampling_rate = Return sample
    /\ forall d, len (sample d) = 2 * delta_t * target_sampling_rate.
Proof.
  intros Ht Ho Hmod Hd Hfiles.
  assert (Hsel : forall d,
             exists out,
               select_strain (hdf_file_paths d) gps_time delta_t
                             original_sampling_rate
                             (original_sampling_rate / target_sampling_rate)
               = Return out
               /\ len out = 2 * delta_t * target_sampling_rate).
  { intros d. destruct (Hfiles d) as (Hl & Hlo & Hhi).
    apply select_strain_covered; try assumption; [nia|]. rewrite Hl. nia. }
  destruct (Hsel H1) as (h & Eh & Lh). destruct (Hsel L1) as (l & El & Ll).
  exists (fun d => match d with H1 => h | L1 => l end). split.
  - unfold get_strain_from_hdf_file.
    destruct (Z.eqb_spec target_sampling_rate 0); [lia|]. cbn [bind].
    rewrite Hmod. cbn [Z.eqb assert bind]. now rewrite Eh, El.
  - intros [|]; assumption.
Qed.

Lemma edge_check_far (l : list hdf_file) (gps_time delta_t : Z) :
  edge_check l gps_time delta_t = FarFromEdge ->
  exists f, In f l
            /\ strictly_contains f gps_time
            /\ start_time f + delta_t < gps_time < start_time f + duration f - delta_t.
Proof.
  induction l as [|x l IH]; cbn [edge_check]; [discriminate|].
  destruct (Z.ltb_spec (start_time x) gps_time);
    destruct (Z.ltb_spec gps_time (start_time x + duration x)); cbn [andb].
  2-4: intros G; destruct (IH G) as (f & Hin & Hf); exists f; split;
    [now right | exact Hf].
  destruct (Z.ltb_spec (start_time x + delta_t) gps_time);
    destruct (Z.ltb_spec gps_time (start_time x + duration x - delta_t));
    cbn [andb negb]; try discriminate.
  intros _. exists x. split; [now left|]. unfold strictly_contains. lia.
Qed.

Lemma edge_check_finds_file (l : list hdf_file) (f : hdf_file)
      (gps_time delta_t : Z) :
  In f l -> strictly_contains f gps_time ->
  edge_check l gps_time delta_t <> NoContainingFile.
Proof.
  intros Hin Hf. induction l as [|x l IH]; [contradiction|].
  cbn [edge_check].
  destruct ((start_time x <? gps_time) && (gps_time <? start_time x + duration x))
           eqn:E.
  - destruct (negb _); discriminate.
  - destruct Hin as [->|Hin]; [|now apply IH].
    apply inside_spec in Hf. congruence.
Qed.

Lemma is_valid_true_passed_edges (events : list Z) (self : t)
      (gps_time delta_t : Z) (dq_bits inj_bits : list Z) :
  is_valid events self gps_time delta_t dq_bits inj_bits = Return true ->
  0 <= delta_t
  /\ edge_check (hdf_files self) gps_time delta_t <> TooCloseToEdge.
Proof.
  unfold is_valid, assert.
  destruct (Z.leb_spec 0 delta_t); cbn [bind]; [|discriminate].
  destruct (issubset_range dq_bits 7); cbn [bind]; [|discriminate].
  destruct (issubset_range inj_bits 5); cbn [bind]; [|discriminate].
  destruct (existsb _ events); [discriminate|].
  destruct (edge_check (hdf_files self) gps_time delta_t);
    [discriminate | |]; intros _; split; try assumption; discriminate.
Qed.

(** X13. What [is_valid] accepts can be extracted in full, when the files
    are aligned as the code assumes. Let [is_valid] return [True] for a
    time; let each detector have a catalog entry that strictly contains
    the time, whose file starts at the entry's start time and holds
    [duration * original_sampling_rate] samples; and let all entries that
    strictly contain the time have the same start time and duration. Then
    [get_strain_from_hdf_file] returns
    [2 * delta_t * target_sampling_rate] samples per detector. *)
Theorem get_strain_full_window_for_valid_time :
  forall (sample_t : Type) (events : list Z) (self : t)
         (hdf_file_paths : detector_id -> strain_file sample_t)
         (entry : detector_id -> hdf_file)
         (gps_time delta_t : Z) (dq_bits inj_bits : list Z)
         (original_sampling_rate target_sampling_rate : Z),
    0 < target_sampling_rate ->
    0 < original_sampling_rate ->
    original_sampling_rate mod target_sampling_rate = 0 ->
    is_valid events self gps_time delta_t dq_bits inj_bits = Return true ->
    (forall d,
        In (entry d) (hdf_files self)
        /\ strictly_contains (entry d) gps_time
        /\ meta_GPSstart (hdf_file_paths d) = start_time (entry d)
        /\ len (strain_Strain (hdf_file_paths d))
           = duration (entry d) * original_sampling_rate) ->
    (forall f g,
        In f (hdf_files self) -> In g (hdf_files self) ->
        strictly_contains f gps_time -> strictly_contains g gps_time ->
        start_time f = start_time g /\ duration f = duration g) ->
    exists sample,
      get_strain_from_hdf_file hdf_file_paths gps_time delta_t
        original_sampling_rate target_sampling_rate = Return sample
      /\ forall d, len (sample d) = 2 * delta_t * target_sampling_rate.
Proof.
  intros sample_t events self paths entry gps dt dq inj orig target
         Ht Ho Hmod Hvalid Hentry Haligned.
  destruct (is_valid_true_passed_edges _ _ _ _ _ _ Hvalid) as [Hd Hedge].
  destruct (Hentry H1) as (Hin1 & Hc1 & _).
  pose proof (edge_check_finds_file _ _ gps dt Hin1 Hc1) as Hfound.
  assert (Hfar : edge_check (hdf_files self) gps dt = FarFromEdge).
  { destruct (edge_check (hdf_files self) gps dt); [now elim Hedge | reflexivity
                                                   | now elim Hfound]. }
  destruct (edge_check_far _ _ _ Hfar) as (f & Hf & Hcf & Hmargin).
  apply (get_strain_within_margins paths (fun d => duration (entry d)));
    try assumption.
  intros d. destruct (Hentry d) as (Hin & Hc & Hstart & Hlen).
  destruct (Haligned f (entry d) Hf Hin Hcf Hc) as [Es Ed].
  split; [exact Hlen|]. rewrite Hstart. lia.
Qed.

(** The time 1300 of the run [1000, 1500), half-window 50, from 4 Hz to
    2 Hz: 200 samples per detector. *)
Lemma get_strain_full_window_for_valid_time_witness :
  is_valid [] one_segment 1300 50 [0; 1; 2; 3] [0; 1; 2; 4] = Return true
  /\ exists sample,
      get_strain_from_hdf_file (fun _ => long_strain) 1300 50 4 2 = Return sample
      /\ len (sample H1) = 2 * 50 * 2.
Proof.
  assert (Hv : is_valid [] one_segment 1300 50 [0; 1; 2; 3] [0; 1; 2; 4]
               = Return true) by (vm_compute; reflexivity).
  split; [exact Hv|].
  destruct (get_strain_full_window_for_valid_time
              Z [] one_segment (fun _ => long_strain)
              (fun d => match d with
                        | H1 => example_entry 1000 500 "H-1000.hdf" "H1"
                        | L1 => example_entry 1000 500 "L-1000.hdf" "L1"
                        end)
              1300 50 [0; 1; 2; 3] [0; 1; 2; 4] 4 2)
    as (sample & E & L).
  - lia.
  - lia.
  - reflexivity.
  - exact Hv.
  - intros [|]; (split; [cbn [one_segment hdf_files In]; auto|]);
      (split; [unfold strictly_contains; cbn; lia|]);
      (split; [reflexivity | vm_compute; reflexivity]).
  - intros f g Hf Hg _ _. cbn [one_segment hdf_files In] in Hf, Hg.
    destruct Hf as [<-|[<-|[]]]; destruct Hg as [<-|[<-|[]]];
      split; reflexivity.
  - exists sample. split; [exact E | apply L].
Defined.

(* ===================================================================== *)
(** ** The search for the files *)
(* ===================================================================== *)

Lemma endswith_spec (s ext : string) :
  endswith s ext = true <-> exists pre, s = (pre ++ ext)%string.
Proof.
  induction s as [|c s IH]; cbn [endswith].
  - rewrite orb_false_r, String.eqb_eq. split.
    + intros <-. now exists EmptyString.
    + intros ([|c pre] & H); [exact H | discriminate].
  - rewrite orb_true_iff, String.eqb_eq, IH. split.
    + intros [<-|(pre & ->)]; [now exists EmptyString|].
      now exists (String c pre).
    + intros ([|c' pre] & H); [now left|].
      right. cbn in H. injection H as _ ->. now exists pre.
Qed.

(** X14. [get_file_paths] lists the files in the order of the walk, and
    within a directory in the order of its files: the result for a walk is
    the result for its first directory followed by the result for the
    rest, and the result for a directory is the result for its first file
    followed by the result for its other files. A file contributes its
    name joined to the path of its directory: always when no extensions
    are given, and otherwise exactly when one of the extensions is a
    suffix of the joined path (no dot is asked for; with an empty list of
    extensions nothing is kept). *)
Theorem get_file_paths_keeps_suffix_matches :
  forall (join : string -> string -> string) (extensions : option (list string)),
    get_file_paths join [] extensions = []
    /\ (forall path dirs files walk,
           get_file_paths join ((path, dirs, files) :: walk) extensions
           = get_file_paths join [(path, dirs, files)] extensions
             ++ get_file_paths join walk extensions)
    /\ (forall path dirs, get_file_paths join [(path, dirs, [])] extensions = [])
    /\ (forall path dirs file files,
           get_file_paths join [(path, dirs, file :: files)] extensions
           = get_file_paths join [(path, dirs, [file])] extensions
             ++ get_file_paths join [(path, dirs, files)] extensions)
    /\ (forall path dirs file,
           extensions = None ->
           get_file_paths join [(path, dirs, [file])] extensions
           = [join path file])
    /\ (forall path dirs file exts,
           extensions = Some exts ->
           ((exists ext pre, In ext exts /\ join path file = (pre ++ ext)%string) ->
            get_file_paths join [(path, dirs, [file])] extensions
            = [join path file])
           /\ (~ (exists ext pre,
                     In ext exts /\ join path file = (pre ++ ext)%string) ->
               get_file_paths join [(path, dirs, [file])] extensions = [])).
Proof.
  intros join extensions.
  assert (Hsuffix : forall p exts,
             existsb (fun ext => endswith p ext) exts = true
             <-> exists ext pre, In ext exts /\ p = (pre ++ ext)%string).
  { intros p exts. rewrite existsb_exists. split.
    - intros (ext & He & Hs). apply endswith_spec in Hs.
      destruct Hs as [pre ->]. now exists ext, pre.
    - intros (ext & pre & He & ->). exists ext. split; [exact He|].
      apply endswith_spec. now exists pre. }
  split; [now destruct extensions|].
  split.
  { intros path dirs files walk. unfold get_file_paths.
    cbn [flat_map]. rewrite app_nil_r.
    destruct extensions as [exts|]; [apply filter_app | reflexivity]. }
  split; [now destruct extensions|].
  split.
  { intros path dirs file files. unfold get_file_paths.
    cbn [flat_map map]. rewrite !app_nil_r.
    destruct extensions as [exts|]; [|reflexivity].
    change (join path file :: map (join path) files)
      with ([join path file] ++ map (join path) files).
    apply filter_app. }
  split; [intros path dirs file ->; reflexivity|].
  intros path dirs file exts ->. unfold get_file_paths.
  cbn [flat_map map app filter].
  destruct (existsb (fun ext => endswith (join path file) ext) exts) eqn:E.
  - split; [reflexivity|]. intros Hno. exfalso. apply Hno. now apply Hsuffix.
  - split; [|reflexivity]. intros Hyes. apply Hsuffix in Hyes. congruence.
Qed.

(* ===================================================================== *)
(** ** read_json_config *)
(* ===================================================================== *)

Lemma missing_keys_spec {value : Type} (config : list (string * value)) (k : string) :
  In k (missing_keys config)
  <-> In k required_keys /\ ~ exists v, In (k, v) config.
Proof.
  unfold missing_keys. rewrite filter_In, negb_true_iff.
  split; intros [Hk H]; (split; [exact Hk|]).
  - intros (v & Hv).
    assert (E : existsb (String.eqb k) (map fst config) = true).
    { apply existsb_exists. exists k. split; [|apply String.eqb_refl].
      apply in_map_iff. now exists (k, v). }
    congruence.
  - apply not_true_is_false. intros E. apply H.
    apply existsb_exists in E. destruct E as (k' & Hin & Heq).
    apply String.eqb_eq in Heq. subst k'.
    apply in_map_iff in Hin. destruct Hin as ([k' v] & Hk' & Hv).
    cbn in Hk'. subst k'. now exists v.
Qed.

(** X15. [read_json_config] returns the dictionary of the file, as it is,
    exactly when the path exists, can be opened and holds a JSON object
    with every one of the ten required keys; further keys are accepted.
    It raises its own [IOError] exactly when the path does not exist, and
    its own [KeyError] exactly when the file holds a JSON object that
    lacks a required key; the error then carries the required keys that
    the object lacks. A path that cannot be opened, a text that is not
    JSON and a JSON value that is no object raise the errors of [open],
    of [json.load] and of [config.keys()]. *)
Theorem read_json_config_requires_all_keys :
  forall (value : Type) (load : string -> json_file value)
         (file_path : string),
    (forall config,
        read_json_config load file_path = inr config
        <-> load file_path = JSONObject config
            /\ forall k, In k required_keys -> exists v, In (k, v) config)
    /\ (read_json_config load file_path = inl IOError
        <-> load file_path = NoSuchPath)
    /\ (forall missing,
           read_json_config load file_path = inl (KeyError missing)
           <-> exists config,
               load file_path = JSONObject config
               /\ missing = missing_keys config
               /\ exists k, In k required_keys /\ ~ exists v, In (k, v) config)
    /\ (forall config k,
           In k (missing_keys config)
           <-> In k required_keys /\ ~ exists v : value, In (k, v) config)
    /\ (read_json_config load file_path = inl OpenError
        <-> load file_path = CannotOpen)
    /\ (read_json_config load file_path = inl JSONDecodeError
        <-> load file_path = NotJSON)
    /\ (read_json_config load file_path = inl AttributeError
        <-> load file_path = JSONOther).
Proof.
  intros value load file_path. unfold read_json_config.
  assert (Hall : forall config : list (string * value),
             missing_keys config = []
             <-> forall k, In k required_keys -> exists v, In (k, v) config).
  { intros config. split.
    - intros E k Hk.
      destruct (existsb (String.eqb k) (map fst config)) eqn:Ex.
      + apply existsb_exists in Ex. destruct Ex as (k' & Hin & Heq).
        apply String.eqb_eq in Heq. subst k'.
        apply in_map_iff in Hin. destruct Hin as ([k' v] & Hk' & Hv).
        cbn in Hk'. subst k'. now exists v.
      + exfalso. assert (Hm : In k (missing_keys config)).
        { unfold missing_keys. apply filter_In. split; [exact Hk|].
          now rewrite Ex. }
        rewrite E in Hm. contradiction.
    - intros H. destruct (missing_keys config) as [|k l] eqn:E; [reflexivity|].
      exfalso. assert (Hm : In k (missing_keys config)) by (rewrite E; now left).
      apply missing_keys_spec in Hm. destruct Hm as [Hk Hno]. auto. }
  assert (Hsome : forall config : list (string * value),
             missing_keys config <> []
             <-> exists k, In k required_keys /\ ~ exists v, In (k, v) config).
  { intros config. split.
    - intros Hne. destruct (missing_keys config) as [|k l] eqn:E; [contradiction|].
      exists k. apply missing_keys_spec. rewrite E. now left.
    - intros (k & Hk) E. apply missing_keys_spec in Hk. rewrite E in Hk.
      contradiction. }
  split; [|split; [|split; [|split; [|split; [|split]]]]].
  - intros c. destruct (load file_path) as [| | |config|];
      try (split; [discriminate | intros [H _]; discriminate]).
    destruct (missing_keys config) as [|k l] eqn:E; cbn [length Nat.eqb negb].
    + split.
      * intros [= <-]. split; [reflexivity|]. now apply Hall.
      * intros [[= <-] _]. reflexivity.
    + split; [discriminate|]. intros [[= <-] H]. apply Hall in H.
      rewrite E in H. discriminate.
  - destruct (load file_path) as [| | |config|];
      try (split; discriminate); [split; reflexivity|].
    destruct (negb _); split; discriminate.
  - intros missing. destruct (load file_path) as [| | |config|];
      try (split; [discriminate | intros (c & H & _); discriminate]).
    destruct (missing_keys config) as [|k l] eqn:E; cbn [length Nat.eqb negb].
    + split; [discriminate|].
      intros (c & [= <-] & _ & Hk). apply Hsome in Hk. rewrite E in Hk.
      now elim Hk.
    + split.
      * intros [= <-]. exists config. split; [reflexivity|].
        split; [now rewrite E|]. apply Hsome. rewrite E. discriminate.
      * intros (c & [= <-] & -> & _). now rewrite E.
  - intros config k. apply missing_keys_spec.
  - destruct (load file_path) as [| | |config|];
      try (split; discriminate); [split; reflexivity|].
    destruct (negb _); split; discriminate.
  - destruct (load file_path) as [| | |config|];
      try (split; discriminate); [split; reflexivity|].
    destruct (negb _); split; discriminate.
  - destruct (load file_path) as [| | |config|];
      try (split; discriminate); [|split; reflexivity].
    destruct (negb _); split; discriminate.
Qed.

(* ===================================================================== *)
(** ** What the magnitude comparison accepts *)
(* ===================================================================== *)

Lemma sum_pow2_app (l1 l2 : list Z) :
  sum_pow2 (l1 ++ l2) = sum_pow2 l1 + sum_pow2 l2.
Proof.
  unfold sum_pow2. induction l1 as [|b l1 IH]; cbn [app map fold_right].
  - reflexivity.
  - rewrite IH. lia.
Qed.

(** Distinct bits below [m] add up to less than [2^m]. *)
Lemma sum_pow2_bound (m : nat) :
  forall bits,
    NoDup bits ->
    Forall (fun b => 0 <= b < Z.of_nat m) bits ->
    sum_pow2 bits < 2 ^ Z.of_nat m.
Proof.
  induction m as [|m IH]; intros bits Hnd Hall.
  - destruct bits as [|b bits]; [reflexivity|].
    apply Forall_inv in Hall. lia.
  - assert (Hpow : 2 ^ Z.of_nat (S m) = 2 ^ Z.of_nat m + 2 ^ Z.of_nat m).
    { rewrite Nat2Z.inj_succ, Z.pow_succ_r by lia. lia. }
    assert (Hpos : 0 < 2 ^ Z.of_nat m) by (apply Z.pow_pos_nonneg; lia).
    destruct (in_dec Z.eq_dec (Z.of_nat m) bits) as [Hin|Hnot].
    + destruct (in_split _ _ Hin) as (l1 & l2 & ->).
      pose proof (NoDup_remove_1 _ _ _ Hnd) as Hnd'.
      pose proof (NoDup_remove_2 _ _ _ Hnd) as Hnot.
      replace (l1 ++ Z.of_nat m :: l2) with (l1 ++ [Z.of_nat m] ++ l2) by reflexivity.
      rewrite !sum_pow2_app.
      assert (Hrest : sum_pow2 (l1 ++ l2) < 2 ^ Z.of_nat m).
      { apply IH; [exact Hnd'|].
        apply Forall_forall. intros b Hb.
        assert (Hb' : In b (l1 ++ Z.of_nat m :: l2)).
        { apply in_app_or in Hb. apply in_or_app.
          destruct Hb; [now left | right; now right]. }
        pose proof (proj1 (Forall_forall _ _) Hall b Hb') as Hr. cbn beta in Hr.
        assert (b <> Z.of_nat m) by (intros ->; contradiction). lia. }
      rewrite sum_pow2_app in Hrest.
      unfold sum_pow2 at 2. cbn [map fold_right]. lia.
    + assert (Hlt : sum_pow2 bits < 2 ^ Z.of_nat m).
      { apply IH; [exact Hnd|].
        apply Forall_forall. intros b Hb.
        pose proof (proj1 (Forall_forall _ _) Hall b Hb) as Hr. cbn beta in Hr.
        assert (b <> Z.of_nat m) by (intros ->; contradiction). lia. }
      lia.
Qed.

Lemma land_distinct_pow2 (m k : Z) :
  0 <= k -> 0 <= m -> k <> m -> Z.land (2 ^ m) (Z.shiftl 1 k) = 0.
Proof.
  intros Hk Hm Hne. rewrite Z.shiftl_1_l. apply Z.bits_inj'. intros n Hn.
  rewrite Z.land_spec, Z.bits_0, !Z.pow2_bits_eqb by lia.
  destruct (Z.eqb_spec m n); destruct (Z.eqb_spec k n); try reflexivity; lia.
Qed.

(** X16. The data quality check does not test the required bits. For
    distinct required bits, all below [m], a window whose values are all
    [2^m] passes the check, although no value has any required bit set. *)
Theorem dq_check_accepts_values_without_required_bits :
  forall (environment : timeline_t) (dq_bits : list Z) (m : Z),
    0 <= m ->
    NoDup dq_bits ->
    Forall (fun b => 0 <= b < m) dq_bits ->
    Forall (fun x => x = 2 ^ m) (h1_dq_mask environment) ->
    Forall (fun x => x = 2 ^ m) (l1_dq_mask environment) ->
    dq_check environment dq_bits = true
    /\ forall k x,
        In k dq_bits ->
        In x (h1_dq_mask environment ++ l1_dq_mask environment) ->
        ~ bit_set k x.
Proof.
  intros environment dq m Hm Hnd Hbits Hh Hl.
  assert (Hsum : sum_pow2 dq < 2 ^ m).
  { rewrite <- (Z2Nat.id m Hm). apply sum_pow2_bound; [exact Hnd|].
    rewrite Z2Nat.id by exact Hm. exact Hbits. }
  split.
  - unfold dq_check. apply andb_true_iff.
    split; apply np_all_gt_Forall;
      [revert Hh | revert Hl]; apply Forall_impl; intros x ->; exact Hsum.
  - intros k x Hk Hx. unfold bit_set. intros Hset. apply Hset.
    pose proof (proj1 (Forall_forall _ _) Hbits k Hk) as Hr. cbn beta in Hr.
    rewrite Forall_forall in Hh, Hl.
    apply in_app_or in Hx. destruct Hx as [Hx|Hx];
      [rewrite (Hh x Hx) | rewrite (Hl x Hx)];
      apply land_distinct_pow2; lia.
Qed.

(** Quality values 16 (bit 4 alone) pass the check for the required bits
    0, 1, 2 and 3. *)
Lemma dq_check_accepts_values_without_required_bits_witness :
  NoDup [0; 1; 2; 3]
  /\ dq_check {| h1_inj_mask := []; l1_inj_mask := [];
                 h1_dq_mask := [16; 16]; l1_dq_mask := [16] |} [0; 1; 2; 3] = true.
Proof.
  assert (Hnd : NoDup [0; 1; 2; 3]).
  { repeat constructor; cbn; lia. }
  split; [exact Hnd|].
  apply (dq_check_accepts_values_without_required_bits _ [0; 1; 2; 3] 4).
  - lia.
  - exact Hnd.
  - repeat constructor; lia.
  - cbn [h1_dq_mask]. repeat constructor.
  - cbn [l1_dq_mask]. repeat constructor.
Defined.

(* ===================================================================== *)
(** ** The examples, evaluated *)
(* ===================================================================== *)

Example get_file_paths_example :
  get_file_paths slash_join example_walk (Some ["hdf"%string; "h5"%string])
  = ["data/a.hdf"%string; "data/O1/b.h5"%string; "data/O1/dhdf"%string].
Proof. reflexivity. Qed.

Example read_json_config_examples :
  read_json_config example_load "config.json" = inr
    (map (fun k => (k, 0)) required_keys ++ [("comment"%string, 1)])
  /\ read_json_config example_load "missing.json" = inl IOError
  /\ read_json_config example_load "data" = inl OpenError
  /\ read_json_config example_load "list.json" = inl AttributeError
  /\ read_json_config example_load "partial.json"
     = inl (KeyError
              [ "background_data_directory"%string; "inj_bits"%string;
                "waveform_params_file_name"%string; "max_runtime"%string;
                "n_injection_samples"%string; "n_noise_samples"%string;
                "n_processes"%string; "random_seed"%string;
                "output_file_name"%string ]).
Proof. repeat split. Qed.

Example bad_detector_example :
  __init__ (one_segment_files ++ [bad_detector_file]) = Raise AssertionError.
Proof. vm_compute. reflexivity. Qed.
